(** * AIPostcard front end: the search page, its form, its filters and its
      result list, embedded from the TypeScript sources.

    Source files embedded here:
    - [SearchResults.tsx]  (standardizeTextDisplay, renderExtractedText,
      the extraction timer, fetchResults, the banner and the pagination);
    - [SearchForm.tsx]     (fetchSuggestions and its debounce timer,
      generateMockSuggestions, handleSubmit, handleSuggestionClick, the
      input handlers, the click outside, the dropdown);
    - [FilterPanel.tsx]    (initial state, applyFilters, resetFilters,
      handleSortChange, the active-filter chips);
    - [app/search/page.tsx] (SearchPage).

    Conventions.
    - A JavaScript string is a sequence of UTF-16 code units; the
      development works with the code units U+0000..U+00FF, one [ascii]
      per unit, so [String.length] is [.length].  The built-ins
      [toLowerCase], [trim], [includes], [encodeURIComponent],
      [decodeURIComponent] and the serializer of [URLSearchParams] are
      written out for that range.
    - A JavaScript number is [NaN] or an integer: what [parseInt] returns,
      and a price written without a fraction.  The integers meant are the
      safe ones ([isSafeInteger], absolute value below 2^53), which
      JavaScript adds and subtracts exactly and writes in digits; a
      statement that depends on it says so.  [parseInt] and [parseFloat]
      themselves are parameters of the page.
    - A value read from a response body is a [JsValue]; the body is what
      [JSON.parse] made of it.
    - A component is its state record; a handler is a function on the
      state, the log of requests and the log of navigations, and may
      throw.  An async handler gives the control back at each [await]:
      [fetchResults] is given whole and cut at its awaits, and the life of
      the result list has the calls that are in flight.  Calls to
      [console] are left out. *)

From Stdlib Require Import ZArith Ascii String List Bool Lia.
From Stdlib Require Import DecimalString DecimalPos DecimalZ.
From stdpp Require Import base option list strings gmap.

Local Open Scope Z_scope.
#[local] Arguments String.append _ _ : simpl nomatch.

(** ** Strings *)

Module JsString.

Definition unit_of_N (n : N) : ascii := ascii_of_N n.
Definition code (c : ascii) : N := N_of_ascii c.

(** [String.prototype.toLowerCase] on one code unit below U+0100:
    A..Z, and U+00C0..U+00DE except the multiplication sign U+00D7. *)
Definition lowerUnit (c : ascii) : ascii :=
  let n := code c in
  if ((65 <=? n) && (n <=? 90))%N
     || ((192 <=? n) && (n <=? 222) && negb (n =? 215))%N
  then unit_of_N (n + 32) else c.

Fixpoint toLowerCase (s : string) : string :=
  match s with
  | EmptyString => EmptyString
  | String c s' => String (lowerUnit c) (toLowerCase s')
  end.

(** [s.startsWith(p)] *)
Fixpoint startsWith (s p : string) {struct p} : bool :=
  match p, s with
  | EmptyString, _ => true
  | String _ _, EmptyString => false
  | String b p', String a s' => Ascii.eqb a b && startsWith s' p'
  end.

(** [s.includes(p)]: [p] occurs in [s] at some index. *)
Fixpoint includes (s p : string) : bool :=
  startsWith s p ||
  match s with
  | EmptyString => false
  | String _ s' => includes s' p
  end.

(** White space and line terminators of ECMAScript below U+0100:
    TAB, LF, VT, FF, CR, SP, NBSP. *)
Definition isWhiteSpace (c : ascii) : bool :=
  let n := code c in
  ((9 <=? n) && (n <=? 13) || (n =? 32) || (n =? 160))%N.

Fixpoint trimStart (s : string) : string :=
  match s with
  | EmptyString => EmptyString
  | String c s' => if isWhiteSpace c then trimStart s' else s
  end.

(** [trimEnd] keeps a unit when it is not white space or when something
    is kept after it. *)
Fixpoint trimEnd (s : string) : string :=
  match s with
  | EmptyString => EmptyString
  | String c s' =>
      match trimEnd s' with
      | EmptyString => if isWhiteSpace c then EmptyString else String c EmptyString
      | r => String c r
      end
  end.

Definition trim (s : string) : string := trimEnd (trimStart s).

(** A string in a boolean position: only the empty string is falsy. *)
Definition truthy (s : string) : bool := negb (String.eqb s "").

Fixpoint allUnits (P : ascii -> bool) (s : string) : bool :=
  match s with
  | EmptyString => true
  | String c s' => P c && allUnits P s'
  end.

End JsString.

(** ** Extracted text: the tri-state of [SearchResults.tsx] *)

(** [string | null | undefined] *)
Inductive OptText : Type :=
| TUndefined
| TNull
| TStr (s : string).

Definition noTextPhrases : list string :=
  [ "unable to extract";
    "can't extract";
    "sorry";
    "couldn't";
    "no text";
    "not visible";
    "not detected";
    "no text found";
    "no_text_found";
    "i don't see any";
    "cannot see" ].

Definition standardizeTextDisplay (text : OptText) : string :=
  match text with
  | TUndefined => "extracting"
  | TNull => "none"
  | TStr s =>
      if String.eqb s "" then "none"
      else
        let textLower := JsString.toLowerCase s in
        if existsb (fun phrase => JsString.includes textLower phrase) noTextPhrases
        then "none"
        else if (String.length s <? 5)%nat then "none"
        else s
  end.

(** The text panel of a card.  [renderExtractedText] returns one of three
    JSX fragments. *)
Inductive TextPanel : Type :=
| ExtractingIndicator            (* <span ...>Extracting text...</span> *)
| NoTextDetected                 (* <span ...>No text detected</span> *)
| ExtractedText (text : string). (* <div ...>{textStatus}</div> *)

Definition renderExtractedText (extractionTimeout : bool) (textStatus : string)
  : TextPanel :=
  if String.eqb textStatus "extracting" && negb extractionTimeout then
    ExtractingIndicator
  else if String.eqb textStatus "none"
          || (String.eqb textStatus "extracting" && extractionTimeout) then
    NoTextDetected
  else
    ExtractedText textStatus.

(** The text fields of a [SearchResult]. *)
Record SearchResult : Type := mkResult {
  image_text : OptText;
  additional_images : option (list string);
  additional_image_text : option (list string)
}.

(** The argument of the Back panel (lines 280-282): the first additional
    text, or [undefined]. *)
Definition backText (r : SearchResult) : OptText :=
  match additional_image_text r with
  | Some (t :: _) => TStr t
  | Some [] | None => TUndefined
  end.

(** ** Numbers *)

Inductive number : Type :=
| NaN
| Num (z : Z).

Module JsNumber.

(** [Number.prototype.toString], also what a template literal does: the
    digits of a safe integer. *)
Definition toString (n : number) : string :=
  match n with
  | NaN => "NaN"
  | Num z => NilEmpty.string_of_int (Z.to_int z)
  end.

(** A number in a boolean position: 0 and NaN are falsy. *)
Definition truthy (n : number) : bool :=
  match n with
  | NaN => false
  | Num z => negb (z =? 0)
  end.

(** [a + b] and [a - b], exact on the safe integers. *)
Definition add (a b : number) : number :=
  match a, b with
  | Num x, Num y => Num (x + y)
  | _, _ => NaN
  end.

Definition sub (a b : number) : number :=
  match a, b with
  | Num x, Num y => Num (x - y)
  | _, _ => NaN
  end.

(** [a > b] and [a >= b]: false as soon as one side is NaN. *)
Definition gtb (a b : number) : bool :=
  match a, b with
  | Num x, Num y => y <? x
  | _, _ => false
  end.

Definition geb (a b : number) : bool :=
  match a, b with
  | Num x, Num y => y <=? x
  | _, _ => false
  end.

Definition ofNat (n : nat) : number := Num (Z.of_nat n).

End JsNumber.

(** [number | undefined] in a boolean position. *)
Definition truthyOptNumber (n : option number) : bool :=
  match n with
  | None => false
  | Some x => JsNumber.truthy x
  end.

(** [string | undefined] in a boolean position. *)
Definition truthyOptString (s : option string) : bool :=
  match s with
  | None => false
  | Some x => JsString.truthy x
  end.

(** ** Values of a parsed JSON body *)

#[warnings="-register-all"]
Inductive JsValue : Type :=
| VUndefined
| VNull
| VBool (b : bool)
| VNum (n : number)
| VStr (s : string)
| VArr (elems : list JsValue)
| VObj (props : gmap string JsValue).

Module Js.

Definition truthy (v : JsValue) : bool :=
  match v with
  | VUndefined | VNull => false
  | VBool b => b
  | VNum n => JsNumber.truthy n
  | VStr s => JsString.truthy s
  | VArr _ | VObj _ => true
  end.

(** [a || b] *)
Definition or (a b : JsValue) : JsValue := if truthy a then a else b.

(** [v !== s] for a string [s]. *)
Definition strictNeString (v : JsValue) (s : string) : bool :=
  match v with
  | VStr t => negb (String.eqb t s)
  | _ => true
  end.

(** [v.k]: [None] is the TypeError of a property read on [null] or
    [undefined]; a primitive has none of the properties read here. *)
Definition getProp (v : JsValue) (k : string) : option JsValue :=
  match v with
  | VUndefined | VNull => None
  | VObj m => Some (default VUndefined (m !! k))
  | VBool _ | VNum _ | VStr _ | VArr _ => Some VUndefined
  end.

Definition strings (l : list string) : JsValue := VArr (map VStr l).

End Js.

(** ** URL encoding *)

Module Url.

Definition hexDigit (n : N) : ascii :=
  JsString.unit_of_N (if (n <? 10)%N then 48 + n else 55 + n)%N.

(** [%XX] for one byte. *)
Definition percent (b : N) : string :=
  String "%" (String (hexDigit (b / 16)) (String (hexDigit (b mod 16)) EmptyString)).

(** UTF-8 bytes of a code unit below U+0100. *)
Definition utf8 (c : ascii) : list N :=
  let n := JsString.code c in
  if (n <? 128)%N then [n] else [192 + n / 64; 128 + n mod 64]%N.

Definition percentAll (bs : list N) : string :=
  fold_right (fun b acc => percent b +:+ acc) EmptyString bs.

Definition isAlnum (n : N) : bool :=
  ((48 <=? n) && (n <=? 57) || (65 <=? n) && (n <=? 90)
   || (97 <=? n) && (n <=? 122))%N.

(** The characters [encodeURIComponent] leaves alone:
    A-Z a-z 0-9 - _ . ! ~ * ' ( ) *)
Definition isUnreserved (c : ascii) : bool :=
  let n := JsString.code c in
  isAlnum n
  || existsb (N.eqb n) [45; 95; 46; 33; 126; 42; 39; 40; 41]%N.

Definition encodeUnit (c : ascii) : string :=
  if isUnreserved c then String c EmptyString else percentAll (utf8 c).

Fixpoint encodeURIComponent (s : string) : string :=
  match s with
  | EmptyString => EmptyString
  | String c s' => encodeUnit c +:+ encodeURIComponent s'
  end.

Definition hexValue (c : ascii) : option N :=
  let n := JsString.code c in
  if ((48 <=? n) && (n <=? 57))%N then Some (n - 48)%N
  else if ((65 <=? n) && (n <=? 70))%N then Some (n - 55)%N
  else if ((97 <=? n) && (n <=? 102))%N then Some (n - 87)%N
  else None.

(** The byte written as [%hl]. *)
Definition escapedByte (h l : ascii) : option N :=
  match hexValue h, hexValue l with
  | Some a, Some b => Some (16 * a + b)%N
  | _, _ => None
  end.

(** [decodeURIComponent]: a character other than % stands for itself, an
    escape below 0x80 for that code unit, and the two escapes of a UTF-8
    pair led by 0xC2 or 0xC3 for a code unit in U+0080..U+00FF.  [None] is
    the URIError of a malformed escape, or a character above U+00FF. *)
Fixpoint decodeURIComponent (s : string) : option string :=
  match s with
  | EmptyString => Some EmptyString
  | String c s' =>
      if Ascii.eqb c "%" then
        match s' with
        | String h (String l rest) =>
            match escapedByte h l with
            | Some b =>
                if (b <? 128)%N then
                  String (JsString.unit_of_N b) <$> decodeURIComponent rest
                else if ((b =? 194) || (b =? 195))%N then
                  match rest with
                  | String p (String h2 (String l2 rest2)) =>
                      if Ascii.eqb p "%" then
                        match escapedByte h2 l2 with
                        | Some b2 =>
                            if ((128 <=? b2) && (b2 <? 192))%N then
                              String (JsString.unit_of_N ((b - 192) * 64 + (b2 - 128)))
                                <$> decodeURIComponent rest2
                            else None
                        | None => None
                        end
                      else None
                  | _ => None
                  end
                else None
            | None => None
            end
        | _ => None
        end
      else String c <$> decodeURIComponent s'
  end.

(** Reading a URL back: the part before the first [sep] and the part after
    it, if [sep] occurs. *)
Fixpoint cutAt (sep : ascii) (s : string) : string * option string :=
  match s with
  | EmptyString => (EmptyString, None)
  | String c s' =>
      if Ascii.eqb c sep then (EmptyString, Some s')
      else let '(before, after) := cutAt sep s' in (String c before, after)
  end.

Fixpoint splitOn (sep : ascii) (s : string) : list string :=
  match s with
  | EmptyString => [EmptyString]
  | String c s' =>
      if Ascii.eqb c sep then EmptyString :: splitOn sep s'
      else
        match splitOn sep s' with
        | piece :: pieces => String c piece :: pieces
        | [] => [String c EmptyString]
        end
  end.

(** The path of a relative URL and the name/value pairs of its query, as
    written (not decoded): the query runs from the first ? to the first #,
    pairs are separated by &, a name ends at the first =. *)
Definition pathOf (url : string) : string := fst (cutAt "?" url).

Definition queryPairs (url : string) : list (string * string) :=
  match snd (cutAt "?" url) with
  | None => []
  | Some q =>
      map (fun piece => let '(name, value) := cutAt "=" piece in
                        (name, default EmptyString value))
          (List.filter JsString.truthy (splitOn "&" (fst (cutAt "#" q))))
  end.

(** The application/x-www-form-urlencoded byte serializer used by
    [URLSearchParams.prototype.toString]: alphanumerics and * - . _ stay,
    a space becomes +, the rest is percent-encoded. *)
Definition formUnit (c : ascii) : string :=
  let n := JsString.code c in
  if isAlnum n || existsb (N.eqb n) [42; 45; 46; 95]%N then String c EmptyString
  else if (n =? 32)%N then "+"
  else percentAll (utf8 c).

Fixpoint formEncode (s : string) : string :=
  match s with
  | EmptyString => EmptyString
  | String c s' => formUnit c +:+ formEncode s'
  end.

End Url.

(** [URLSearchParams]: an ordered list of name/value pairs. *)
Module URLSearchParams.

Definition t : Type := list (string * string).

Definition empty : t := [].

Definition append (name value : string) (ps : t) : t := ps ++ [(name, value)].

Fixpoint toString (ps : t) : string :=
  match ps with
  | [] => EmptyString
  | [(k, v)] => Url.formEncode k +:+ "=" +:+ Url.formEncode v
  | (k, v) :: rest =>
      Url.formEncode k +:+ "=" +:+ Url.formEncode v +:+ "&" +:+ toString rest
  end.

End URLSearchParams.

(** ** Effects: component state, thrown errors, requests, navigation *)

Inductive Exn : Type :=
| Error (msg : string)   (* new Error(msg) *)
| TypeError              (* property read on null or undefined *)
| SyntaxError            (* response.json() on a body that is not JSON *)
| FetchRejected.         (* fetch() rejected: network failure, CORS *)

Inductive Completion (A : Type) : Type :=
| Normal (a : A)
| Throw (e : Exn).
Arguments Normal {A} a.
Arguments Throw {A} e.

(** What a component handler can touch: the component's own state, the
    log of requests sent with [fetch] and the log of [router.push]
    targets.  A state setter is a write to [comp]; a handler never reads
    back a state variable it has set. *)
Record World (St : Type) : Type := mkWorld {
  comp : St;
  requests : list string;
  pushed : list string
}.
Arguments mkWorld {St} comp requests pushed.
Arguments comp {St} w.
Arguments requests {St} w.
Arguments pushed {St} w.

Record HttpResponse : Type := mkResponse {
  ok : bool;
  status : number;
  statusText : string;
  body : option JsValue   (* [None]: the body does not parse as JSON *)
}.

Inductive FetchOutcome : Type :=
| Rejected
| Resolved (r : HttpResponse).

Definition Eff (St A : Type) : Type := World St -> Completion A * World St.

Module Eff.
Section Ops.
Context {St : Type}.

Definition ret {A} (a : A) : Eff St A := fun w => (Normal a, w).

Definition bind {A B} (m : Eff St A) (k : A -> Eff St B) : Eff St B :=
  fun w =>
    match m w with
    | (Normal a, w') => k a w'
    | (Throw e, w') => (Throw e, w')
    end.

Definition throw {A} (e : Exn) : Eff St A := fun w => (Throw e, w).

Definition setState (f : St -> St) : Eff St unit :=
  fun w => (Normal tt, mkWorld (f (comp w)) (requests w) (pushed w)).

(** [try { body } catch (err) { handler } finally { fin }] *)
Definition tryCatchFinally {A} (body : Eff St A) (handler : Exn -> Eff St A)
    (fin : Eff St unit) : Eff St A :=
  fun w =>
    let '(c, w1) :=
      match body w with
      | (Normal a, w') => (Normal a, w')
      | (Throw e, w') => handler e w'
      end in
    match fin w1 with
    | (Normal _, w2) => (c, w2)
    | (Throw e, w2) => (Throw e, w2)
    end.

(** [router.push(url)] *)
Definition push (url : string) : Eff St unit :=
  fun w => (Normal tt, mkWorld (comp w) (requests w) (pushed w ++ [url])).

(** [await fetch(url, ...)] against a network [net]. *)
Definition fetch (net : string -> FetchOutcome) (url : string)
  : Eff St HttpResponse :=
  fun w =>
    let w' := mkWorld (comp w) (requests w ++ [url]) (pushed w) in
    match net url with
    | Rejected => (Throw FetchRejected, w')
    | Resolved r => (Normal r, w')
    end.

(** [await response.json()] *)
Definition json (r : HttpResponse) : Eff St JsValue :=
  match body r with
  | Some v => ret v
  | None => throw SyntaxError
  end.

(** [data.k] *)
Definition prop (data : JsValue) (k : string) : Eff St JsValue :=
  match Js.getProp data k with
  | Some v => ret v
  | None => throw TypeError
  end.

End Ops.
End Eff.

Notation "x <- m ;; k" := (Eff.bind m (fun x => k))
  (at level 100, m at next level, right associativity).
Notation "m ;;; k" := (Eff.bind m (fun _ => k))
  (at level 100, right associativity).

(** [process.env.NEXT_PUBLIC_API_URL || 'http://localhost:9001'] *)
Definition apiBase (NEXT_PUBLIC_API_URL : option string) : string :=
  match NEXT_PUBLIC_API_URL with
  | Some u => if JsString.truthy u then u else "http://localhost:9001"
  | None => "http://localhost:9001"
  end.

(** ** SearchResults.tsx *)

Record SearchResultsProps : Type := mkProps {
  query : string;
  page : number;
  yearMin : option number;
  yearMax : option number;
  location : option string;
  priceMin : option number;
  priceMax : option number;
  sortBy : option string
}.

(** The destructuring default [sortBy = 'relevance']. *)
Definition sortByOf (p : SearchResultsProps) : string :=
  match sortBy p with
  | Some s => s
  | None => "relevance"
  end.

Record ResultsState : Type := mkResultsState {
  results : JsValue;
  total : JsValue;
  loading : bool;
  error : option string;
  enhancedQuery : JsValue;
  extractionTimeout : bool
}.

(** The [useState] initial values. *)
Definition initialResultsState : ResultsState :=
  {| results := VArr [];
     total := VNum (Num 0);
     loading := true;
     error := None;
     enhancedQuery := VNull;
     extractionTimeout := false |}.

Definition setResults (v : JsValue) : Eff ResultsState unit :=
  Eff.setState (fun s =>
    mkResultsState v (total s) (loading s) (error s) (enhancedQuery s) (extractionTimeout s)).
Definition setTotal (v : JsValue) : Eff ResultsState unit :=
  Eff.setState (fun s =>
    mkResultsState (results s) v (loading s) (error s) (enhancedQuery s) (extractionTimeout s)).
Definition setLoading (b : bool) : Eff ResultsState unit :=
  Eff.setState (fun s =>
    mkResultsState (results s) (total s) b (error s) (enhancedQuery s) (extractionTimeout s)).
Definition setError (e : option string) : Eff ResultsState unit :=
  Eff.setState (fun s =>
    mkResultsState (results s) (total s) (loading s) e (enhancedQuery s) (extractionTimeout s)).
Definition setEnhancedQuery (v : JsValue) : Eff ResultsState unit :=
  Eff.setState (fun s =>
    mkResultsState (results s) (total s) (loading s) (error s) v (extractionTimeout s)).
Definition setExtractionTimeout (b : bool) : Eff ResultsState unit :=
  Eff.setState (fun s =>
    mkResultsState (results s) (total s) (loading s) (error s) (enhancedQuery s) b).

Definition appendIf (c : bool) (name value : string) (ps : URLSearchParams.t)
  : URLSearchParams.t :=
  if c then URLSearchParams.append name value ps else ps.

(** The query parameters built at lines 130-139. *)
Definition searchParamsOf (p : SearchResultsProps) : URLSearchParams.t :=
  let params := URLSearchParams.empty in
  let params := URLSearchParams.append "query" (query p) params in
  let params := URLSearchParams.append "page" (JsNumber.toString (page p)) params in
  let params :=
    match yearMin p with
    | Some y => URLSearchParams.append "year_min" (JsNumber.toString y) params
    | None => params
    end in
  let params :=
    match yearMax p with
    | Some y => URLSearchParams.append "year_max" (JsNumber.toString y) params
    | None => params
    end in
  let params :=
    appendIf (truthyOptString (location p)) "location" (default "" (location p)) params in
  let params :=
    match priceMin p with
    | Some x => URLSearchParams.append "price_min" (JsNumber.toString x) params
    | None => params
    end in
  let params :=
    match priceMax p with
    | Some x => URLSearchParams.append "price_max" (JsNumber.toString x) params
    | None => params
    end in
  appendIf (JsString.truthy (sortByOf p)) "sort_by" (sortByOf p) params.

Definition searchUrl (env : option string) (p : SearchResultsProps) : string :=
  apiBase env +:+ "/api/search?" +:+ URLSearchParams.toString (searchParamsOf p).

Definition fetchFailedMessage : string :=
  "Failed to fetch search results. Please try again later.".

Section FetchResults.
Variable env : option string.              (* NEXT_PUBLIC_API_URL *)
Variable net : string -> FetchOutcome.     (* the network *)

Definition fetchResults (p : SearchResultsProps) : Eff ResultsState unit :=
  if negb (JsString.truthy (query p)) then Eff.ret tt
  else
    setLoading true ;;;
    setError None ;;;
    Eff.tryCatchFinally
      (let apiUrl := searchUrl env p in
       response <- Eff.fetch net apiUrl ;;
       if negb (ok response) then
         Eff.throw (Error ("Search failed: " +:+ JsNumber.toString (status response)
                           +:+ " " +:+ statusText response))
       else
         data <- Eff.json response ;;
         r <- Eff.prop data "results" ;;
         setResults (Js.or r (VArr [])) ;;;
         t <- Eff.prop data "total" ;;
         setTotal (Js.or t (VNum (Num 0))) ;;;
         e <- Eff.prop data "enhanced_query" ;;
         setEnhancedQuery (Js.or e VNull))
      (fun err =>
         setError (Some fetchFailedMessage) ;;;
         setResults (VArr []) ;;;
         setTotal (VNum (Num 0)))
      (setLoading false).

(** [fetchResults] is an async function: it gives the control back at
    [await fetch(...)] (line 144) and at [await response.json()] (line
    157), and whatever else is scheduled runs in between.  [fetchResults]
    above is the call run from start to end with nothing in between; the
    three definitions below are the same lines cut at the two awaits. *)
Inductive Pending : Type :=
| AwaitingFetch (url : string)        (* suspended at [await fetch(apiUrl, ...)] *)
| AwaitingJson (r : HttpResponse).    (* suspended at [await response.json()] *)

(** [fetch(url, ...)] is called: the request leaves. *)
Definition sendRequest (url : string) : Eff ResultsState unit :=
  fun w => (Normal tt, mkWorld (comp w) (requests w ++ [url]) (pushed w)).

(** The [catch] block (lines 164-168) and the [finally] block (line 170). *)
Definition catchBlock (err : Exn) : Eff ResultsState unit :=
  setError (Some fetchFailedMessage) ;;;
  setResults (VArr []) ;;;
  setTotal (VNum (Num 0)).

Definition finallyBlock : Eff ResultsState unit := setLoading false.

(** Lines 122-153: from the call to the first await.  [None]: the call has
    returned (no query); [Some k]: it is suspended at [k]. *)
Definition fetchResultsBegin (p : SearchResultsProps)
  : Eff ResultsState (option Pending) :=
  if negb (JsString.truthy (query p)) then Eff.ret None
  else
    setLoading true ;;;
    setError None ;;;
    (let apiUrl := searchUrl env p in
     sendRequest apiUrl ;;;
     Eff.ret (Some (AwaitingFetch apiUrl))).

(** The call goes on from the await it was suspended at, up to the next
    await ([Some k']) or to its end ([None]). *)
Definition fetchResultsResume (k : Pending) : Eff ResultsState (option Pending) :=
  match k with
  | AwaitingFetch url =>
      match net url with
      | Rejected =>
          Eff.tryCatchFinally (Eff.throw FetchRejected) catchBlock finallyBlock ;;;
          Eff.ret None
      | Resolved response =>
          if negb (ok response) then
            Eff.tryCatchFinally
              (Eff.throw (Error ("Search failed: " +:+ JsNumber.toString (status response)
                                 +:+ " " +:+ statusText response)))
              catchBlock finallyBlock ;;;
            Eff.ret None
          else Eff.ret (Some (AwaitingJson response))
      end
  | AwaitingJson response =>
      Eff.tryCatchFinally
        (data <- Eff.json response ;;
         r <- Eff.prop data "results" ;;
         setResults (Js.or r (VArr [])) ;;;
         t <- Eff.prop data "total" ;;
         setTotal (Js.or t (VNum (Num 0))) ;;;
         e <- Eff.prop data "enhanced_query" ;;
         setEnhancedQuery (Js.or e VNull))
        catchBlock finallyBlock ;;;
      Eff.ret None
  end.


End FetchResults.

(** *** What the component returns *)

(** One optional filter of a page link:
    [${v ? `&name=${v}` : ''}] for a [number | undefined]. *)
Definition numberParam (name : string) (v : option number) : string :=
  match v with
  | Some n => if JsNumber.truthy n then "&" +:+ name +:+ "=" +:+ JsNumber.toString n else ""
  | None => ""
  end.

(** The [href] of the Previous and Next links (lines 329 and 342), for the
    page number [target]. *)
Definition pageHref (p : SearchResultsProps) (target : number) : string :=
  "/search?query=" +:+ Url.encodeURIComponent (query p)
  +:+ "&page=" +:+ JsNumber.toString target
  +:+ numberParam "year_min" (yearMin p)
  +:+ numberParam "year_max" (yearMax p)
  +:+ (match location p with
       | Some l => if JsString.truthy l then "&location=" +:+ Url.encodeURIComponent l else ""
       | None => ""
       end)
  +:+ numberParam "price_min" (priceMin p)
  +:+ numberParam "price_max" (priceMax p)
  +:+ (if JsString.truthy (sortByOf p) then "&sort_by=" +:+ sortByOf p else "").

Record Pagination : Type := mkPagination {
  previousLink : option string;
  currentPage : number;
  nextLink : option string
}.

(** The [<nav>] at lines 326-348. *)
Definition paginationNav (p : SearchResultsProps) (shown : nat) : Pagination :=
  {| previousLink :=
       if JsNumber.gtb (page p) (Num 1)
       then Some (pageHref p (JsNumber.sub (page p) (Num 1))) else None;
     currentPage := page p;
     nextLink :=
       if JsNumber.geb (JsNumber.ofNat shown) (Num 20)
       then Some (pageHref p (JsNumber.add (page p) (Num 1))) else None |}.

(** The labelled text panels of one card (lines 268-296): the front, the
    back when the result has additional images, and one panel for each
    additional text after the first. *)
Definition cardTextPanels (extractionTimeout : bool) (r : SearchResult)
  : list (string * TextPanel) :=
  let panel text := renderExtractedText extractionTimeout (standardizeTextDisplay text) in
  [("Front:", panel (image_text r))]
  ++ match additional_images r with
     | Some (_ :: _) => [("Back:", panel (backText r))]
     | Some [] | None => []
     end
  ++ match additional_image_text r with
     | Some (_ :: ((_ :: _) as others)) =>
         imap (fun index text =>
                 ("Additional " +:+ JsNumber.toString (JsNumber.ofNat (index + 2)) +:+ ":",
                  panel (TStr text)))
              others
     | Some [_] | Some [] | None => []
     end.

(** [enhancedQuery && enhancedQuery !== query && <p>...</p>]: the banner
    with the text it shows, or nothing. *)
Definition enhancedBanner (enhanced : JsValue) (q : string) : option JsValue :=
  if Js.truthy enhanced && Js.strictNeString enhanced q then Some enhanced else None.

Record ResultsPage : Type := mkResultsPage {
  banner : option JsValue;
  cards : list JsValue;
  pagination : option Pagination
}.

Inductive View : Type :=
| LoadingView
| ErrorView (message : string)
| ResultsView (v : ResultsPage).

(** The tree returned after the two early returns (lines 195-352).  The
    state variables [total] and [results] are declared as a number and an
    array; the tree is defined on such states and is [None] on the others. *)
Definition resultsTree (p : SearchResultsProps) (s : ResultsState) : option View :=
  match total s, results s with
  | VNum t, VArr rs =>
      Some (ResultsView
        {| banner := enhancedBanner (enhancedQuery s) (query p);
           cards := rs;
           pagination :=
             if JsNumber.gtb t (Num 0) then Some (paginationNav p (length rs))
             else None |})
  | _, _ => None
  end.

Definition render (p : SearchResultsProps) (s : ResultsState) : option View :=
  if loading s then Some LoadingView
  else if truthyOptString (error s) then Some (ErrorView (default "" (error s)))
  else resultsTree p s.

(** *** The returned tree, with what can throw in it

    [render] above keeps, of the tree returned at lines 195-352, the
    banner, the list of results and the pagination, for a state of the
    declared types.  [renderScreen] is the same tree read as JavaScript
    reads it, on any state: [total] and [results] hold whatever the
    response carried, an expression in braces is a React child, and the
    rendering of the whole tree fails as soon as one of its parts throws. *)

(** A value in braces as a React child: a string or a number is its text,
    a boolean, [null] and [undefined] show nothing, an array shows its
    elements, and a plain object is refused ([None]). *)
Fixpoint childText (v : JsValue) : option string :=
  match v with
  | VUndefined | VNull | VBool _ => Some ""
  | VNum n => Some (JsNumber.toString n)
  | VStr s => Some s
  | VArr elems =>
      (fix children (l : list JsValue) : option string :=
         match l with
         | [] => Some ""
         | x :: rest =>
             match childText x, children rest with
             | Some a, Some b => Some (a +:+ b)
             | _, _ => None
             end
         end) elems
  | VObj _ => None
  end.

(** [v.length]: [None] is the TypeError on [null] and [undefined]. *)
Definition lengthOf (v : JsValue) : option JsValue :=
  match v with
  | VUndefined | VNull => None
  | VArr elems => Some (VNum (JsNumber.ofNat (length elems)))
  | VStr s => Some (VNum (JsNumber.ofNat (String.length s)))
  | VObj m => Some (default VUndefined (m !! "length"))
  | VBool _ | VNum _ => Some VUndefined
  end.

Inductive Grid (Card : Type) : Type :=
| NoResultsFound                 (* the "No results found" block *)
| CardGrid (shown : list Card).  (* one card for each result *)
Arguments NoResultsFound {Card}.
Arguments CardGrid {Card} shown.

Record ResultsBody (Card : Type) : Type := mkResultsBody {
  countText : string;             (* [{total}] in the heading *)
  countNoun : string;             (* 'result' or 'results' *)
  enhancedNote : option string;   (* the text of the banner, when it is there *)
  resultGrid : Grid Card;
  pageNav : option Pagination
}.
Arguments mkResultsBody {Card} countText countNoun enhancedNote resultGrid pageNav.
Arguments countText {Card} r.
Arguments countNoun {Card} r.
Arguments enhancedNote {Card} r.
Arguments resultGrid {Card} r.
Arguments pageNav {Card} r.

Inductive Screen (Card : Type) : Type :=
| LoadingScreen                          (* "Loading results..." *)
| ErrorScreen (message : string)
| ResultsScreen (b : ResultsBody Card).
Arguments LoadingScreen {Card}.
Arguments ErrorScreen {Card} message.
Arguments ResultsScreen {Card} b.

Section Screen.
Context {Card : Type}.
(** One result as a card (lines 214-308); [None] when that throws, as
    [result.price.toFixed(2)] does on a result without a numeric price. *)
Variable card : JsValue -> option Card.
(** [ToNumber] of a string, an array or an object. *)
Variable toNumber : JsValue -> number.

(** The operand of [>] and [>=] as a number. *)
Definition numberOf (v : JsValue) : number :=
  match v with
  | VNum n => n
  | VUndefined => NaN
  | VNull => Num 0
  | VBool b => Num (if b then 1 else 0)
  | VStr _ | VArr _ | VObj _ => toNumber v
  end.

(** [total === 1] *)
Definition isOne (v : JsValue) : bool :=
  match v with
  | VNum (Num 1) => true
  | _ => false
  end.

(** [results.length > 0 ? results.map(card) : <NoResults/>] (lines
    209-321); only an array has a [map]. *)
Definition gridOf (results : JsValue) : option (Grid Card) :=
  match lengthOf results with
  | Some len =>
      if JsNumber.gtb (numberOf len) (Num 0) then
        match results with
        | VArr elems => CardGrid <$> mapM card elems
        | _ => None
        end
      else Some NoResultsFound
  | None => None
  end.

(** [enhancedQuery && enhancedQuery !== query && <p>...{enhancedQuery}...</p>]
    (lines 203-207). *)
Definition noteOf (enhanced : JsValue) (q : string) : option (option string) :=
  if Js.truthy enhanced && Js.strictNeString enhanced q
  then Some <$> childText enhanced
  else Some None.

(** [total > 0 && <nav>...</nav>] (lines 324-350). *)
Definition navOf (p : SearchResultsProps) (total len : JsValue) : option Pagination :=
  if JsNumber.gtb (numberOf total) (Num 0) then
    Some {| previousLink :=
              if JsNumber.gtb (page p) (Num 1)
              then Some (pageHref p (JsNumber.sub (page p) (Num 1))) else None;
            currentPage := page p;
            nextLink :=
              if JsNumber.geb (numberOf len) (Num 20)
              then Some (pageHref p (JsNumber.add (page p) (Num 1))) else None |}
  else None.

Definition renderScreen (p : SearchResultsProps) (s : ResultsState)
  : option (Screen Card) :=
  if loading s then Some LoadingScreen
  else if truthyOptString (error s) then Some (ErrorScreen (default "" (error s)))
  else
    match childText (total s), noteOf (enhancedQuery s) (query p),
          gridOf (results s), lengthOf (results s) with
    | Some count, Some note, Some grid, Some len =>
        Some (ResultsScreen
          {| countText := count;
             countNoun := if isOne (total s) then "result" else "results";
             enhancedNote := note;
             resultGrid := grid;
             pageNav := navOf p (total s) len |})
    | _, _, _, _ => None
    end.

End Screen.

(** *** The extraction timer (lines 52-58) and the life of the component *)

Definition extractionDelay : Z := 10000.

Record Mounted : Type := mkMounted {
  clock : Z;                      (* milliseconds since the mount *)
  timer : option Z;               (* due time of the pending setTimeout *)
  world : World ResultsState;
  inflight : list Pending         (* the calls of fetchResults that are suspended *)
}.

(** The fetch effect calls [fetchResults] and does not wait for it, and it
    has no cleanup: a call started by an earlier run of the effect goes on
    when its await settles, whatever has been started since. *)
Inductive Event : Type :=
| Elapse (ms : Z)                       (* time passes *)
| TimerFires                            (* the setTimeout callback runs *)
| EffectRuns (p : SearchResultsProps)   (* the fetch effect runs, and its call
                                           runs to its end before anything else *)
| Unmount                               (* the cleanup: clearTimeout *)
| RequestStarts (p : SearchResultsProps)   (* the fetch effect runs: its call
                                              runs up to its first await *)
| RequestResumes (i : nat).             (* the await of the i-th suspended call
                                           settles, and the call goes on *)

Section Lifecycle.
Variable env : option string.
Variable net : string -> FetchOutcome.

(** The mount: initial state, and [setTimeout(..., 10000)]. *)
Definition mount : Mounted :=
  {| clock := 0;
     timer := Some extractionDelay;
     world := mkWorld initialResultsState [] [];
     inflight := [] |}.

(** A timer callback does not run before its delay has elapsed. *)
Definition step (m : Mounted) (e : Event) : option Mounted :=
  match e with
  | Elapse ms =>
      if 0 <=? ms
      then Some (mkMounted (clock m + ms) (timer m) (world m) (inflight m))
      else None
  | TimerFires =>
      match timer m with
      | Some due =>
          if due <=? clock m
          then Some (mkMounted (clock m) None
                       (snd (setExtractionTimeout true (world m))) (inflight m))
          else None
      | None => None
      end
  | EffectRuns p =>
      Some (mkMounted (clock m) (timer m)
              (snd (fetchResults env net p (world m))) (inflight m))
  | Unmount => Some (mkMounted (clock m) None (world m) (inflight m))
  | RequestStarts p =>
      let '(c, w) := fetchResultsBegin env p (world m) in
      Some (mkMounted (clock m) (timer m) w
              (inflight m ++ match c with
                             | Normal (Some k) => [k]
                             | Normal None | Throw _ => []
                             end))
  | RequestResumes i =>
      match inflight m !! i with
      | Some k =>
          let '(c, w) := fetchResultsResume net k (world m) in
          Some (mkMounted (clock m) (timer m) w
                  (match c with
                   | Normal (Some k') => <[i := k']> (inflight m)
                   | Normal None | Throw _ => delete i (inflight m)
                   end))
      | None => None
      end
  end.

Fixpoint run (m : Mounted) (evs : list Event) : option Mounted :=
  match evs with
  | [] => Some m
  | e :: rest =>
      match step m e with
      | Some m' => run m' rest
      | None => None
      end
  end.

Definition timedOut (m : Mounted) : bool := extractionTimeout (comp (world m)).

End Lifecycle.

(** ** SearchForm.tsx *)

Module SearchForm.

Record State : Type := mkState {
  query : string;
  suggestions : JsValue;
  showSuggestions : bool;
  isLoading : bool
}.

Definition initialState (initialQuery : string) : State :=
  {| query := initialQuery;
     suggestions := VArr [];
     showSuggestions := false;
     isLoading := false |}.

Definition setQuery (q : string) : Eff State unit :=
  Eff.setState (fun s => mkState q (suggestions s) (showSuggestions s) (isLoading s)).
Definition setSuggestions (v : JsValue) : Eff State unit :=
  Eff.setState (fun s => mkState (query s) v (showSuggestions s) (isLoading s)).
Definition setShowSuggestions (b : bool) : Eff State unit :=
  Eff.setState (fun s => mkState (query s) (suggestions s) b (isLoading s)).
Definition setIsLoading (b : bool) : Eff State unit :=
  Eff.setState (fun s => mkState (query s) (suggestions s) (showSuggestions s) b).

(** The [query] a handler sees: the state value of the render that
    created it. *)
Definition theQuery : Eff State string := fun w => (Normal (query (comp w)), w).

Definition mockSuggestions (q : string) : list string :=
  [ q +:+ " vintage postcards";
    q +:+ " antique postcards";
    q +:+ " 1950s postcards";
    q +:+ " black and white postcards";
    q +:+ " color postcards" ].

Definition generateMockSuggestions : Eff State unit :=
  q <- theQuery ;;
  if (String.length q <? 2)%nat then Eff.ret tt
  else setSuggestions (Js.strings (mockSuggestions q)).

Definition suggestUrl (env : option string) (q : string) : string :=
  apiBase env +:+ "/api/suggest?query=" +:+ Url.encodeURIComponent q.

Section Handlers.
Variable env : option string.
Variable net : string -> FetchOutcome.

Definition fetchSuggestions : Eff State unit :=
  q <- theQuery ;;
  if (String.length q <? 2)%nat then setSuggestions (VArr [])
  else
    setIsLoading true ;;;
    Eff.tryCatchFinally
      (let apiUrl := suggestUrl env q in
       response <- Eff.fetch net apiUrl ;;
       if ok response then
         data <- Eff.json response ;;
         s <- Eff.prop data "suggestions" ;;
         setSuggestions (Js.or s (VArr []))
       else
         setSuggestions (VArr []) ;;;
         generateMockSuggestions)
      (fun err =>
         setSuggestions (VArr []) ;;;
         generateMockSuggestions)
      (setIsLoading false).

End Handlers.

Definition handleSubmit : Eff State unit :=
  q <- theQuery ;;
  if JsString.truthy (JsString.trim q) then
    Eff.push ("/search?query=" +:+ Url.encodeURIComponent (JsString.trim q)) ;;;
    setShowSuggestions false
  else Eff.ret tt.

Definition handleSuggestionClick (suggestion : string) : Eff State unit :=
  setQuery suggestion ;;;
  Eff.push ("/search?query=" +:+ Url.encodeURIComponent suggestion) ;;;
  setShowSuggestions false.

End SearchForm.

(** ** FilterPanel.tsx *)

Module FilterPanel.

Record Props : Type := mkProps {
  query : string;
  yearMin : option number;
  yearMax : option number;
  location : option string;
  priceMin : option number;
  priceMax : option number;
  sortBy : option string
}.

Record State : Type := mkState {
  yearMinValue : string;
  yearMaxValue : string;
  locationValue : string;
  priceMinValue : string;
  priceMaxValue : string;
  sortByValue : string
}.

(** [n?.toString() || ''] *)
Definition numberField (n : option number) : string :=
  match n with
  | Some x => if JsString.truthy (JsNumber.toString x) then JsNumber.toString x else ""
  | None => ""
  end.

Definition initialState (p : Props) : State :=
  {| yearMinValue := numberField (yearMin p);
     yearMaxValue := numberField (yearMax p);
     locationValue :=
       match location p with
       | Some l => if JsString.truthy l then l else ""
       | None => ""
       end;
     priceMinValue := numberField (priceMin p);
     priceMaxValue := numberField (priceMax p);
     sortByValue := default "relevance" (sortBy p) |}.

Definition setYearMinValue (v : string) : Eff State unit :=
  Eff.setState (fun s => mkState v (yearMaxValue s) (locationValue s)
                           (priceMinValue s) (priceMaxValue s) (sortByValue s)).
Definition setYearMaxValue (v : string) : Eff State unit :=
  Eff.setState (fun s => mkState (yearMinValue s) v (locationValue s)
                           (priceMinValue s) (priceMaxValue s) (sortByValue s)).
Definition setLocationValue (v : string) : Eff State unit :=
  Eff.setState (fun s => mkState (yearMinValue s) (yearMaxValue s) v
                           (priceMinValue s) (priceMaxValue s) (sortByValue s)).
Definition setPriceMinValue (v : string) : Eff State unit :=
  Eff.setState (fun s => mkState (yearMinValue s) (yearMaxValue s) (locationValue s)
                           v (priceMaxValue s) (sortByValue s)).
Definition setPriceMaxValue (v : string) : Eff State unit :=
  Eff.setState (fun s => mkState (yearMinValue s) (yearMaxValue s) (locationValue s)
                           (priceMinValue s) v (sortByValue s)).
Definition setSortByValue (v : string) : Eff State unit :=
  Eff.setState (fun s => mkState (yearMinValue s) (yearMaxValue s) (locationValue s)
                           (priceMinValue s) (priceMaxValue s) v).

(** The parameters [applyFilters] builds (lines 38-46); every name is
    set once on a fresh object, where [set] appends. *)
Definition filterParams (p : Props) (s : State) : URLSearchParams.t :=
  let params := URLSearchParams.empty in
  let params := URLSearchParams.append "query" (query p) params in
  let params := appendIf (JsString.truthy (yearMinValue s)) "year_min" (yearMinValue s) params in
  let params := appendIf (JsString.truthy (yearMaxValue s)) "year_max" (yearMaxValue s) params in
  let params := appendIf (JsString.truthy (locationValue s)) "location" (locationValue s) params in
  let params := appendIf (JsString.truthy (priceMinValue s)) "price_min" (priceMinValue s) params in
  let params := appendIf (JsString.truthy (priceMaxValue s)) "price_max" (priceMaxValue s) params in
  appendIf (JsString.truthy (sortByValue s)) "sort_by" (sortByValue s) params.

(** The chips under "Active Filters:" (lines 181-212), one for each
    filter field that is not empty. *)
Definition activeFilterChips (s : State) : list string :=
  (if JsString.truthy (yearMinValue s) then ["Year Min: " +:+ yearMinValue s] else [])
  ++ (if JsString.truthy (yearMaxValue s) then ["Year Max: " +:+ yearMaxValue s] else [])
  ++ (if JsString.truthy (locationValue s) then ["Location: " +:+ locationValue s] else [])
  ++ (if JsString.truthy (priceMinValue s) then ["Price Min: $" +:+ priceMinValue s] else [])
  ++ (if JsString.truthy (priceMaxValue s) then ["Price Max: $" +:+ priceMaxValue s] else []).

Definition applyFilters (p : Props) : Eff State unit :=
  fun w =>
    Eff.push ("/search?" +:+ URLSearchParams.toString (filterParams p (comp w))) w.

Definition resetUrl (p : Props) : string :=
  "/search?query=" +:+ Url.encodeURIComponent (query p).

Definition resetFilters (p : Props) : Eff State unit :=
  setYearMinValue "" ;;;
  setYearMaxValue "" ;;;
  setLocationValue "" ;;;
  setPriceMinValue "" ;;;
  setPriceMaxValue "" ;;;
  setSortByValue "relevance" ;;;
  Eff.push (resetUrl p).

End FilterPanel.

(** ** app/search/page.tsx *)

(** A value of [searchParams]: [string | string[]]; a name that is missing
    from the map is [undefined]. *)
Inductive ParamValue : Type :=
| PString (s : string)
| PArray (l : list string).

Inductive PageView : Type :=
| PromptScreen (initialQuery : string)
| ResultsLayout (initialQuery : string) (filterPanel : FilterPanel.Props)
                (searchResults : SearchResultsProps).

Section SearchPage.
(** The built-ins [parseInt] and [parseFloat]. *)
Variable parseInt : string -> number.
Variable parseFloat : string -> number.

(** [typeof params.k === 'string' ? params.k : undefined] *)
Definition stringParam (params : gmap string ParamValue) (k : string) : option string :=
  match params !! k with
  | Some (PString s) => Some s
  | Some (PArray _) | None => None
  end.

(** The constants of lines 16-23. *)
Definition pageProps (params : gmap string ParamValue) : SearchResultsProps :=
  {| query := default "" (stringParam params "query");
     page :=
       match stringParam params "page" with
       | Some s => parseInt s
       | None => Num 1
       end;
     yearMin := parseInt <$> stringParam params "year_min";
     yearMax := parseInt <$> stringParam params "year_max";
     location := stringParam params "location";
     priceMin := parseFloat <$> stringParam params "price_min";
     priceMax := parseFloat <$> stringParam params "price_max";
     sortBy := Some (default "relevance" (stringParam params "sort_by")) |}.

Definition filterPropsOf (p : SearchResultsProps) : FilterPanel.Props :=
  {| FilterPanel.query := query p;
     FilterPanel.yearMin := yearMin p;
     FilterPanel.yearMax := yearMax p;
     FilterPanel.location := location p;
     FilterPanel.priceMin := priceMin p;
     FilterPanel.priceMax := priceMax p;
     FilterPanel.sortBy := sortBy p |}.

Definition SearchPage (params : gmap string ParamValue) : PageView :=
  let p := pageProps params in
  if JsString.truthy (query p)
  then ResultsLayout (query p) (filterPropsOf p) p
  else PromptScreen (query p).

End SearchPage.

(** The search effect a page mounts: the [fetchResults] of its
    SearchResults component, when the page has one. *)
Definition searchEffect (env : option string) (net : string -> FetchOutcome)
    (v : PageView) : option (Eff ResultsState unit) :=
  match v with
  | PromptScreen _ => None
  | ResultsLayout _ _ p => Some (fetchResults env net p)
  end.

(** * The search form in use (SearchForm.tsx) *)

(** The delay of the debounce timer (line 89). *)
Definition debounceDelay : Z := 300.

Record FormMounted : Type := mkFormMounted {
  formClock : Z;                  (* milliseconds since the mount *)
  debounce : option Z;            (* due time of the pending setTimeout *)
  formWorld : World SearchForm.State
}.

Inductive FormEvent : Type :=
| FormElapse (ms : Z)             (* time passes *)
| Typed (value : string)          (* onChange of the input *)
| Focused                         (* onFocus of the input *)
| DebounceFires                   (* the timer callback: fetchSuggestions *)
| Submitted                       (* onSubmit of the form *)
| SuggestionClicked (s : string)  (* onClick of a suggestion *)
| ClickedOutside                  (* mousedown outside the container *)
| FormUnmount.                    (* the cleanups *)

(** The suggestion effect has [query] as its only dependency (line 92):
    when a render changes the query, the cleanup clears the pending timer
    and the effect sets a new one; otherwise the timer is left alone. *)
Definition rearm (clock : Z) (pending : option Z) (before after : string) : option Z :=
  if String.eqb before after then pending else Some (clock + debounceDelay).

(** The dropdown (line 151): its items when it is shown.  [suggestions]
    is declared as an array, and the dropdown is read on such states. *)
Definition dropdown (s : SearchForm.State) : option (list JsValue) :=
  if SearchForm.showSuggestions s then
    match SearchForm.suggestions s with
    | VArr (item :: items) => Some (item :: items)
    | _ => None
    end
  else None.

Section FormLife.
Variable env : option string.
Variable net : string -> FetchOutcome.

(** The mount: the effect runs once, for the initial query. *)
Definition mountForm (initialQuery : string) : FormMounted :=
  {| formClock := 0;
     debounce := Some debounceDelay;
     formWorld := mkWorld (SearchForm.initialState initialQuery) [] [] |}.

Definition formStep (m : FormMounted) (e : FormEvent) : option FormMounted :=
  let w := formWorld m in
  let q := SearchForm.query (comp w) in
  match e with
  | FormElapse ms =>
      if 0 <=? ms then Some (mkFormMounted (formClock m + ms) (debounce m) w) else None
  | Typed value =>
      Some (mkFormMounted (formClock m)
              (rearm (formClock m) (debounce m) q value)
              (snd ((SearchForm.setQuery value ;;;
                     SearchForm.setShowSuggestions true) w)))
  | Focused =>
      Some (mkFormMounted (formClock m) (debounce m)
              (snd (SearchForm.setShowSuggestions true w)))
  | DebounceFires =>
      match debounce m with
      | Some due =>
          if due <=? formClock m
          then Some (mkFormMounted (formClock m) None
                       (snd (SearchForm.fetchSuggestions env net w)))
          else None
      | None => None
      end
  | Submitted =>
      Some (mkFormMounted (formClock m) (debounce m) (snd (SearchForm.handleSubmit w)))
  | SuggestionClicked s =>
      Some (mkFormMounted (formClock m)
              (rearm (formClock m) (debounce m) q s)
              (snd (SearchForm.handleSuggestionClick s w)))
  | ClickedOutside =>
      Some (mkFormMounted (formClock m) (debounce m)
              (snd (SearchForm.setShowSuggestions false w)))
  | FormUnmount => Some (mkFormMounted (formClock m) None w)
  end.

Fixpoint formRun (m : FormMounted) (evs : list FormEvent) : option FormMounted :=
  match evs with
  | [] => Some m
  | e :: rest =>
      match formStep m e with
      | Some m' => formRun m' rest
      | None => None
      end
  end.

End FormLife.

(** The time that passes in a list of events. *)
Fixpoint elapsed (evs : list FormEvent) : Z :=
  match evs with
  | [] => 0
  | FormElapse ms :: rest => ms + elapsed rest
  | _ :: rest => elapsed rest
  end.

(** A form event that navigates. *)
Definition navigates (e : FormEvent) : bool :=
  match e with
  | Submitted | SuggestionClicked _ => true
  | _ => false
  end.

(** * The sort selector of the filter panel (FilterPanel.tsx, lines 66-81) *)

(** The parameters [handleSortChange] builds: the fields as [applyFilters]
    reads them, and [sort_by] set to the chosen value whatever it is. *)
Definition sortParams (p : FilterPanel.Props) (s : FilterPanel.State) (value : string)
  : URLSearchParams.t :=
  let params := URLSearchParams.empty in
  let params := URLSearchParams.append "query" (FilterPanel.query p) params in
  let params := appendIf (JsString.truthy (FilterPanel.yearMinValue s)) "year_min"
                  (FilterPanel.yearMinValue s) params in
  let params := appendIf (JsString.truthy (FilterPanel.yearMaxValue s)) "year_max"
                  (FilterPanel.yearMaxValue s) params in
  let params := appendIf (JsString.truthy (FilterPanel.locationValue s)) "location"
                  (FilterPanel.locationValue s) params in
  let params := appendIf (JsString.truthy (FilterPanel.priceMinValue s)) "price_min"
                  (FilterPanel.priceMinValue s) params in
  let params := appendIf (JsString.truthy (FilterPanel.priceMaxValue s)) "price_max"
                  (FilterPanel.priceMaxValue s) params in
  URLSearchParams.append "sort_by" value params.

Definition handleSortChange (p : FilterPanel.Props) (value : string)
  : Eff FilterPanel.State unit :=
  fun w =>
    (FilterPanel.setSortByValue value ;;;
     Eff.push ("/search?" +:+ URLSearchParams.toString (sortParams p (comp w) value))) w.

(** * Reading a query string back *)

(** [name=value] pairs joined with [&]. *)
Fixpoint joinPairs (ps : list (string * string)) : string :=
  match ps with
  | [] => EmptyString
  | [(k, v)] => k +:+ "=" +:+ v
  | (k, v) :: rest => k +:+ "=" +:+ v +:+ "&" +:+ joinPairs rest
  end.

(** The pairs of a query string, as written: what [Url.queryPairs] does
    with the part of a URL after its first ?. *)
Definition parseSearch (q : string) : list (string * string) :=
  map (fun piece => let '(name, value) := Url.cutAt "=" piece in
                    (name, default EmptyString value))
      (List.filter JsString.truthy (Url.splitOn "&" (fst (Url.cutAt "#" q)))).

Fixpoint plusToSpace (s : string) : string :=
  match s with
  | EmptyString => EmptyString
  | String c s' => String (if Ascii.eqb c "+" then " "%char else c) (plusToSpace s')
  end.

(** Decoding one name or value of an application/x-www-form-urlencoded
    string: + stands for a space, then the escapes are decoded.  [None]
    where [Url.decodeURIComponent] is. *)
Definition formDecode (s : string) : option string :=
  Url.decodeURIComponent (plusToSpace s).

Fixpoint decodePairs (decode : string -> option string) (ps : list (string * string))
  : option (list (string * string)) :=
  match ps with
  | [] => Some []
  | (k, v) :: rest =>
      match decode k, decode v, decodePairs decode rest with
      | Some k', Some v', Some rest' => Some ((k', v') :: rest')
      | _, _, _ => None
      end
  end.

(** A code unit that does not delimit anything in a query string. *)
Definition isPlainUnit (c : ascii) : bool :=
  negb (Ascii.eqb c "&") && negb (Ascii.eqb c "=") && negb (Ascii.eqb c "#").

Definition isPlain (s : string) : bool := JsString.allUnits isPlainUnit s.

(** The pairs whose names and values hold no & = #. *)
Definition plainPairs (ps : list (string * string)) : Prop :=
  Forall (fun kv => isPlain (fst kv) = true /\ isPlain (snd kv) = true) ps.

(** A pair as [URLSearchParams.toString] writes it. *)
Definition encodePair (kv : string * string) : string * string :=
  (Url.formEncode (fst kv), Url.formEncode (snd kv)).

(** The value of the first pair named [name]. *)
Fixpoint lookupPair (name : string) (ps : list (string * string)) : option string :=
  match ps with
  | [] => None
  | (k, v) :: rest => if String.eqb k name then Some v else lookupPair name rest
  end.

(** * From a URL to the page's [searchParams] *)

(** The [searchParams] a page is given for the decoded pairs of its URL: a
    name that occurs once has its value, a name that occurs more than once
    has the array of its values (the type at page.tsx line 11). *)
Definition addParam (m : gmap string ParamValue) (kv : string * string)
  : gmap string ParamValue :=
  match m !! fst kv with
  | None => <[fst kv := PString (snd kv)]> m
  | Some (PString s) => <[fst kv := PArray [s; snd kv]]> m
  | Some (PArray l) => <[fst kv := PArray (l ++ [snd kv])]> m
  end.

Definition paramsOfPairs (ps : list (string * string)) : gmap string ParamValue :=
  fold_left addParam ps ∅.

Definition searchParamsOfUrl (url : string) : option (gmap string ParamValue) :=
  paramsOfPairs <$> decodePairs formDecode (Url.queryPairs url).

(** The props of a page with a query and nothing else. *)
Definition plainProps (q : string) : SearchResultsProps :=
  {| query := q; page := Num 1; yearMin := None; yearMax := None;
     location := None; priceMin := None; priceMax := None;
     sortBy := Some "relevance" |}.

Definition isSingle (v : ParamValue) : bool :=
  match v with
  | PString _ => true
  | PArray _ => false
  end.

(** * Vocabulary of the statements *)

(** The body a search or suggestion request succeeds with: the response is
    OK, its body parses, and the parsed value has properties to read. *)
Definition successBody (o : FetchOutcome) : option JsValue :=
  match o with
  | Rejected => None
  | Resolved r =>
      if ok r then
        match body r with
        | Some VUndefined | Some VNull | None => None
        | Some data => Some data
        end
      else None
  end.

(** [data.k] where the read cannot throw. *)
Definition field (data : JsValue) (k : string) : JsValue :=
  default VUndefined (Js.getProp data k).

(** The state and logs [fetchResults] ends with, by outcome. *)
Definition afterFetch (env : option string) (net : string -> FetchOutcome)
    (p : SearchResultsProps) (w : World ResultsState) : World ResultsState :=
  let s := comp w in
  let sent := requests w ++ [searchUrl env p] in
  match successBody (net (searchUrl env p)) with
  | Some data =>
      mkWorld
        {| results := Js.or (field data "results") (VArr []);
           total := Js.or (field data "total") (VNum (Num 0));
           loading := false;
           error := None;
           enhancedQuery := Js.or (field data "enhanced_query") VNull;
           extractionTimeout := extractionTimeout s |}
        sent (pushed w)
  | None =>
      mkWorld
        {| results := VArr [];
           total := VNum (Num 0);
           loading := false;
           error := Some fetchFailedMessage;
           enhancedQuery := enhancedQuery s;
           extractionTimeout := extractionTimeout s |}
        sent (pushed w)
  end.

(** Some phrase of the list occurs in the lowercased text. *)
Definition mentionsNoText (s : string) : Prop :=
  exists phrase, In phrase noTextPhrases
                 /\ JsString.includes (JsString.toLowerCase s) phrase = true.

(** The timer is the one set at the mount, and the flag is up only after
    its delay. *)
Definition timerInv (m : Mounted) : Prop :=
  0 <= clock m
  /\ (timer m = None \/ timer m = Some extractionDelay)
  /\ (timedOut m = true -> extractionDelay <= clock m).

(** The state and logs a call of [fetchResults] leaves at its first
    await, after its [catch] block has run, and after it has read the
    body [data]. *)
Definition afterBegin (env : option string) (p : SearchResultsProps)
    (w : World ResultsState) : World ResultsState :=
  let s := comp w in
  mkWorld
    {| results := results s;
       total := total s;
       loading := true;
       error := None;
       enhancedQuery := enhancedQuery s;
       extractionTimeout := extractionTimeout s |}
    (requests w ++ [searchUrl env p]) (pushed w).

Definition afterCatch (w : World ResultsState) : World ResultsState :=
  let s := comp w in
  mkWorld
    {| results := VArr [];
       total := VNum (Num 0);
       loading := false;
       error := Some fetchFailedMessage;
       enhancedQuery := enhancedQuery s;
       extractionTimeout := extractionTimeout s |}
    (requests w) (pushed w).

Definition afterBody (data : JsValue) (w : World ResultsState) : World ResultsState :=
  let s := comp w in
  mkWorld
    {| results := Js.or (field data "results") (VArr []);
       total := Js.or (field data "total") (VNum (Num 0));
       loading := false;
       error := error s;
       enhancedQuery := Js.or (field data "enhanced_query") VNull;
       extractionTimeout := extractionTimeout s |}
    (requests w) (pushed w).

(** The body of a response, when it parses to a value with properties to
    read. *)
Definition readable (r : HttpResponse) : option JsValue :=
  match body r with
  | Some VUndefined | Some VNull | None => None
  | Some data => Some data
  end.

(** Where a suspended call is after it has gone on, and what it has left. *)
Definition resumed (net : string -> FetchOutcome) (k : Pending)
    (w : World ResultsState) : option Pending * World ResultsState :=
  match k with
  | AwaitingFetch url =>
      match net url with
      | Rejected => (None, afterCatch w)
      | Resolved r => if ok r then (Some (AwaitingJson r), w) else (None, afterCatch w)
      end
  | AwaitingJson r =>
      match readable r with
      | Some data => (None, afterBody data w)
      | None => (None, afterCatch w)
      end
  end.

(** A suspended call that fails when it goes on: the fetch is rejected,
    the response is not OK, or the body cannot be read. *)
Definition endsInCatch (net : string -> FetchOutcome) (k : Pending) : bool :=
  match k with
  | AwaitingFetch url =>
      match net url with
      | Rejected => true
      | Resolved r => negb (ok r)
      end
  | AwaitingJson r =>
      match readable r with
      | Some _ => false
      | None => true
      end
  end.

(** A suspended call that ends when it goes on. *)
Definition endsCall (net : string -> FetchOutcome) (k : Pending) : bool :=
  match k with
  | AwaitingFetch _ => endsInCatch net k
  | AwaitingJson _ => true
  end.

(** An event in which a search request fails, from the state [m] it
    finds. *)
Definition failing (env : option string) (net : string -> FetchOutcome)
    (m : Mounted) (e : Event) : bool :=
  match e with
  | RequestResumes i =>
      match inflight m !! i with
      | Some k => endsInCatch net k
      | None => false
      end
  | EffectRuns p =>
      JsString.truthy (query p)
      && match successBody (net (searchUrl env p)) with
         | Some _ => false
         | None => true
         end
  | Elapse _ | TimerFires | Unmount | RequestStarts _ => false
  end.

(** A stretch of a run in which no search request fails. *)
Fixpoint calm (env : option string) (net : string -> FetchOutcome)
    (m : Mounted) (evs : list Event) : bool :=
  match evs with
  | [] => true
  | e :: rest =>
      negb (failing env net m e)
      && match step env net m e with
         | Some m' => calm env net m' rest
         | None => true
         end
  end.

(** Nothing has been sent: nothing is in flight and the initial loading
    flag is still up.  The loading flag is up: nothing has been sent yet,
    or a call is in flight. *)
Definition loadingInv (m : Mounted) : Prop :=
  (requests (world m) = [] -> inflight m = [] /\ loading (comp (world m)) = true)
  /\ (loading (comp (world m)) = true -> requests (world m) = [] \/ inflight m <> []).

(** The delay of the pending timer has elapsed and its callback has not
    run yet. *)
Definition overdue (m : Mounted) : bool :=
  match timer m with
  | Some due => due <? clock m
  | None => false
  end.

(** A run whose timer callback is never late: no state of the run is
    overdue. *)
Fixpoint punctual (env : option string) (net : string -> FetchOutcome)
    (m : Mounted) (evs : list Event) : bool :=
  negb (overdue m)
  && match evs with
     | [] => true
     | e :: rest =>
         match step env net m e with
         | Some m' => punctual env net m' rest
         | None => true
         end
     end.

(** [Number.isSafeInteger]: the integers JavaScript adds, subtracts and
    writes in digits exactly. *)
Definition isSafeInteger (n : number) : bool :=
  match n with
  | NaN => false
  | Num z => Z.abs z <? 2 ^ 53
  end.

Definition isSafeOpt (n : option number) : bool :=
  match n with
  | Some x => isSafeInteger x
  | None => true
  end.

(** What [encodeURIComponent] writes: unreserved characters and percent
    signs. *)
Definition isEncoded (c : ascii) : bool := Url.isUnreserved c || Ascii.eqb c "%".



(** * Example inputs *)

Definition demoProps : SearchResultsProps :=
  {| query := "paris"; page := Num 1; yearMin := None; yearMax := None;
     location := None; priceMin := None; priceMax := None;
     sortBy := Some "relevance" |}.

Definition offline : string -> FetchOutcome := fun _ => Rejected.

(** A run: nine seconds pass, a search completes, two more seconds pass,
    the timer fires. *)
Definition demoRun : list Event :=
  [Elapse 9000; EffectRuns demoProps; Elapse 2000; TimerFires].

(** A run whose callback is not late: a search completes after nine
    seconds, and the delay of the timer has just elapsed. *)
Definition dueRun : list Event :=
  [Elapse 9000; EffectRuns demoProps; Elapse 1000].

Definition serverDown : string -> FetchOutcome :=
  fun _ => Resolved (mkResponse false (Num 500) "Internal Server Error" None).

(** A result of the declared type [SearchResult]. *)
Definition sampleResult : JsValue :=
  VObj (<["source" := VStr "ebay"]>
        (<["title" := VStr "Rome, the Colosseum"]>
         (<["image_url" := VStr "https://example.com/front.jpg"]>
          (<["price" := VNum (Num 12)]>
           (<["currency" := VStr "USD"]>
            (<["link" := VStr "https://example.com/item/1"]>
             (<["image_text" := VStr "Greetings from Rome"]> ∅))))))).

(** The card of a result of the declared type, as its text panels: the
    required properties are strings and a number, the optional ones are
    absent or of their type.  Any other value is left out ([None]). *)
Definition isStringProp (m : gmap string JsValue) (k : string) : bool :=
  match m !! k with
  | Some (VStr _) => true
  | _ => false
  end.

Definition isOptStringProp (m : gmap string JsValue) (k : string) : bool :=
  match m !! k with
  | Some (VStr _) | None => true
  | Some _ => false
  end.

Definition optStringsProp (m : gmap string JsValue) (k : string)
  : option (option (list string)) :=
  match m !! k with
  | None => Some None
  | Some (VArr elems) =>
      Some <$> mapM (fun x => match x with VStr t => Some t | _ => None end) elems
  | Some _ => None
  end.

Definition typedCard (timeout : bool) (v : JsValue) : option (list (string * TextPanel)) :=
  match v with
  | VObj m =>
      if forallb (isStringProp m) ["source"; "title"; "image_url"; "currency"; "link"]
         && forallb (isOptStringProp m)
              ["description"; "date"; "location"; "affiliate_link"; "image_text"]
         && match m !! "price" with Some (VNum _) => true | _ => false end
      then
        match optStringsProp m "additional_images",
              optStringsProp m "additional_image_text" with
        | Some images, Some texts =>
            Some (cardTextPanels timeout
                    {| image_text := match m !! "image_text" with
                                     | Some (VStr t) => TStr t
                                     | _ => TUndefined
                                     end;
                       additional_images := images;
                       additional_image_text := texts |})
        | _, _ => None
        end
      else None
  | _ => None
  end.

(** Two searches in a row, on a network that rejects the first and
    answers the second with one result. *)
Definition romeProps : SearchResultsProps :=
  {| query := "rome"; page := Num 1; yearMin := None; yearMax := None;
     location := None; priceMin := None; priceMax := None;
     sortBy := Some "relevance" |}.

Definition romeBody : JsValue :=
  VObj (<["results" := VArr [sampleResult]]> (<["total" := VNum (Num 1)]> ∅)).

Definition parisFails : string -> FetchOutcome :=
  fun url =>
    if String.eqb url (searchUrl None demoProps) then Rejected
    else Resolved (mkResponse true (Num 200) "OK" (Some romeBody)).

(** The search for "rome" starts while the search for "paris" is in
    flight; the first fails, then the second reads its response and its
    body. *)
Definition overlapRun : list Event :=
  [RequestStarts demoProps; RequestStarts romeProps;
   RequestResumes 0; RequestResumes 0; RequestResumes 0].

(** The component after a search for "paris" that has failed, and the
    search for "rome" made from there. *)
Definition failedMount : Mounted :=
  {| clock := 0;
     timer := Some extractionDelay;
     world := afterCatch (afterBegin None demoProps (mkWorld initialResultsState [] []));
     inflight := [] |}.

Definition romeRun : list Event :=
  [RequestStarts romeProps; RequestResumes 0; RequestResumes 0].

(** A body with one result, no total and an empty enhanced query. *)
Definition sparseBody : JsValue :=
  VObj (<["results" := VArr [VObj ∅]]> (<["enhanced_query" := VStr ""]> ∅)).

Definition sparseNet : string -> FetchOutcome :=
  fun _ => Resolved (mkResponse true (Num 200) "OK" (Some sparseBody)).





Definition typedParis : World SearchForm.State :=
  mkWorld (SearchForm.mkState "paris" (VArr []) true false) [] [].

Definition typedPadded : World SearchForm.State :=
  mkWorld (SearchForm.mkState "  New York 1950s " (VArr []) true false) [] [].

(** What [parseInt] and [parseFloat] both return for a non-empty run of
    decimal digits, enough for the page numbers, years and prices of the
    examples; any other string is sent to NaN here. *)
Fixpoint digitsValue (acc : Z) (s : string) : option Z :=
  match s with
  | EmptyString => Some acc
  | String c s' =>
      let n := JsString.code c in
      if ((48 <=? n) && (n <=? 57))%N
      then digitsValue (10 * acc + Z.of_N (n - 48)) s'
      else None
  end.

Definition parseDigits (s : string) : number :=
  match s with
  | EmptyString => NaN
  | _ => match digitsValue 0 s with Some z => Num z | None => NaN end
  end.

(** [ToNumber] where the examples need it: on a string of decimal digits. *)
Definition digitsToNumber (v : JsValue) : number :=
  match v with
  | VStr t => parseDigits t
  | _ => NaN
  end.

(** The page /search?query=paris&price_min=0: a full first page of 40
    results with the minimum price 0. *)
Definition zeroPriceParams : gmap string ParamValue :=
  <["query" := PString "paris"]> (<["price_min" := PString "0"]> ∅).

Definition zeroPriceProps : SearchResultsProps :=
  {| query := "paris"; page := Num 1; yearMin := None; yearMax := None;
     location := None; priceMin := Some (Num 0); priceMax := None;
     sortBy := Some "relevance" |}.

Definition fullFirstPage : ResultsState :=
  {| results := VArr (replicate 20 (VObj ∅));
     total := VNum (Num 40);
     loading := false;
     error := None;
     enhancedQuery := VNull;
     extractionTimeout := false |}.

Definition nextOfZeroPrice : string := "/search?query=paris&page=2&sort_by=relevance".

(** An event after which no timer is pending. *)
Definition disarmsTimer (e : Event) : bool :=
  match e with
  | TimerFires | Unmount => true
  | Elapse _ | EffectRuns _ | RequestStarts _ | RequestResumes _ => false
  end.

(** A result whose three texts are all missing, with one more image. *)
Definition bareResult : SearchResult :=
  {| image_text := TUndefined;
     additional_images := Some ["https://example.com/back.jpg"];
     additional_image_text := None |}.

(** The request a form event sends, and the navigation it makes, from the
    state [s] it finds. *)
Definition sentBy (env : option string) (s : SearchForm.State) (e : FormEvent)
  : list string :=
  match e with
  | DebounceFires =>
      if (2 <=? String.length (SearchForm.query s))%nat
      then [SearchForm.suggestUrl env (SearchForm.query s)] else []
  | _ => []
  end.

Definition pushedBy (s : SearchForm.State) (e : FormEvent) : list string :=
  match e with
  | Submitted =>
      if JsString.truthy (JsString.trim (SearchForm.query s))
      then ["/search?query=" +:+ Url.encodeURIComponent (JsString.trim (SearchForm.query s))]
      else []
  | SuggestionClicked v => ["/search?query=" +:+ Url.encodeURIComponent v]
  | _ => []
  end.

(** A suggestion request for a query of at least two code units. *)
Definition isSuggestRequest (env : option string) (url : string) : Prop :=
  exists q, (2 <= String.length q)%nat /\ url = SearchForm.suggestUrl env q.

(** A navigation to the search page with the single parameter [query],
    whose value reads back as what was encoded. *)
Definition isSearchNavigation (url : string) : Prop :=
  exists v, url = "/search?query=" +:+ Url.encodeURIComponent v
            /\ Url.queryPairs url = [("query", Url.encodeURIComponent v)]
            /\ formDecode (Url.encodeURIComponent v) = Some v.

Definition firesDebounce (e : FormEvent) : bool :=
  match e with
  | DebounceFires => true
  | _ => false
  end.

(** An event that opens the suggestion list. *)
Definition opensList (e : FormEvent) : bool :=
  match e with
  | Typed _ | Focused => true
  | _ => false
  end.

(** An event that closes the suggestion list from the state [s]. *)
Definition closesList (s : SearchForm.State) (e : FormEvent) : bool :=
  match e with
  | ClickedOutside | SuggestionClicked _ => true
  | Submitted => JsString.truthy (JsString.trim (SearchForm.query s))
  | _ => false
  end.

(** An answer that is OK but is not JSON. *)
Definition garbledNet : string -> FetchOutcome :=
  fun _ => Resolved (mkResponse true (Num 200) "OK" None).

(** The filter fields of a panel, as optional texts. *)
Definition fieldValue (v : string) : option string :=
  if JsString.truthy v then Some v else None.

(** A panel with a year range and a place typed in. *)
Definition typedFilters : World FilterPanel.State :=
  mkWorld (FilterPanel.mkState "1900" "1950" "New York" "" "" "price_asc") [] [].

Definition parisPanel : FilterPanel.Props :=
  FilterPanel.mkProps "paris" None None None None None None.

(** What a page link keeps of an optional filter: a number that is not 0
    or NaN, a text that is not empty. *)
Definition keepNumber (v : option number) : option number :=
  if truthyOptNumber v then v else None.

Definition keepText (v : option string) : option string :=
  if truthyOptString v then v else None.

Definition numberPair (name : string) (v : option number) : list (string * string) :=
  match keepNumber v with
  | Some n => [(name, JsNumber.toString n)]
  | None => []
  end.

Definition textPair (name : string) (v : option string) : list (string * string) :=
  match keepText v with
  | Some l => [(name, l)]
  | None => []
  end.

(** The parameters a page link carries for the page number [target]. *)
Definition linkPairs (p : SearchResultsProps) (target : number) : list (string * string) :=
  [("query", query p); ("page", JsNumber.toString target)]
  ++ numberPair "year_min" (yearMin p)
  ++ numberPair "year_max" (yearMax p)
  ++ textPair "location" (location p)
  ++ numberPair "price_min" (priceMin p)
  ++ numberPair "price_max" (priceMax p)
  ++ textPair "sort_by" (Some (sortByOf p)).

(** A pair with its value percent-encoded. *)
Definition encodeValue (kv : string * string) : string * string :=
  (fst kv, Url.encodeURIComponent (snd kv)).

(** [&name=value] for each pair. *)
Fixpoint ampPairs (ps : list (string * string)) : string :=
  match ps with
  | [] => EmptyString
  | (k, v) :: rest => "&" +:+ k +:+ "=" +:+ v +:+ ampPairs rest
  end.

(** A page of results between 1900 and 1950, from 5 dollars. *)
Definition filteredProps : SearchResultsProps :=
  {| query := "new york"; page := Num 2; yearMin := Some (Num 1900);
     yearMax := Some (Num 1950); location := Some "Coney Island";
     priceMin := Some (Num 5); priceMax := None; sortBy := Some "price_asc" |}.


(** A full page of twenty results of the declared type, out of 40. *)
Definition typedFullPage : ResultsState :=
  {| results := VArr (replicate 20 sampleResult);
     total := VNum (Num 40);
     loading := false;
     error := None;
     enhancedQuery := VNull;
     extractionTimeout := false |}.


(** * Properties *)

(** ** Strings *)

Section StringFacts.
Import JsString.

Lemma startsWith_spec (s p : string) :
  startsWith s p = true <-> exists rest, s = p +:+ rest.
Proof.
  revert s. induction p as [|b p IH]; intros s; simpl.
  - split; [intros _; now exists s | reflexivity].
  - destruct s as [|a s].
    + split; [discriminate | intros [rest H]; discriminate H].
    + rewrite andb_true_iff, IH. split.
      * intros [Hab [rest ->]]. apply Ascii.eqb_eq in Hab. subst. now exists rest.
      * intros [rest H]. injection H as -> ->. split; [apply Ascii.eqb_refl | now exists rest].
Qed.

(** [includes] is the substring test. *)
Lemma includes_spec (s p : string) :
  includes s p = true <-> exists before after, s = before +:+ p +:+ after.
Proof.
  induction s as [|a s IH].
  - simpl. rewrite orb_false_r, startsWith_spec. split.
    + intros [rest H]. now exists EmptyString, rest.
    + intros [before [after H]]. destruct before; [now exists after | discriminate H].
  - cbn [includes]. rewrite orb_true_iff, startsWith_spec, IH. split.
    + intros [[rest H] | [before [after H]]].
      * now exists EmptyString, rest.
      * exists (String a before), after. simpl. now rewrite H.
    + intros [before [after H]]. destruct before as [|b before].
      * left. now exists after.
      * right. injection H as -> ->. now exists before, after.
Qed.

Lemma truthy_true (s : string) : truthy s = true <-> s <> "".
Proof. unfold truthy. rewrite negb_true_iff. apply String.eqb_neq. Qed.

End StringFacts.

(** The built-ins on a few inputs. *)
Example toLowerCase_mixed : JsString.toLowerCase "No TEXT Found" = "no text found".
Proof. reflexivity. Qed.

Example trim_both_ends : JsString.trim "  New York 1950s " = "New York 1950s".
Proof. reflexivity. Qed.

Example encodeURIComponent_reserved :
  Url.encodeURIComponent "Chicago World's Fair & more?" =
  "Chicago%20World's%20Fair%20%26%20more%3F".
Proof. reflexivity. Qed.

Example URLSearchParams_toString :
  URLSearchParams.toString [("query", "New York's 1950s"); ("page", "2")] =
  "query=New+York%27s+1950s&page=2".
Proof. reflexivity. Qed.

Example queryPairs_of_link :
  Url.queryPairs "/search?query=paris&page=2&year_min=1900#top" =
  [("query", "paris"); ("page", "2"); ("year_min", "1900")].
Proof. reflexivity. Qed.

(** ** The tri-state of the extracted text *)

Example standardize_apology :
  standardizeTextDisplay (TStr "Sorry, I CANNOT SEE any writing") = "none".
Proof. reflexivity. Qed.

Example standardize_short : standardizeTextDisplay (TStr "1907") = "none".
Proof. reflexivity. Qed.

Example standardize_text :
  standardizeTextDisplay (TStr "Wish you were here") = "Wish you were here".
Proof. reflexivity. Qed.

Lemma mentionsNoText_existsb (s : string) :
  mentionsNoText s <->
  existsb (fun phrase => JsString.includes (JsString.toLowerCase s) phrase)
          noTextPhrases = true.
Proof.
  unfold mentionsNoText. rewrite existsb_exists. reflexivity.
Qed.

Lemma standardize_string (s : string) :
  standardizeTextDisplay (TStr s) = "none" \/ standardizeTextDisplay (TStr s) = s.
Proof.
  unfold standardizeTextDisplay. repeat case_match; auto.
Qed.

(** C1, as the code has it: "extracting" is the answer for [undefined],
    and a defined input gets it only when the input is itself the string
    "extracting"; "none" is the answer for [null], for the empty string,
    for a text whose lowercase form contains one of the eleven phrases and
    for a text of fewer than 5 code units; every other text is returned
    unchanged. *)
Theorem standardizeTextDisplay_tristate (text : OptText) :
  length noTextPhrases = 11%nat
  /\ (text = TUndefined -> standardizeTextDisplay text = "extracting")
  /\ (standardizeTextDisplay text = "extracting" ->
      text = TUndefined \/ text = TStr "extracting")
  /\ (text = TNull \/ text = TStr ""
      \/ (exists s, text = TStr s /\ (mentionsNoText s \/ (String.length s < 5)%nat)) ->
      standardizeTextDisplay text = "none")
  /\ (forall s, text = TStr s -> s <> "" -> ~ mentionsNoText s ->
      (5 <= String.length s)%nat -> standardizeTextDisplay text = s).
Proof.
  split; [reflexivity|]. split; [now intros ->|]. split; [|split].
  - destruct text as [| |s]; [now left | discriminate |].
    intros H. right. destruct (standardize_string s) as [E|E]; rewrite E in H.
    + discriminate H.
    + now rewrite H.
  - intros [-> | [-> | [s [-> H]]]]; [reflexivity | reflexivity |].
    unfold standardizeTextDisplay. destruct (String.eqb s ""); [reflexivity|].
    destruct H as [H | H].
    + apply mentionsNoText_existsb in H. now rewrite H.
    + apply Nat.ltb_lt in H. rewrite H. now case_match.
  - intros s -> Hne Hno Hlen. unfold standardizeTextDisplay.
    apply String.eqb_neq in Hne. rewrite Hne.
    apply Nat.ltb_ge in Hlen. rewrite Hlen.
    case_match eqn:E; [|reflexivity].
    exfalso. apply Hno. now apply mentionsNoText_existsb.
Qed.

Lemma standardizeTextDisplay_tristate_witness :
  standardizeTextDisplay (TStr "Greetings from Paris") = "Greetings from Paris".
Proof.
  apply (proj2 (proj2 (proj2 (proj2
           (standardizeTextDisplay_tristate (TStr "Greetings from Paris")))))).
  - reflexivity.
  - discriminate.
  - intros H. apply mentionsNoText_existsb in H. vm_compute in H. discriminate H.
  - simpl. lia.
Defined.

(** C1 as stated fails: the text "extracting" is a defined input and the
    classifier answers "extracting" for it. *)
Lemma standardizeTextDisplay_extracting_not_only_undefined :
  standardizeTextDisplay (TStr "extracting") = "extracting"
  /\ TStr "extracting" <> TUndefined.
Proof. split; [reflexivity | discriminate]. Qed.

(** ** Running the handlers *)

(** Unfolds the operations of [Eff] and the state setters. *)
Ltac eff_unfold :=
  unfold Eff.bind, Eff.ret, Eff.throw, Eff.tryCatchFinally, Eff.fetch, Eff.json,
    Eff.prop, Eff.push, Eff.setState,
    sendRequest, catchBlock, finallyBlock,
    setResults, setTotal, setLoading, setError, setEnhancedQuery,
    setExtractionTimeout in *.

Lemma fetchResults_empty_query env net p w :
  query p = "" -> fetchResults env net p w = (Normal tt, w).
Proof. intros H. unfold fetchResults. now rewrite H. Qed.

Lemma fetchResults_run env net p w :
  query p <> "" ->
  fetchResults env net p w = (Normal tt, afterFetch env net p w).
Proof.
  intros Hq. apply truthy_true in Hq.
  unfold fetchResults, afterFetch, successBody, field. rewrite Hq. simpl.
  eff_unfold. simpl.
  destruct (net (searchUrl env p)) as [|[o st stt b]]; simpl; [reflexivity|].
  destruct o; simpl; [|reflexivity].
  destruct b as [d|]; simpl; [|reflexivity].
  destruct d; reflexivity.
Qed.

Lemma fetchResults_keeps_timeout env net p w :
  extractionTimeout (comp (snd (fetchResults env net p w)))
  = extractionTimeout (comp w).
Proof.
  destruct (String.eqb_spec (query p) "") as [E|E].
  - now rewrite fetchResults_empty_query.
  - rewrite fetchResults_run by assumption. unfold afterFetch.
    now destruct (successBody _).
Qed.

(** The call cut at its awaits: what each piece does. *)
Lemma fetchResultsBegin_empty env p w :
  query p = "" -> fetchResultsBegin env p w = (Normal None, w).
Proof. intros H. unfold fetchResultsBegin. now rewrite H. Qed.

Lemma fetchResultsBegin_run env p w :
  query p <> "" ->
  fetchResultsBegin env p w
  = (Normal (Some (AwaitingFetch (searchUrl env p))), afterBegin env p w).
Proof.
  intros Hq. apply truthy_true in Hq.
  unfold fetchResultsBegin, afterBegin. rewrite Hq. reflexivity.
Qed.

Lemma fetchResultsResume_run net k w :
  fetchResultsResume net k w = (Normal (fst (resumed net k w)), snd (resumed net k w)).
Proof.
  destruct k as [url|[o st stt b]]; unfold fetchResultsResume, resumed, readable; simpl.
  - destruct (net url) as [|[o st stt b]]; simpl; [reflexivity|].
    destruct o; reflexivity.
  - eff_unfold. unfold afterBody, afterCatch, field. simpl.
    destruct b as [d|]; simpl; [|reflexivity].
    destruct d; reflexivity.
Qed.

Lemma resumed_catch net k w :
  endsInCatch net k = true -> resumed net k w = (None, afterCatch w).
Proof.
  destruct k as [url|r]; unfold endsInCatch, resumed.
  - destruct (net url) as [|r]; [reflexivity|].
    destruct (ok r); [discriminate | reflexivity].
  - destruct (readable r); [discriminate | reflexivity].
Qed.

Lemma resumed_calm net k w :
  endsInCatch net k = false ->
  error (comp (snd (resumed net k w))) = error (comp w).
Proof.
  destruct k as [url|r]; unfold endsInCatch, resumed.
  - destruct (net url) as [|r]; [discriminate|].
    destruct (ok r); [reflexivity | discriminate].
  - destruct (readable r); [reflexivity | discriminate].
Qed.

Lemma resumed_ends net k w :
  fst (resumed net k w) = None <-> endsCall net k = true.
Proof.
  destruct k as [url|r]; unfold endsCall, endsInCatch, resumed.
  - destruct (net url) as [|r]; [tauto|].
    destruct (ok r); simpl; split; (discriminate || reflexivity).
  - destruct (readable r); tauto.
Qed.

Lemma resumed_keeps_timeout net k w :
  extractionTimeout (comp (snd (resumed net k w))) = extractionTimeout (comp w).
Proof.
  destruct k as [url|r]; unfold resumed.
  - destruct (net url) as [|r]; [reflexivity|]. now destruct (ok r).
  - now destruct (readable r).
Qed.

Lemma fetchResultsBegin_keeps_timeout env p w :
  extractionTimeout (comp (snd (fetchResultsBegin env p w)))
  = extractionTimeout (comp w).
Proof.
  destruct (String.eqb_spec (query p) "") as [E|E].
  - now rewrite fetchResultsBegin_empty.
  - now rewrite fetchResultsBegin_run.
Qed.

(** One step of the life of the component, for the two events of a call
    that is cut at its awaits. *)
Lemma step_starts env net m p :
  step env net m (RequestStarts p)
  = Some (if JsString.truthy (query p)
          then mkMounted (clock m) (timer m) (afterBegin env p (world m))
                 (inflight m ++ [AwaitingFetch (searchUrl env p)])
          else mkMounted (clock m) (timer m) (world m) (inflight m ++ [])).
Proof.
  cbn [step]. destruct (String.eqb_spec (query p) "") as [E|E].
  - rewrite fetchResultsBegin_empty by assumption. now rewrite E.
  - rewrite fetchResultsBegin_run by assumption.
    now rewrite (proj2 (truthy_true _) E).
Qed.

Lemma step_resumes env net m i k :
  inflight m !! i = Some k ->
  step env net m (RequestResumes i)
  = Some (mkMounted (clock m) (timer m) (snd (resumed net k (world m)))
            (match fst (resumed net k (world m)) with
             | Some k' => <[i := k']> (inflight m)
             | None => delete i (inflight m)
             end)).
Proof.
  intros Hk. cbn [step]. rewrite Hk, fetchResultsResume_run. reflexivity.
Qed.

(** ** The extraction timer *)

Section TimerFacts.
Variable env : option string.
Variable net : string -> FetchOutcome.

Lemma timerInv_mount : timerInv mount.
Proof.
  unfold timerInv, mount, timedOut. simpl.
  split; [lia|]. split; [now right | discriminate].
Qed.

Lemma step_timedOut m e m' :
  step env net m e = Some m' ->
  timedOut m' = match e with TimerFires => true | _ => timedOut m end.
Proof.
  destruct e; simpl.
  - destruct (0 <=? ms); [|discriminate]. now intros [= <-].
  - destruct (timer m) as [due|]; [|discriminate].
    destruct (due <=? clock m); [|discriminate]. now intros [= <-].
  - intros [= <-]. unfold timedOut. simpl. apply fetchResults_keeps_timeout.
  - now intros [= <-].
  - pose proof (fetchResultsBegin_keeps_timeout env p (world m)) as Hk.
    destruct (fetchResultsBegin env p (world m)) as [c w]. now intros [= <-].
  - destruct (inflight m !! i) as [k|]; [|discriminate].
    rewrite fetchResultsResume_run. intros [= <-].
    unfold timedOut. simpl. apply resumed_keeps_timeout.
Qed.

Lemma step_timerInv m e m' :
  timerInv m -> step env net m e = Some m' -> timerInv m'.
Proof.
  intros (Hc & Ht & Hf) Hs. pose proof (step_timedOut _ _ _ Hs) as Hto.
  unfold timerInv. rewrite Hto. clear Hto.
  destruct e; simpl in Hs.
  - destruct (0 <=? ms) eqn:E; [|discriminate]. injection Hs as <-. simpl.
    apply Z.leb_le in E. split; [lia|]. split; [assumption|].
    intros H. specialize (Hf H). lia.
  - destruct (timer m) as [due|] eqn:Et; [|discriminate].
    destruct (due <=? clock m) eqn:E; [|discriminate]. injection Hs as <-. simpl.
    apply Z.leb_le in E. split; [assumption|]. split; [now left|].
    intros _. destruct Ht as [Ht|Ht]; [discriminate Ht|]. injection Ht as <-. exact E.
  - injection Hs as <-. simpl. repeat split; assumption.
  - injection Hs as <-. simpl. split; [assumption|]. split; [now left | assumption].
  - destruct (fetchResultsBegin env p (world m)) as [c w].
    injection Hs as <-. simpl. repeat split; assumption.
  - destruct (inflight m !! i) as [k|]; [|discriminate].
    destruct (fetchResultsResume net k (world m)) as [c w].
    injection Hs as <-. simpl. repeat split; assumption.
Qed.

Lemma run_timerInv evs : forall m m',
  timerInv m -> run env net m evs = Some m' -> timerInv m'.
Proof.
  induction evs as [|e evs IH]; intros m m' Hi Hr; simpl in Hr.
  - now injection Hr as <-.
  - destruct (step env net m e) as [m1|] eqn:Es; [|discriminate].
    eapply IH; [|exact Hr]. eapply step_timerInv; eassumption.
Qed.

(** The flag is up exactly when it was up before or the timer has fired
    since: nothing lowers it. *)
Lemma run_timedOut evs : forall m m',
  run env net m evs = Some m' ->
  (timedOut m' = true <-> timedOut m = true \/ In TimerFires evs).
Proof.
  induction evs as [|e evs IH]; intros m m' Hr; simpl in Hr.
  - injection Hr as <-. simpl. tauto.
  - destruct (step env net m e) as [m1|] eqn:Es; [|discriminate].
    rewrite (IH _ _ Hr), (step_timedOut _ _ _ Es). simpl.
    destruct e; split; intros H; try tauto;
      try (destruct H as [H|[H|H]]; (discriminate H || tauto)).
    all: destruct H as [H|H]; [tauto | right; now right].
Qed.

Lemma run_app (a b : list Event) : forall m,
  run env net m (a ++ b) =
  match run env net m a with
  | Some m1 => run env net m1 b
  | None => None
  end.
Proof.
  induction a as [|e a IH]; intros m; simpl; [reflexivity|].
  destruct (step env net m e); [apply IH | reflexivity].
Qed.

Lemma step_disarmed m e m' :
  step env net m e = Some m' ->
  timer m' = if disarmsTimer e then None else timer m.
Proof.
  destruct e; simpl.
  - destruct (0 <=? ms); [|discriminate]. now intros [= <-].
  - destruct (timer m) as [due|]; [|discriminate].
    destruct (due <=? clock m); [|discriminate]. now intros [= <-].
  - now intros [= <-].
  - now intros [= <-].
  - destruct (fetchResultsBegin env p (world m)) as [c w]. now intros [= <-].
  - destruct (inflight m !! i) as [k|]; [|discriminate].
    destruct (fetchResultsResume net k (world m)) as [c w]. now intros [= <-].
Qed.

Lemma run_disarmed evs : forall m m',
  timer m = None -> run env net m evs = Some m' ->
  ~ In TimerFires evs /\ timer m' = None.
Proof.
  induction evs as [|e evs IH]; intros m m' Ht Hr; simpl in Hr.
  - injection Hr as <-. split; [intros [] | assumption].
  - destruct (step env net m e) as [m1|] eqn:Es; [|discriminate].
    pose proof (step_disarmed _ _ _ Es) as Hd.
    assert (Ht1 : timer m1 = None) by (destruct (disarmsTimer e); congruence).
    destruct (IH _ _ Ht1 Hr) as [Hn Hm]. split; [|assumption].
    intros [-> | Hin]; [|contradiction].
    simpl in Es. rewrite Ht in Es. discriminate Es.
Qed.

(** The timer stays pending as long as it has not fired and the component
    is mounted. *)
Lemma run_pending evs : forall m m',
  run env net m evs = Some m' ->
  ~ In TimerFires evs -> ~ In Unmount evs -> timer m' = timer m.
Proof.
  induction evs as [|e evs IH]; intros m m' Hr Hf Hu; simpl in Hr.
  - now injection Hr as <-.
  - destruct (step env net m e) as [m1|] eqn:Es; [|discriminate].
    rewrite (IH _ _ Hr)
      by (intros H; first [apply Hf; now right | apply Hu; now right]).
    rewrite (step_disarmed _ _ _ Es).
    destruct e; try reflexivity; exfalso;
      first [apply Hf; now left | apply Hu; now left].
Qed.

(** A run whose callback is never late ends in a state that is not
    overdue. *)
Lemma run_punctual evs : forall m m',
  run env net m evs = Some m' -> punctual env net m evs = true -> overdue m' = false.
Proof.
  induction evs as [|e evs IH]; intros m m' Hr Hp; simpl in Hr, Hp.
  - injection Hr as <-. apply andb_prop in Hp as [Hp _].
    now apply negb_true_iff in Hp.
  - destruct (step env net m e) as [m1|] eqn:Es; [|discriminate].
    apply andb_prop in Hp as [_ Hp]. eapply IH; eassumption.
Qed.

End TimerFacts.

Lemma renderExtractedText_cases (timeout : bool) (status : string) :
  renderExtractedText timeout status =
  if String.eqb status "extracting"
  then (if timeout then NoTextDetected else ExtractingIndicator)
  else if String.eqb status "none" then NoTextDetected
  else ExtractedText status.
Proof.
  unfold renderExtractedText.
  destruct (String.eqb_spec status "extracting") as [->|]; destruct timeout; simpl;
    try reflexivity; now rewrite orb_false_r.
Qed.

(** C2: the wait for the extracted text is bounded by the timer of 10000
    ms set at the mount.  In every run of a mounted result list the timer
    fires no earlier than 10000 ms after the mount; a text status
    "extracting" is rendered as the extracting indicator as long as the
    timer has not fired, and as "No text detected" once it has; a status
    "none" is always rendered as "No text detected"; any other status is
    rendered as the text itself; so the front panel of a result without
    [image_text] waits, and stops waiting when the timer fires.  As long as
    the timer has not fired and the component is mounted, the timer is
    pending and due at 10000 ms exactly: its callback cannot run before,
    and from 10000 ms on it can, and the panel then reads "No text
    detected".  In a run whose callback is never late, the indicator is
    not shown later than 10000 ms after the mount. *)
Theorem extraction_wait_bounded env net (evs : list Event) (m : Mounted) :
  run env net mount evs = Some m ->
  (In TimerFires evs -> 10000 <= clock m)
  /\ (~ In TimerFires evs ->
      renderExtractedText (timedOut m) "extracting" = ExtractingIndicator)
  /\ (In TimerFires evs ->
      renderExtractedText (timedOut m) "extracting" = NoTextDetected)
  /\ renderExtractedText (timedOut m) "none" = NoTextDetected
  /\ (forall status, status <> "extracting" -> status <> "none" ->
      renderExtractedText (timedOut m) status = ExtractedText status)
  /\ (forall r, image_text r = TUndefined ->
      cardTextPanels (timedOut m) r !! 0%nat
      = Some ("Front:", if timedOut m then NoTextDetected else ExtractingIndicator))
  /\ (~ In TimerFires evs -> ~ In Unmount evs ->
      timer m = Some 10000
      /\ (clock m < 10000 -> step env net m TimerFires = None)
      /\ (10000 <= clock m ->
          exists m',
            step env net m TimerFires = Some m'
            /\ clock m' = clock m
            /\ renderExtractedText (timedOut m') "extracting" = NoTextDetected
            /\ (forall r, image_text r = TUndefined ->
                cardTextPanels (timedOut m') r !! 0%nat
                = Some ("Front:", NoTextDetected))))
  /\ (punctual env net mount evs = true -> ~ In Unmount evs ->
      renderExtractedText (timedOut m) "extracting" = ExtractingIndicator ->
      clock m <= 10000).
Proof.
  intros Hr.
  pose proof (run_timedOut env net _ _ _ Hr) as Hto.
  pose proof (run_timerInv env net _ _ _ timerInv_mount Hr) as (_ & _ & Hclock).
  assert (Hm : timedOut mount = true <-> False) by (split; [discriminate | tauto]).
  rewrite Hm in Hto.
  assert (Hpending : ~ In TimerFires evs -> ~ In Unmount evs -> timer m = Some 10000).
  { intros Hf Hu. now rewrite (run_pending env net _ _ _ Hr Hf Hu). }
  split; [|split; [|split; [|split; [|split; [|split; [|split]]]]]].
  - intros Hin. apply Hclock, Hto. now right.
  - intros Hn. destruct (timedOut m) eqn:E; [|reflexivity].
    exfalso. apply Hn. destruct (proj1 Hto eq_refl); tauto.
  - intros Hin. replace (timedOut m) with true; [reflexivity|].
    symmetry. apply Hto. now right.
  - now destruct (timedOut m).
  - intros status H1 H2. rewrite renderExtractedText_cases.
    apply String.eqb_neq in H1, H2. now rewrite H1, H2.
  - intros r Htext. unfold cardTextPanels. rewrite Htext. cbn [app lookup list_lookup].
    now destruct (timedOut m).
  - intros Hf Hu. pose proof (Hpending Hf Hu) as Ht.
    split; [exact Ht|]. split.
    + intros Hlt. cbn [step]. rewrite Ht.
      destruct (10000 <=? clock m) eqn:E; [|reflexivity].
      apply Z.leb_le in E. lia.
    + intros Hge. cbn [step]. rewrite Ht.
      apply Z.leb_le in Hge. rewrite Hge.
      eexists. split; [reflexivity|]. split; [reflexivity|].
      split; [reflexivity|].
      intros r Htext. unfold cardTextPanels. rewrite Htext. reflexivity.
  - intros Hp Hu Hshown.
    assert (Hf : ~ In TimerFires evs).
    { intros Hin. replace (timedOut m) with true in Hshown; [discriminate Hshown|].
      symmetry. apply Hto. now right. }
    pose proof (run_punctual env net _ _ _ Hr Hp) as Ho.
    unfold overdue in Ho. rewrite (Hpending Hf Hu) in Ho.
    apply Z.ltb_ge in Ho. exact Ho.
Qed.

Lemma extraction_wait_bounded_witness :
  (exists m,
     run None offline mount demoRun = Some m
     /\ 10000 <= clock m
     /\ renderExtractedText (timedOut m) "extracting" = NoTextDetected)
  /\ (exists m m',
       run None offline mount dueRun = Some m
       /\ renderExtractedText (timedOut m) "extracting" = ExtractingIndicator
       /\ clock m <= 10000
       /\ step None offline m TimerFires = Some m'
       /\ renderExtractedText (timedOut m') "extracting" = NoTextDetected).
Proof.
  split.
  - eexists. split; [reflexivity|].
    split.
    + apply (proj1 (extraction_wait_bounded None offline demoRun _ eq_refl)).
      simpl. tauto.
    + apply (proj1 (proj2 (proj2 (extraction_wait_bounded None offline demoRun _ eq_refl)))).
      simpl. tauto.
  - pose proof (extraction_wait_bounded None offline dueRun _ eq_refl)
      as (_ & Hshown & _ & _ & _ & _ & Hdue & Hbound).
    assert (Hf : ~ In TimerFires dueRun) by (simpl; intuition discriminate).
    assert (Hu : ~ In Unmount dueRun) by (simpl; intuition discriminate).
    destruct (Hdue Hf Hu) as (_ & _ & Hfire).
    destruct (Hfire ltac:(simpl; lia)) as (m' & Hs & _ & Hr & _).
    eexists. exists m'.
    split; [reflexivity|]. split; [exact (Hshown Hf)|].
    split; [exact (Hbound eq_refl Hu (Hshown Hf))|].
    split; [exact Hs | exact Hr].
Defined.

(** ** Search requests: error state and defaults *)

Lemma successBody_Some o data :
  successBody o = Some data <->
  exists r, o = Resolved r /\ ok r = true /\ body r = Some data
            /\ data <> VNull /\ data <> VUndefined.
Proof.
  unfold successBody. split.
  - destruct o as [|r]; [discriminate|].
    destruct (ok r) eqn:Eo; [|discriminate].
    destruct (body r) as [d|] eqn:Eb; [|discriminate].
    destruct d; try discriminate; intros [= <-]; exists r; repeat split; congruence.
  - intros (r & -> & -> & -> & Hn & Hu). destruct data; congruence.
Qed.

Lemma successBody_failed o :
  o = Rejected \/ (exists r, o = Resolved r /\ ok r = false) -> successBody o = None.
Proof.
  intros [-> | (r & -> & H)]; simpl; [reflexivity | now rewrite H].
Qed.

Section RequestFacts.
Variable env : option string.
Variable net : string -> FetchOutcome.

(** An event in which no request fails leaves a cleared error cleared. *)
Lemma step_calm m e m' :
  step env net m e = Some m' -> failing env net m e = false ->
  error (comp (world m)) = None -> error (comp (world m')) = None.
Proof.
  intros Hs Hf He. destruct e.
  - simpl in Hs. destruct (0 <=? ms); [|discriminate]. now injection Hs as <-.
  - simpl in Hs. destruct (timer m) as [due|]; [|discriminate].
    destruct (due <=? clock m); [|discriminate]. now injection Hs as <-.
  - simpl in Hs. injection Hs as <-. cbn [world].
    destruct (String.eqb_spec (query p) "") as [E|E].
    + now rewrite fetchResults_empty_query.
    + rewrite fetchResults_run by assumption. unfold afterFetch.
      cbn [failing] in Hf. rewrite (proj2 (truthy_true _) E) in Hf.
      destruct (successBody _); [reflexivity | discriminate Hf].
  - simpl in Hs. now injection Hs as <-.
  - rewrite step_starts in Hs. injection Hs as <-.
    now destruct (JsString.truthy (query p)).
  - cbn [failing] in Hf. destruct (inflight m !! i) as [k|] eqn:Ek.
    + rewrite (step_resumes _ _ _ _ _ Ek) in Hs. injection Hs as <-. cbn [world].
      now rewrite resumed_calm.
    + simpl in Hs. rewrite Ek in Hs. discriminate Hs.
Qed.

Lemma run_calm evs : forall m m',
  run env net m evs = Some m' -> calm env net m evs = true ->
  error (comp (world m)) = None -> error (comp (world m')) = None.
Proof.
  induction evs as [|e evs IH]; intros m m' Hr Hc He; simpl in Hr, Hc.
  - now injection Hr as <-.
  - destruct (step env net m e) as [m1|] eqn:Es; [|discriminate].
    apply andb_prop in Hc as [Hf Hc]. apply negb_true_iff in Hf.
    eapply IH; [exact Hr | exact Hc |]. eapply step_calm; eassumption.
Qed.

End RequestFacts.

(** An error state is what the component shows, whatever the cards and
    the numbers are. *)
Lemma renderScreen_error {Card} (card : JsValue -> option Card) toNumber p s msg :
  loading s = false -> error s = Some msg -> msg <> "" ->
  renderScreen card toNumber p s = Some (ErrorScreen msg).
Proof.
  intros Hl He Hm. unfold renderScreen. rewrite Hl, He. simpl.
  now rewrite (proj2 (truthy_true _) Hm).
Qed.

(** C3, as the code has it.  A search request fails when the fetch is
    rejected, when the response is not OK, and when the body of the
    response cannot be read.  When a request fails, the component is in its
    error state at once, whatever else is in flight: the message is set and
    shown, the result list is empty and the total is zero.  A request
    clears the error when it starts, and nothing but a failing request
    sets it: the error is cleared at the end of every stretch of a run
    that starts with a request and in which no request fails.  For a
    request that nothing interrupts, the two ends are: failed and in the
    error state, or successful and cleared.  A call that goes on without
    failing leaves the error as it finds it, set or cleared. *)
Theorem request_error_state {Card} (card : JsValue -> option Card) toNumber env net :
  (forall url,
      net url = Rejected \/ (exists r, net url = Resolved r /\ ok r = false) ->
      endsInCatch net (AwaitingFetch url) = true)
  /\ (forall r, body r = None \/ body r = Some VNull ->
      endsInCatch net (AwaitingJson r) = true)
  /\ (forall m i k m' p,
      inflight m !! i = Some k -> endsInCatch net k = true ->
      step env net m (RequestResumes i) = Some m' ->
      let s' := comp (world m') in
      error s' = Some fetchFailedMessage
      /\ results s' = VArr [] /\ total s' = VNum (Num 0)
      /\ renderScreen card toNumber p s' = Some (ErrorScreen fetchFailedMessage)
      /\ inflight m' = delete i (inflight m))
  /\ (forall m p evs m',
      query p <> "" ->
      run env net m (RequestStarts p :: evs) = Some m' ->
      calm env net m (RequestStarts p :: evs) = true ->
      error (comp (world m')) = None)
  /\ (forall p w,
      query p <> "" ->
      let s' := comp (snd (fetchResults env net p w)) in
      (successBody (net (searchUrl env p)) = None ->
         error s' = Some fetchFailedMessage
         /\ results s' = VArr [] /\ total s' = VNum (Num 0)
         /\ renderScreen card toNumber p s' = Some (ErrorScreen fetchFailedMessage))
      /\ (successBody (net (searchUrl env p)) <> None -> error s' = None))
  /\ (forall m i k m',
      inflight m !! i = Some k -> endsInCatch net k = false ->
      step env net m (RequestResumes i) = Some m' ->
      error (comp (world m')) = error (comp (world m))).
Proof.
  split; [|split; [|split; [|split; [|split]]]].
  - intros url [H | (r & H & Hok)]; unfold endsInCatch; rewrite H; [reflexivity|].
    now rewrite Hok.
  - intros r [Hb | Hb]; unfold endsInCatch, readable; now rewrite Hb.
  - intros m i k m' p Hk Hc Hs s'. subst s'.
    rewrite (step_resumes _ _ _ _ _ Hk), (resumed_catch _ _ _ Hc) in Hs.
    injection Hs as <-. cbn [world inflight fst snd].
    repeat split; now apply renderScreen_error.
  - intros m p evs m' Hq Hr Hc. cbn [run calm] in Hr, Hc.
    rewrite step_starts in Hr, Hc. rewrite (proj2 (truthy_true _) Hq) in Hr, Hc.
    apply andb_prop in Hc as [_ Hc].
    exact (run_calm env net _ _ _ Hr Hc eq_refl).
  - intros p w Hq s'. subst s'.
    rewrite fetchResults_run by assumption. unfold afterFetch. cbn [snd].
    split.
    + intros ->. cbn [comp error results total].
      repeat split; now apply renderScreen_error.
    + intros Hs. now destruct (successBody _).
  - intros m i k m' Hk Hc Hs. rewrite (step_resumes _ _ _ _ _ Hk) in Hs.
    injection Hs as <-. cbn [world]. now apply resumed_calm.
Qed.

Lemma request_error_state_witness :
  (exists m,
     run None parisFails mount [RequestStarts demoProps; RequestResumes 0]
     = Some failedMount
     /\ error (comp (world failedMount)) = Some fetchFailedMessage
     /\ run None parisFails failedMount romeRun = Some m
     /\ error (comp (world m)) = None)
  /\ (let s' := comp (snd (fetchResults None serverDown demoProps
                             (mkWorld initialResultsState [] []))) in
      error s' = Some fetchFailedMessage
      /\ renderScreen (typedCard false) digitsToNumber demoProps s'
         = Some (ErrorScreen fetchFailedMessage)).
Proof.
  pose proof (request_error_state (typedCard false) digitsToNumber None parisFails)
    as (_ & _ & _ & Hcalm & _).
  pose proof (request_error_state (typedCard false) digitsToNumber None serverDown)
    as (_ & _ & _ & _ & Hcall & _).
  split.
  - eexists. split; [vm_compute; reflexivity|]. split; [reflexivity|].
    split; [vm_compute; reflexivity|].
    apply (Hcalm failedMount romeProps [RequestResumes 0; RequestResumes 0]);
      [discriminate | vm_compute; reflexivity | vm_compute; reflexivity].
  - destruct (Hcall demoProps (mkWorld initialResultsState [] []) ltac:(discriminate))
      as [Hfail _].
    destruct (Hfail eq_refl) as (He & _ & _ & Hv). split; assumption.
Defined.

(** C3 as stated fails: a request that succeeds does not always clear the
    error, because the request that fails is not always the last to end.
    The search for "rome" starts while the search for "paris" is in
    flight; the search for "paris" fails; the search for "rome" succeeds,
    its result list arrives, and the component is still in the error
    state: the successful request has not cleared it. *)
Lemma overlapping_requests_keep_error :
  exists m,
    run None parisFails mount overlapRun = Some m
    /\ successBody (parisFails (searchUrl None romeProps)) = Some romeBody
    /\ inflight m = []
    /\ results (comp (world m)) = VArr [sampleResult]
    /\ error (comp (world m)) = Some fetchFailedMessage
    /\ renderScreen (typedCard false) digitsToNumber romeProps (comp (world m))
       = Some (ErrorScreen fetchFailedMessage).
Proof.
  eexists. split; [vm_compute; reflexivity|].
  repeat split; vm_compute; reflexivity.
Qed.

(** C4: from the body of a successful response the handler keeps the values
    of [results], [total] and [enhanced_query], replacing an absent or falsy
    one by the empty list, zero and null; and it keeps nothing else: two
    bodies with the same three fields leave the same state. *)
Theorem fetchResults_takes_three_fields env net p w r data :
  query p <> "" ->
  net (searchUrl env p) = Resolved r -> ok r = true -> body r = Some data ->
  data <> VNull -> data <> VUndefined ->
  let s' := comp (snd (fetchResults env net p w)) in
  (forall k d (stored : ResultsState -> JsValue),
      (k, d, stored) ∈ [ ("results", VArr [], results);
                         ("total", VNum (Num 0), total);
                         ("enhanced_query", VNull, enhancedQuery) ] ->
      (Js.truthy (field data k) = true -> stored s' = field data k)
      /\ (Js.truthy (field data k) = false -> stored s' = d)
      /\ (forall fields, data = VObj fields -> fields !! k = None -> stored s' = d))
  /\ (forall net' r' data',
        net' (searchUrl env p) = Resolved r' -> ok r' = true -> body r' = Some data' ->
        data' <> VNull -> data' <> VUndefined ->
        field data' "results" = field data "results" ->
        field data' "total" = field data "total" ->
        field data' "enhanced_query" = field data "enhanced_query" ->
        comp (snd (fetchResults env net' p w)) = s').
Proof.
  intros Hq Ho Hok Hb Hn Hu s'. subst s'.
  assert (Hs : successBody (net (searchUrl env p)) = Some data).
  { apply successBody_Some. exists r. repeat split; assumption. }
  rewrite fetchResults_run by assumption. unfold afterFetch. rewrite Hs. cbn [snd comp].
  split.
  - intros k d stored Hin.
    assert (Hst : stored = results /\ k = "results" /\ d = VArr []
                  \/ stored = total /\ k = "total" /\ d = VNum (Num 0)
                  \/ stored = enhancedQuery /\ k = "enhanced_query" /\ d = VNull).
    { repeat (apply elem_of_cons in Hin; destruct Hin as [[= -> -> ->]|Hin]; [tauto|]).
      apply elem_of_nil in Hin. contradiction. }
    destruct Hst as [(-> & -> & ->) | [(-> & -> & ->) | (-> & -> & ->)]];
      cbn [results total enhancedQuery]; unfold Js.or;
      (split; [now intros -> | split; [now intros -> |]]);
      intros fields -> Hnone; unfold field; simpl; now rewrite Hnone.
  - intros net' r' data' Ho' Hok' Hb' Hn' Hu' E1 E2 E3.
    assert (Hs' : successBody (net' (searchUrl env p)) = Some data').
    { apply successBody_Some. exists r'. repeat split; assumption. }
    rewrite fetchResults_run by assumption. unfold afterFetch. rewrite Hs'.
    cbn [snd comp]. now rewrite E1, E2, E3.
Qed.

Lemma fetchResults_takes_three_fields_witness :
  let s' := comp (snd (fetchResults None sparseNet demoProps
                         (mkWorld initialResultsState [] []))) in
  results s' = VArr [VObj ∅] /\ total s' = VNum (Num 0) /\ enhancedQuery s' = VNull.
Proof.
  pose proof (proj1 (fetchResults_takes_three_fields None sparseNet demoProps
                  (mkWorld initialResultsState [] [])
                  (mkResponse true (Num 200) "OK" (Some sparseBody)) sparseBody
                  ltac:(discriminate) eq_refl eq_refl eq_refl
                  ltac:(discriminate) ltac:(discriminate))) as H.
  split; [|split].
  - apply (H "results" (VArr []) results); [repeat constructor | reflexivity].
  - apply (H "total" (VNum (Num 0)) total); [repeat constructor | reflexivity].
  - apply (H "enhanced_query" VNull enhancedQuery); [repeat constructor | reflexivity].
Defined.

(** ** The enhanced query and its banner *)


(** A rendered page of results: what was in the state, and what is shown. *)
Lemma render_results p s v :
  render p s = Some (ResultsView v) ->
  loading s = false /\ truthyOptString (error s) = false
  /\ exists t rs,
       total s = VNum t /\ results s = VArr rs
       /\ v = {| banner := enhancedBanner (enhancedQuery s) (query p);
                 cards := rs;
                 pagination :=
                   if JsNumber.gtb t (Num 0) then Some (paginationNav p (length rs))
                   else None |}.
Proof.
  unfold render, resultsTree.
  destruct (loading s); [discriminate|].
  destruct (truthyOptString (error s)); [discriminate|].
  destruct (total s) as [| | |t| | |]; try discriminate.
  destruct (results s) as [| | | | |rs|]; try discriminate.
  intros [= <-]. repeat split. now exists t, rs.
Qed.





(** ** Suggestions *)

Ltac form_unfold :=
  unfold SearchForm.fetchSuggestions, SearchForm.generateMockSuggestions,
    SearchForm.handleSubmit, SearchForm.theQuery, SearchForm.setQuery,
    SearchForm.setSuggestions, SearchForm.setShowSuggestions,
    SearchForm.setIsLoading in *;
  eff_unfold.

Lemma startsWith_append (q rest : string) : JsString.startsWith (q +:+ rest) q = true.
Proof. apply startsWith_spec. now exists rest. Qed.

Lemma mockSuggestions_five (q : string) :
  length (SearchForm.mockSuggestions q) = 5%nat
  /\ Forall (fun s => JsString.startsWith s q = true) (SearchForm.mockSuggestions q).
Proof.
  split; [reflexivity|].
  unfold SearchForm.mockSuggestions. repeat constructor; apply startsWith_append.
Qed.

(** The state a failed suggestion request ends with. *)
Lemma fetchSuggestions_failed env net (w : World SearchForm.State) :
  let q := SearchForm.query (comp w) in
  (2 <= String.length q)%nat ->
  successBody (net (SearchForm.suggestUrl env q)) = None ->
  SearchForm.fetchSuggestions env net w =
  (Normal tt,
   mkWorld (SearchForm.mkState q (Js.strings (SearchForm.mockSuggestions q))
              (SearchForm.showSuggestions (comp w)) false)
           (requests w ++ [SearchForm.suggestUrl env q]) (pushed w)).
Proof.
  intros q Hlen Hfail. subst q.
  apply Nat.ltb_ge in Hlen. form_unfold. simpl. rewrite Hlen. simpl.
  unfold successBody in Hfail.
  destruct (net _) as [|[o st stt b]]; simpl in *.
  - now rewrite Hlen.
  - destruct o; simpl.
    + destruct b as [d|]; simpl; [|now rewrite Hlen].
      destruct d; try discriminate Hfail; simpl; now rewrite Hlen.
    + now rewrite Hlen.
Qed.

(** C5: for a query of at least two code units, a suggestion request that
    is rejected or answered with a status that is not OK leaves exactly the
    five local suggestions, each one starting with the query; for a shorter
    query the list is emptied and nothing is sent. *)
Theorem fetchSuggestions_fallback env net (w : World SearchForm.State) :
  let q := SearchForm.query (comp w) in
  let w' := snd (SearchForm.fetchSuggestions env net w) in
  ((2 <= String.length q)%nat ->
   (net (SearchForm.suggestUrl env q) = Rejected
    \/ exists r, net (SearchForm.suggestUrl env q) = Resolved r /\ ok r = false) ->
   exists l,
     SearchForm.suggestions (comp w') = Js.strings l
     /\ l = SearchForm.mockSuggestions q
     /\ length l = 5%nat
     /\ Forall (fun s => JsString.startsWith s q = true) l)
  /\ ((String.length q < 2)%nat ->
      SearchForm.suggestions (comp w') = VArr []
      /\ requests w' = requests w).
Proof.
  intros q w'. subst q w'. split.
  - intros Hlen Hfail. apply successBody_failed in Hfail.
    rewrite fetchSuggestions_failed by assumption. cbn [snd comp SearchForm.suggestions].
    eexists. split; [reflexivity|]. split; [reflexivity|]. apply mockSuggestions_five.
  - intros Hlen. apply Nat.ltb_lt in Hlen. form_unfold. simpl. rewrite Hlen. simpl.
    split; reflexivity.
Qed.

Lemma fetchSuggestions_fallback_witness :
  SearchForm.suggestions (comp (snd (SearchForm.fetchSuggestions None offline typedParis)))
  = Js.strings [ "paris vintage postcards"; "paris antique postcards";
                 "paris 1950s postcards"; "paris black and white postcards";
                 "paris color postcards" ].
Proof.
  destruct (proj1 (fetchSuggestions_fallback None offline typedParis)
              ltac:(simpl; lia) (or_introl eq_refl)) as (l & -> & -> & _).
  reflexivity.
Defined.

(** ** Trimming and encoding *)

Section TrimFacts.
Import JsString.

Lemma allUnits_app P (s t : string) :
  allUnits P (s +:+ t) = allUnits P s && allUnits P t.
Proof.
  induction s as [|c s IH]; simpl; [reflexivity|].
  now rewrite IH, andb_assoc.
Qed.

Lemma allUnits_impl (P Q : ascii -> bool) (s : string) :
  (forall c, P c = true -> Q c = true) -> allUnits P s = true -> allUnits Q s = true.
Proof.
  intros HPQ. induction s as [|c s IH]; simpl; [reflexivity|].
  rewrite !andb_true_iff. intros [H1 H2]. split; [now apply HPQ | now apply IH].
Qed.

Lemma trimStart_decompose (s : string) :
  exists l, s = l +:+ trimStart s /\ allUnits isWhiteSpace l = true.
Proof.
  induction s as [|c s (l & Hl & Hw)]; simpl.
  - now exists EmptyString.
  - destruct (isWhiteSpace c) eqn:E.
    + exists (String c l). split; [simpl; f_equal; exact Hl |].
      simpl. now rewrite E, Hw.
    + now exists EmptyString.
Qed.

Lemma trimStart_allUnits (s : string) :
  allUnits isWhiteSpace (trimStart s) = allUnits isWhiteSpace s.
Proof.
  induction s as [|c s IH]; simpl; [reflexivity|].
  destruct (isWhiteSpace c) eqn:E; simpl; [exact IH | now rewrite E].
Qed.

Lemma trimStart_first (s : string) c rest :
  trimStart s = String c rest -> isWhiteSpace c = false.
Proof.
  induction s as [|a s IH]; simpl; [discriminate|].
  destruct (isWhiteSpace a) eqn:E; [exact IH | now intros [= <- _]].
Qed.

Lemma trimEnd_decompose (s : string) :
  exists r, s = trimEnd s +:+ r /\ allUnits isWhiteSpace r = true.
Proof.
  induction s as [|c s (r & Hr & Hw)]; simpl.
  - now exists EmptyString.
  - destruct (trimEnd s) as [|a t] eqn:E.
    + simpl in Hr. subst r. destruct (isWhiteSpace c) eqn:Ec.
      * exists (String c s). simpl. now rewrite Ec, Hw.
      * exists s. now split.
    + exists r. simpl. split; [f_equal; exact Hr | exact Hw].
Qed.

Lemma trimEnd_empty (s : string) :
  trimEnd s = "" <-> allUnits isWhiteSpace s = true.
Proof.
  induction s as [|c s IH]; simpl; [tauto|].
  rewrite andb_true_iff, <- IH.
  destruct (trimEnd s); destruct (isWhiteSpace c); split;
    (reflexivity || discriminate || tauto || intros [? ?]; discriminate).
Qed.

Lemma trimEnd_first (s : string) c rest :
  s = String c rest -> isWhiteSpace c = false -> exists rest', trimEnd s = String c rest'.
Proof.
  intros -> Hc. simpl. rewrite Hc. destruct (trimEnd rest); eauto.
Qed.

Lemma trimEnd_last (s : string) : forall front c,
  trimEnd s = front +:+ String c "" -> isWhiteSpace c = false.
Proof.
  induction s as [|a s IH]; intros front c; simpl.
  - destruct front; discriminate.
  - destruct (trimEnd s) as [|x t] eqn:E.
    + destruct (isWhiteSpace a) eqn:Ea.
      * destruct front; discriminate.
      * destruct front as [|b front]; simpl; [now intros [= <-]|].
        intros [= _ H]. destruct front; discriminate H.
    + destruct front as [|b front]; simpl; [discriminate|].
      intros [= _ H]. now apply (IH front c).
Qed.

(** [trim] removes white space at both ends and nothing else. *)
Lemma trim_decompose (s : string) :
  exists l r,
    s = l +:+ trim s +:+ r
    /\ allUnits isWhiteSpace l = true /\ allUnits isWhiteSpace r = true.
Proof.
  destruct (trimStart_decompose s) as (l & Hl & Hwl).
  destruct (trimEnd_decompose (trimStart s)) as (r & Hr & Hwr).
  exists l, r. unfold trim. now rewrite <- Hr, <- Hl.
Qed.

Lemma trim_ends (s : string) :
  (forall c rest, trim s = String c rest -> isWhiteSpace c = false)
  /\ (forall front c, trim s = front +:+ String c "" -> isWhiteSpace c = false).
Proof.
  split.
  - intros c rest H. unfold trim in H.
    destruct (trimStart s) as [|a t] eqn:E; [discriminate H|].
    pose proof (trimStart_first _ _ _ E) as Ha.
    destruct (trimEnd_first _ a t eq_refl Ha) as [rest' H']. rewrite H' in H.
    now injection H as <- _.
  - intros front c H. now apply (trimEnd_last _ _ _ H).
Qed.

Lemma trim_empty (s : string) :
  trim s = "" <-> allUnits isWhiteSpace s = true.
Proof.
  unfold trim. now rewrite trimEnd_empty, trimStart_allUnits.
Qed.

End TrimFacts.

Section EncodeFacts.
Import JsString.

Lemma encodeUnit_encoded (c : ascii) : allUnits isEncoded (Url.encodeUnit c) = true.
Proof. destruct c as [[] [] [] [] [] [] [] []]; reflexivity. Qed.

Lemma encodeURIComponent_encoded (s : string) :
  allUnits isEncoded (Url.encodeURIComponent s) = true.
Proof.
  induction s as [|c s IH]; simpl; [reflexivity|].
  now rewrite allUnits_app, encodeUnit_encoded, IH.
Qed.

Lemma encodeURIComponent_without (sep : ascii) (s : string) :
  isEncoded sep = false ->
  allUnits (fun c => negb (Ascii.eqb c sep)) (Url.encodeURIComponent s) = true.
Proof.
  intros Hsep. apply (allUnits_impl isEncoded); [|apply encodeURIComponent_encoded].
  intros c Hc. apply negb_true_iff, Ascii.eqb_neq. intros ->. congruence.
Qed.

Lemma cutAt_absent (sep : ascii) (s : string) :
  allUnits (fun c => negb (Ascii.eqb c sep)) s = true -> Url.cutAt sep s = (s, None).
Proof.
  induction s as [|c s IH]; simpl; [reflexivity|].
  rewrite andb_true_iff, negb_true_iff. intros [-> H]. now rewrite (IH H).
Qed.

Lemma splitOn_absent (sep : ascii) (s : string) :
  allUnits (fun c => negb (Ascii.eqb c sep)) s = true -> Url.splitOn sep s = [s].
Proof.
  induction s as [|c s IH]; simpl; [reflexivity|].
  rewrite andb_true_iff, negb_true_iff. intros [-> H]. now rewrite (IH H).
Qed.

(** A URL made of [/search?query=] and an encoded value has one
    parameter. *)
Lemma queryPairs_single (value : string) :
  Url.pathOf ("/search?query=" +:+ Url.encodeURIComponent value) = "/search"
  /\ Url.queryPairs ("/search?query=" +:+ Url.encodeURIComponent value)
     = [("query", Url.encodeURIComponent value)].
Proof.
  split; [reflexivity|].
  unfold Url.queryPairs.
  change (Url.cutAt "?" ("/search?query=" +:+ Url.encodeURIComponent value))
    with ("/search", Some ("query=" +:+ Url.encodeURIComponent value)).
  cbn [snd].
  assert (Hcut : forall sep, isEncoded sep = false -> Ascii.eqb "q" sep = false ->
            Ascii.eqb "u" sep = false -> Ascii.eqb "e" sep = false ->
            Ascii.eqb "r" sep = false -> Ascii.eqb "y" sep = false ->
            Ascii.eqb "=" sep = false ->
            allUnits (fun c => negb (Ascii.eqb c sep))
              ("query=" +:+ Url.encodeURIComponent value) = true).
  { intros sep H Hq Hu He Hr Hy Heq. cbn [String.append allUnits].
    rewrite Hq, Hu, He, Hr, Hy, Heq. simpl.
    now apply encodeURIComponent_without. }
  rewrite (cutAt_absent "#") by (apply Hcut; reflexivity). cbn [fst].
  rewrite (splitOn_absent "&") by (apply Hcut; reflexivity).
  reflexivity.
Qed.

End EncodeFacts.

(** ** Decoding what was encoded *)

Lemma decode_encodeUnit (c : ascii) (rest : string) :
  Url.decodeURIComponent (Url.encodeUnit c +:+ rest)
  = String c <$> Url.decodeURIComponent rest.
Proof. destruct c as [[] [] [] [] [] [] [] []]; reflexivity. Qed.

Lemma decode_encodeURIComponent (s : string) :
  Url.decodeURIComponent (Url.encodeURIComponent s) = Some s.
Proof.
  induction s as [|c s IH]; [reflexivity|].
  cbn [Url.encodeURIComponent]. now rewrite decode_encodeUnit, IH.
Qed.

(** ** Submitting the search form *)

(** C8: a submitted query that is empty or all white space changes nothing
    and navigates nowhere; any other query navigates once, to the search
    page with the query trimmed of the white space at its two ends and
    percent-encoded (the only parameter of the target, which decodes to
    the trimmed query), and closes the suggestion list. *)
Theorem handleSubmit_navigation (w : World SearchForm.State) :
  let q := SearchForm.query (comp w) in
  let target := "/search?query=" +:+ Url.encodeURIComponent (JsString.trim q) in
  (JsString.allUnits JsString.isWhiteSpace q = true ->
   SearchForm.handleSubmit w = (Normal tt, w))
  /\ (JsString.allUnits JsString.isWhiteSpace q = false ->
      SearchForm.handleSubmit w =
      (Normal tt,
       mkWorld (SearchForm.mkState q (SearchForm.suggestions (comp w)) false
                  (SearchForm.isLoading (comp w)))
               (requests w) (pushed w ++ [target]))
      /\ (exists l r,
            q = l +:+ JsString.trim q +:+ r
            /\ JsString.allUnits JsString.isWhiteSpace l = true
            /\ JsString.allUnits JsString.isWhiteSpace r = true)
      /\ (forall c rest, JsString.trim q = String c rest -> JsString.isWhiteSpace c = false)
      /\ (forall front c, JsString.trim q = front +:+ String c "" ->
          JsString.isWhiteSpace c = false)
      /\ Url.queryPairs target = [("query", Url.encodeURIComponent (JsString.trim q))]
      /\ Url.decodeURIComponent (Url.encodeURIComponent (JsString.trim q))
         = Some (JsString.trim q)).
Proof.
  intros q target. subst q target. split.
  - intros Hws. apply trim_empty in Hws. form_unfold. simpl. rewrite Hws.
    destruct w as [[] ? ?]; reflexivity.
  - intros Hws.
    assert (Ht : JsString.truthy (JsString.trim (SearchForm.query (comp w))) = true).
    { apply truthy_true. intros E. apply trim_empty in E. congruence. }
    split; [|split; [|split; [|split; [|split]]]].
    + form_unfold. simpl. now rewrite Ht.
    + apply trim_decompose.
    + apply trim_ends.
    + apply trim_ends.
    + apply queryPairs_single.
    + apply decode_encodeURIComponent.
Qed.

Lemma handleSubmit_navigation_witness :
  pushed (snd (SearchForm.handleSubmit typedPadded))
  = ["/search?query=New%20York%201950s"].
Proof.
  rewrite (proj1 (proj2 (handleSubmit_navigation typedPadded) eq_refl)).
  reflexivity.
Defined.

(** ** Resetting the filters *)

(** C9: the reset empties the five filter fields, sets the sort order to
    "relevance", sends nothing, and navigates once, to a URL of the search
    page whose only parameter is [query]; its value is the encoded query of
    the panel's props, which decodes to that query. *)
Theorem resetFilters_only_query (p : FilterPanel.Props) (w : World FilterPanel.State) :
  FilterPanel.resetFilters p w =
  (Normal tt,
   mkWorld (FilterPanel.mkState "" "" "" "" "" "relevance")
           (requests w) (pushed w ++ [FilterPanel.resetUrl p]))
  /\ Url.pathOf (FilterPanel.resetUrl p) = "/search"
  /\ Url.queryPairs (FilterPanel.resetUrl p)
     = [("query", Url.encodeURIComponent (FilterPanel.query p))]
  /\ Url.decodeURIComponent (Url.encodeURIComponent (FilterPanel.query p))
     = Some (FilterPanel.query p).
Proof.
  split; [reflexivity|]. split; [apply queryPairs_single|].
  split; [apply queryPairs_single | apply decode_encodeURIComponent].
Qed.

(** ** The search page *)

(** C10: a page loaded without a [query] parameter, or with an empty one,
    is the prompt screen: it mounts no result list, hence no search effect;
    and the search effect itself, run with an empty query, returns at once
    without sending anything or changing the state.  A missing [page]
    parameter gives page 1 and a missing [sort_by] gives "relevance". *)
Theorem SearchPage_without_query parseInt parseFloat env net
    (params : gmap string ParamValue) :
  (params !! "query" = None \/ params !! "query" = Some (PString "") ->
   SearchPage parseInt parseFloat params = PromptScreen ""
   /\ searchEffect env net (SearchPage parseInt parseFloat params) = None)
  /\ (forall p w, query p = "" ->
      fetchResults env net p w = (Normal tt, w)
      /\ requests (snd (fetchResults env net p w)) = requests w)
  /\ (params !! "page" = None -> page (pageProps parseInt parseFloat params) = Num 1)
  /\ (params !! "sort_by" = None ->
      sortByOf (pageProps parseInt parseFloat params) = "relevance").
Proof.
  split; [|split].
  - intros Hq.
    assert (E : query (pageProps parseInt parseFloat params) = "").
    { unfold pageProps, stringParam. cbn [query]. now destruct Hq as [-> | ->]. }
    assert (Ev : SearchPage parseInt parseFloat params = PromptScreen "").
    { unfold SearchPage. now rewrite E. }
    rewrite Ev. split; reflexivity.
  - intros p w E. now rewrite fetchResults_empty_query.
  - unfold pageProps, sortByOf, stringParam. cbn [page sortBy].
    split; now intros ->.
Qed.

Lemma SearchPage_without_query_witness :
  SearchPage parseDigits parseDigits (<["year_min" := PString "1900"]> ∅)
  = PromptScreen "".
Proof.
  apply (proj1 (SearchPage_without_query parseDigits parseDigits None offline
                  (<["year_min" := PString "1900"]> ∅))).
  left. reflexivity.
Defined.

(** ** Pagination *)

(** Which links a page of results shows, and where they lead. *)
Lemma pagination_links p s v :
  render p s = Some (ResultsView v) ->
  exists t rs,
    total s = VNum t /\ results s = VArr rs
    /\ (JsNumber.gtb t (Num 0) = false -> pagination v = None)
    /\ (JsNumber.gtb t (Num 0) = true ->
        exists nav,
          pagination v = Some nav
          /\ currentPage nav = page p
          /\ previousLink nav =
             (if JsNumber.gtb (page p) (Num 1)
              then Some (pageHref p (JsNumber.sub (page p) (Num 1))) else None)
          /\ nextLink nav =
             (if (20 <=? length rs)%nat
              then Some (pageHref p (JsNumber.add (page p) (Num 1))) else None)).
Proof.
  intros Hv. apply render_results in Hv as (_ & _ & t & rs & Ht & Hr & ->).
  exists t, rs. split; [assumption|]. split; [assumption|]. cbn [pagination].
  split; intros ->; [reflexivity|].
  eexists. split; [reflexivity|]. cbn [paginationNav currentPage previousLink nextLink].
  split; [reflexivity|]. split; [reflexivity|].
  unfold JsNumber.geb, JsNumber.ofNat.
  destruct (Nat.leb_spec 20 (length rs)); destruct (Z.leb_spec 20 (Z.of_nat (length rs)));
    (reflexivity || lia).
Qed.

(** C7 at that page: the request of the page carries [price_min=0] and the
    filter panel lists the minimum price 0 among the active filters, but
    the Next link has no [price_min], and the page it leads to has no
    minimum price. *)
Theorem pagination_drops_zero_price_filter :
  pageProps parseDigits parseDigits zeroPriceParams = zeroPriceProps
  /\ searchUrl None zeroPriceProps
     = "http://localhost:9001/api/search?query=paris&page=1&price_min=0&sort_by=relevance"
  /\ FilterPanel.activeFilterChips (FilterPanel.initialState (filterPropsOf zeroPriceProps))
     = ["Price Min: $0"]
  /\ render zeroPriceProps fullFirstPage
     = Some (ResultsView
         {| banner := None;
            cards := replicate 20 (VObj ∅);
            pagination :=
              Some {| previousLink := None;
                      currentPage := Num 1;
                      nextLink := Some nextOfZeroPrice |} |})
  /\ Url.queryPairs nextOfZeroPrice
     = [("query", "paris"); ("page", "2"); ("sort_by", "relevance")]
  /\ priceMin (pageProps parseDigits parseDigits
                 (<["query" := PString "paris"]>
                  (<["page" := PString "2"]>
                   (<["sort_by" := PString "relevance"]> ∅)))) = None.
Proof.
  repeat split; vm_compute; reflexivity.
Qed.


(** * Further properties *)

(** ** Query strings *)

Section QueryStringFacts.
Import JsString.

Lemma append_assoc (a b c : string) : (a +:+ b) +:+ c = a +:+ b +:+ c.
Proof. induction a as [|x a IH]; simpl; [reflexivity | now rewrite IH]. Qed.

Lemma append_empty_r (a : string) : a +:+ "" = a.
Proof. induction a as [|x a IH]; simpl; [reflexivity | now rewrite IH]. Qed.

Lemma isPlain_app (s t : string) : isPlain (s +:+ t) = isPlain s && isPlain t.
Proof. apply allUnits_app. Qed.

Lemma isPlainUnit_neq (c sep : ascii) :
  isPlainUnit sep = false -> isPlainUnit c = true -> Ascii.eqb c sep = false.
Proof.
  intros Hs Hc. apply Ascii.eqb_neq. intros ->. congruence.
Qed.

Lemma isPlain_without (sep : ascii) (s : string) :
  isPlainUnit sep = false -> isPlain s = true ->
  allUnits (fun c => negb (Ascii.eqb c sep)) s = true.
Proof.
  intros Hs. apply allUnits_impl. intros c Hc.
  now rewrite (isPlainUnit_neq c sep Hs Hc).
Qed.

Lemma cutAt_app_sep (sep : ascii) (a b : string) :
  allUnits (fun c => negb (Ascii.eqb c sep)) a = true ->
  Url.cutAt sep (a +:+ String sep b) = (a, Some b).
Proof.
  induction a as [|c a IH]; simpl.
  - intros _. now rewrite Ascii.eqb_refl.
  - rewrite andb_true_iff, negb_true_iff. intros [-> H]. now rewrite (IH H).
Qed.

Lemma splitOn_nonnil (sep : ascii) (s : string) : Url.splitOn sep s <> [].
Proof.
  destruct s as [|c s]; simpl; [discriminate|].
  destruct (Ascii.eqb c sep); [discriminate|].
  destruct (Url.splitOn sep s); discriminate.
Qed.

Lemma splitOn_app_sep (sep : ascii) (a b : string) :
  allUnits (fun c => negb (Ascii.eqb c sep)) a = true ->
  Url.splitOn sep (a +:+ String sep b) = a :: Url.splitOn sep b.
Proof.
  induction a as [|c a IH]; simpl.
  - intros _. now rewrite Ascii.eqb_refl.
  - rewrite andb_true_iff, negb_true_iff. intros [-> H]. now rewrite (IH H).
Qed.

Lemma isPlain_pair (k v : string) :
  isPlain k = true -> isPlain v = true ->
  forall sep, isPlainUnit sep = false -> Ascii.eqb "=" sep = false ->
  allUnits (fun c => negb (Ascii.eqb c sep)) (k +:+ "=" +:+ v) = true.
Proof.
  intros Hk Hv sep Hs He. rewrite allUnits_app. cbn [String.append allUnits].
  rewrite He, (isPlain_without sep k Hs Hk), (isPlain_without sep v Hs Hv).
  reflexivity.
Qed.

Lemma joinPairs_without (sep : ascii) (ps : list (string * string)) :
  plainPairs ps -> isPlainUnit sep = false ->
  Ascii.eqb "=" sep = false -> Ascii.eqb "&" sep = false ->
  allUnits (fun c => negb (Ascii.eqb c sep)) (joinPairs ps) = true.
Proof.
  intros Hp Hs He Ha. induction Hp as [|[k v] ps [Hk Hv] Hps IH]; [reflexivity|].
  cbn [fst snd] in *. destruct ps as [|kv ps].
  - now apply isPlain_pair.
  - change (joinPairs ((k, v) :: kv :: ps))
      with (k +:+ "=" +:+ v +:+ "&" +:+ joinPairs (kv :: ps)).
    replace (k +:+ "=" +:+ v +:+ "&" +:+ joinPairs (kv :: ps))
      with ((k +:+ "=" +:+ v) +:+ String "&" (joinPairs (kv :: ps))).
    + rewrite allUnits_app, (isPlain_pair k v Hk Hv sep Hs He).
      cbn [allUnits]. now rewrite Ha, IH.
    + now rewrite !append_assoc.
Qed.

Lemma splitOn_joinPairs (ps : list (string * string)) :
  plainPairs ps -> ps <> [] ->
  Url.splitOn "&" (joinPairs ps) = map (fun kv => fst kv +:+ "=" +:+ snd kv) ps.
Proof.
  intros Hp. induction Hp as [|[k v] ps [Hk Hv] Hps IH]; [congruence|].
  intros _. cbn [fst snd] in *. destruct ps as [|kv ps].
  - cbn [joinPairs map fst snd]. apply splitOn_absent.
    now apply isPlain_pair.
  - change (joinPairs ((k, v) :: kv :: ps))
      with (k +:+ "=" +:+ v +:+ "&" +:+ joinPairs (kv :: ps)).
    replace (k +:+ "=" +:+ v +:+ "&" +:+ joinPairs (kv :: ps))
      with ((k +:+ "=" +:+ v) +:+ String "&" (joinPairs (kv :: ps)))
      by now rewrite !append_assoc.
    rewrite splitOn_app_sep by now apply isPlain_pair.
    rewrite IH by discriminate. reflexivity.
Qed.

Lemma piece_truthy (k v : string) : truthy (k +:+ "=" +:+ v) = true.
Proof. now destruct k. Qed.

(** Joined pairs read back as they were. *)
Lemma parseSearch_joinPairs (ps : list (string * string)) :
  plainPairs ps -> parseSearch (joinPairs ps) = ps.
Proof.
  intros Hp. unfold parseSearch.
  rewrite cutAt_absent by now apply joinPairs_without.
  cbn [fst]. destruct ps as [|kv0 ps0]; [reflexivity|].
  rewrite splitOn_joinPairs by (assumption || discriminate).
  induction Hp as [|[k v] ps [Hk Hv] Hps IH]; [reflexivity|].
  cbn [map List.filter fst snd] in *. rewrite piece_truthy. cbn [map]. cbv beta.
  change (k +:+ "=" +:+ v) with (k +:+ String "=" v).
  rewrite (cutAt_app_sep "=" k v) by now apply isPlain_without.
  cbn [default]. now rewrite IH.
Qed.

End QueryStringFacts.

Section FormEncodingFacts.
Import JsString.

Lemma plusToSpace_app (a b : string) :
  plusToSpace (a +:+ b) = plusToSpace a +:+ plusToSpace b.
Proof. induction a as [|c a IH]; simpl; [reflexivity | now rewrite IH]. Qed.

Lemma formDecode_formUnit (c : ascii) (rest : string) :
  Url.decodeURIComponent (plusToSpace (Url.formUnit c) +:+ rest)
  = String c <$> Url.decodeURIComponent rest.
Proof. destruct c as [[] [] [] [] [] [] [] []]; reflexivity. Qed.

(** Form decoding undoes form encoding. *)
Lemma formDecode_formEncode (s : string) : formDecode (Url.formEncode s) = Some s.
Proof.
  unfold formDecode. induction s as [|c s IH]; [reflexivity|].
  cbn [Url.formEncode]. now rewrite plusToSpace_app, formDecode_formUnit, IH.
Qed.

Lemma formUnit_plain (c : ascii) : isPlain (Url.formUnit c) = true.
Proof. destruct c as [[] [] [] [] [] [] [] []]; reflexivity. Qed.

Lemma formEncode_plain (s : string) : isPlain (Url.formEncode s) = true.
Proof.
  induction s as [|c s IH]; [reflexivity|].
  cbn [Url.formEncode]. now rewrite isPlain_app, formUnit_plain, IH.
Qed.

Lemma URLSearchParams_toString_join (ps : URLSearchParams.t) :
  URLSearchParams.toString ps = joinPairs (map encodePair ps).
Proof.
  induction ps as [|[k v] ps IH]; [reflexivity|].
  destruct ps as [|kv ps]; [reflexivity|].
  change (URLSearchParams.toString ((k, v) :: kv :: ps))
    with (Url.formEncode k +:+ "=" +:+ Url.formEncode v +:+ "&"
          +:+ URLSearchParams.toString (kv :: ps)).
  rewrite IH. destruct kv. reflexivity.
Qed.

Lemma encodePairs_plain (ps : URLSearchParams.t) : plainPairs (map encodePair ps).
Proof.
  induction ps as [|[k v] ps IH]; constructor; [|exact IH].
  split; apply formEncode_plain.
Qed.

Lemma decodePairs_encodePairs (ps : URLSearchParams.t) :
  decodePairs formDecode (map encodePair ps) = Some ps.
Proof.
  induction ps as [|[k v] ps IH]; [reflexivity|].
  cbn [map decodePairs encodePair fst snd].
  now rewrite !formDecode_formEncode, IH.
Qed.

(** What [URLSearchParams.toString] writes reads back, pair by pair, as the
    parameters it was given. *)
Lemma URLSearchParams_read_back (ps : URLSearchParams.t) :
  decodePairs formDecode (parseSearch (URLSearchParams.toString ps)) = Some ps.
Proof.
  rewrite URLSearchParams_toString_join, parseSearch_joinPairs
    by apply encodePairs_plain.
  apply decodePairs_encodePairs.
Qed.

End FormEncodingFacts.

(** ** Numbers as text *)

Section NumberTextFacts.
Import JsString.

Lemma string_of_uint_unreserved (d : Decimal.uint) :
  allUnits Url.isUnreserved (NilEmpty.string_of_uint d) = true.
Proof. induction d; simpl; (reflexivity || exact IHd). Qed.

Lemma toString_unreserved (n : number) :
  allUnits Url.isUnreserved (JsNumber.toString n) = true.
Proof.
  destruct n as [|z]; [reflexivity|]. unfold JsNumber.toString.
  destruct (Z.to_int z); simpl; apply string_of_uint_unreserved.
Qed.

Lemma toString_truthy (n : number) : truthy (JsNumber.toString n) = true.
Proof.
  destruct n as [|z]; [reflexivity|]. unfold JsNumber.toString.
  destruct z as [|p|p]; [reflexivity| |reflexivity].
  simpl. pose proof (DecimalPos.Unsigned.to_uint_nonnil p) as H.
  now destruct (Pos.to_uint p).
Qed.

Lemma unreserved_plain (s : string) :
  allUnits Url.isUnreserved s = true -> isPlain s = true.
Proof.
  apply allUnits_impl. intros c.
  destruct c as [[] [] [] [] [] [] [] []]; (reflexivity || discriminate).
Qed.

Lemma encoded_plain (s : string) : allUnits isEncoded s = true -> isPlain s = true.
Proof.
  apply allUnits_impl. intros c.
  destruct c as [[] [] [] [] [] [] [] []]; (reflexivity || discriminate).
Qed.

Lemma plusToSpace_encoded (s : string) :
  allUnits isEncoded s = true -> plusToSpace s = s.
Proof.
  induction s as [|c s IH]; [reflexivity|]. cbn [allUnits plusToSpace].
  rewrite andb_true_iff. intros [Hc Hs]. rewrite (IH Hs). f_equal.
  destruct (Ascii.eqb_spec c "+") as [->|]; [discriminate Hc | reflexivity].
Qed.

Lemma decode_unreserved (s : string) :
  allUnits Url.isUnreserved s = true -> Url.decodeURIComponent s = Some s.
Proof.
  induction s as [|c s IH]; [reflexivity|]. cbn [allUnits].
  rewrite andb_true_iff. intros [Hc Hs]. cbn [Url.decodeURIComponent].
  destruct (Ascii.eqb_spec c "%") as [->|]; [discriminate Hc|].
  now rewrite (IH Hs).
Qed.

Lemma unreserved_encoded (s : string) :
  allUnits Url.isUnreserved s = true -> allUnits isEncoded s = true.
Proof.
  apply allUnits_impl. intros c H. unfold isEncoded. now rewrite H.
Qed.

(** A text of unreserved characters is its own form decoding. *)
Lemma formDecode_unreserved (s : string) :
  allUnits Url.isUnreserved s = true -> formDecode s = Some s.
Proof.
  intros H. unfold formDecode.
  rewrite plusToSpace_encoded by now apply unreserved_encoded.
  now apply decode_unreserved.
Qed.

(** Form decoding also undoes [encodeURIComponent]. *)
Lemma formDecode_encodeURIComponent (s : string) :
  formDecode (Url.encodeURIComponent s) = Some s.
Proof.
  unfold formDecode.
  rewrite plusToSpace_encoded by apply encodeURIComponent_encoded.
  apply decode_encodeURIComponent.
Qed.

End NumberTextFacts.

(** ** The search request *)

(** X1: the query string of the search request reads back to exactly the
    parameters built from the props; no name occurs twice; [query] and
    [page] are always sent, a numeric filter whenever it is defined (0 and
    NaN included), [location] and [sort_by] when they are not empty. *)
Theorem searchUrl_parameters (p : SearchResultsProps) :
  let ps := searchParamsOf p in
  decodePairs formDecode (parseSearch (URLSearchParams.toString ps)) = Some ps
  /\ NoDup (map fst ps)
  /\ lookupPair "query" ps = Some (query p)
  /\ lookupPair "page" ps = Some (JsNumber.toString (page p))
  /\ lookupPair "year_min" ps = JsNumber.toString <$> yearMin p
  /\ lookupPair "year_max" ps = JsNumber.toString <$> yearMax p
  /\ lookupPair "location" ps
     = (if truthyOptString (location p) then location p else None)
  /\ lookupPair "price_min" ps = JsNumber.toString <$> priceMin p
  /\ lookupPair "price_max" ps = JsNumber.toString <$> priceMax p
  /\ lookupPair "sort_by" ps
     = (if JsString.truthy (sortByOf p) then Some (sortByOf p) else None).
Proof.
  intros ps. split; [apply URLSearchParams_read_back|]. subst ps.
  unfold searchParamsOf, appendIf, URLSearchParams.append, URLSearchParams.empty.
  destruct p as [q pg ymin ymax loc pmin pmax sb].
  cbn [query page yearMin yearMax location priceMin priceMax].
  generalize (sortByOf (mkProps q pg ymin ymax loc pmin pmax sb)). intros sort.
  destruct ymin, ymax, loc as [l|], pmin, pmax;
    cbn [truthyOptString default]; try destruct (JsString.truthy l);
    destruct (JsString.truthy sort);
    (split; [apply (bool_decide_unpack _); vm_compute; reflexivity
            | repeat split; reflexivity]).
Qed.

(** X2: [fetchResults] never ends by throwing and never navigates; it sends
    one request, to [searchUrl], when the query is not empty and none
    otherwise; a request leaves [loading] false; a failed request keeps the
    enhanced query of the search before it; the timeout flag is not
    touched. *)
Theorem fetchResults_frame env net p (w : World ResultsState) :
  let w' := snd (fetchResults env net p w) in
  fst (fetchResults env net p w) = Normal tt
  /\ pushed w' = pushed w
  /\ extractionTimeout (comp w') = extractionTimeout (comp w)
  /\ requests w'
     = requests w ++ (if JsString.truthy (query p) then [searchUrl env p] else [])
  /\ (query p = "" -> w' = w)
  /\ (query p <> "" -> loading (comp w') = false)
  /\ (query p <> "" -> successBody (net (searchUrl env p)) = None ->
      enhancedQuery (comp w') = enhancedQuery (comp w)).
Proof.
  intros w'. subst w'. destruct (String.eqb_spec (query p) "") as [E|E].
  - rewrite fetchResults_empty_query by assumption. rewrite E. cbn.
    rewrite app_nil_r. repeat split; congruence.
  - rewrite fetchResults_run by assumption.
    apply truthy_true in E as Et. rewrite Et. unfold afterFetch. cbn [fst snd].
    destruct (successBody _); cbn; repeat split; congruence.
Qed.

Lemma fetchResults_frame_witness :
  loading (comp (snd (fetchResults None offline demoProps
                        (mkWorld initialResultsState [] [])))) = false.
Proof.
  apply (fetchResults_frame None offline demoProps (mkWorld initialResultsState [] [])).
  discriminate.
Defined.

(** ** The life of the result list *)

(** "Loading results..." is what is rendered exactly when [loading] is
    set. *)
Lemma renderScreen_loading {Card} (card : JsValue -> option Card) toNumber p s :
  renderScreen card toNumber p s = Some LoadingScreen <-> loading s = true.
Proof.
  unfold renderScreen. destruct (loading s); [tauto|].
  split; [|discriminate].
  destruct (truthyOptString (error s)); [discriminate|].
  repeat case_match; discriminate.
Qed.

Lemma resumed_requests net k w :
  requests (snd (resumed net k w)) = requests w.
Proof.
  destruct k as [url|r]; unfold resumed.
  - destruct (net url) as [|r]; [reflexivity|]. now destruct (ok r).
  - now destruct (readable r).
Qed.

Lemma resumed_loading net k w :
  loading (comp (snd (resumed net k w)))
  = if endsCall net k then false else loading (comp w).
Proof.
  destruct k as [url|r]; unfold resumed, endsCall, endsInCatch.
  - destruct (net url) as [|r]; [reflexivity|]. now destruct (ok r).
  - now destruct (readable r).
Qed.

Section LifeFacts.
Variable env : option string.
Variable net : string -> FetchOutcome.

Lemma step_loadingInv m e m' :
  loadingInv m -> step env net m e = Some m' -> loadingInv m'.
Proof.
  intros [Hsent Hup] Hs. destruct e.
  - simpl in Hs. destruct (0 <=? ms); [|discriminate]. injection Hs as <-.
    split; assumption.
  - simpl in Hs. destruct (timer m) as [due|]; [|discriminate].
    destruct (due <=? clock m); [|discriminate]. injection Hs as <-.
    split; assumption.
  - simpl in Hs. injection Hs as <-. unfold loadingInv. cbn [world inflight].
    destruct (String.eqb_spec (query p) "") as [E|E].
    + rewrite fetchResults_empty_query by assumption. split; assumption.
    + rewrite fetchResults_run by assumption. unfold afterFetch.
      destruct (successBody _); cbn [snd requests comp loading];
        (split; [intros H; now apply app_eq_nil in H | discriminate]).
  - simpl in Hs. injection Hs as <-. split; assumption.
  - rewrite step_starts in Hs. injection Hs as <-.
    destruct (JsString.truthy (query p)); unfold loadingInv; cbn [world inflight].
    + unfold afterBegin. cbn [requests].
      split; [intros H; now apply app_eq_nil in H|].
      intros _. right. intros H. now apply app_eq_nil in H.
    + rewrite app_nil_r. split; assumption.
  - destruct (inflight m !! i) as [k|] eqn:Ek;
      [|simpl in Hs; rewrite Ek in Hs; discriminate Hs].
    rewrite (step_resumes _ _ _ _ _ Ek) in Hs. injection Hs as <-.
    assert (Hne : requests (world m) <> []).
    { intros H. destruct (Hsent H) as [Hnil _]. rewrite Hnil in Ek. discriminate Ek. }
    unfold loadingInv. cbn [world inflight].
    rewrite resumed_requests, resumed_loading.
    split; [intros H; contradiction|].
    destruct (endsCall net k) eqn:Eend; [discriminate|].
    intros _. right.
    assert (Hfst : fst (resumed net k (world m)) <> None).
    { rewrite resumed_ends, Eend. discriminate. }
    destruct (fst (resumed net k (world m))) as [k'|]; [|contradiction].
    intros H. apply (f_equal length) in H. rewrite length_insert in H.
    apply lookup_lt_Some in Ek. simpl in H. lia.
Qed.

Lemma run_loadingInv evs : forall m m',
  loadingInv m -> run env net m evs = Some m' -> loadingInv m'.
Proof.
  induction evs as [|e evs IH]; intros m m' Hi Hr; simpl in Hr.
  - now injection Hr as <-.
  - destruct (step env net m e) as [m1|] eqn:Es; [|discriminate].
    eapply IH; [|exact Hr]. eapply step_loadingInv; eassumption.
Qed.

End LifeFacts.

(** X3: a mounted result list shows "Loading results..." as long as no
    request has been sent; it shows it again when a request starts; it
    stops showing it when a request ends, also when another request is
    still in flight; and it does not show it when requests have been sent
    and none is in flight. *)
Theorem loading_while_in_flight {Card} (card : JsValue -> option Card) toNumber
    env net (evs : list Event) (m : Mounted) p :
  run env net mount evs = Some m ->
  (requests (world m) = [] ->
   renderScreen card toNumber p (comp (world m)) = Some LoadingScreen)
  /\ (requests (world m) <> [] -> inflight m = [] ->
      renderScreen card toNumber p (comp (world m)) <> Some LoadingScreen)
  /\ (forall q m',
      query q <> "" -> step env net m (RequestStarts q) = Some m' ->
      renderScreen card toNumber p (comp (world m')) = Some LoadingScreen)
  /\ (forall i k m',
      inflight m !! i = Some k -> endsCall net k = true ->
      step env net m (RequestResumes i) = Some m' ->
      renderScreen card toNumber p (comp (world m')) <> Some LoadingScreen).
Proof.
  intros Hr.
  assert (Hinv : loadingInv m).
  { eapply run_loadingInv; [|exact Hr]. split; [now split | now left]. }
  destruct Hinv as [Hsent Hup].
  split; [|split; [|split]].
  - intros H. apply renderScreen_loading. now apply Hsent.
  - intros Hne Hnil. rewrite renderScreen_loading. intros Hl.
    destruct (Hup Hl); contradiction.
  - intros q m' Hq Hs. rewrite step_starts, (proj2 (truthy_true _) Hq) in Hs.
    injection Hs as <-. now apply renderScreen_loading.
  - intros i k m' Hk Hend Hs. rewrite (step_resumes _ _ _ _ _ Hk) in Hs.
    injection Hs as <-. rewrite renderScreen_loading. cbn [world].
    rewrite resumed_loading, Hend. discriminate.
Qed.

Lemma loading_while_in_flight_witness :
  exists m m',
    run None parisFails mount [RequestStarts demoProps; RequestStarts romeProps] = Some m
    /\ step None parisFails m (RequestResumes 0) = Some m'
    /\ inflight m' = [AwaitingFetch (searchUrl None romeProps)]
    /\ renderScreen (typedCard false) digitsToNumber romeProps (comp (world m'))
       <> Some LoadingScreen.
Proof.
  eexists. eexists. split; [vm_compute; reflexivity|].
  split; [vm_compute; reflexivity|]. split; [reflexivity|].
  apply (proj2 (proj2 (proj2
    (loading_while_in_flight (typedCard false) digitsToNumber None parisFails
       [RequestStarts demoProps; RequestStarts romeProps] _ romeProps
       ltac:(vm_compute; reflexivity))))
       0%nat (AwaitingFetch (searchUrl None demoProps)));
    vm_compute; reflexivity.
Defined.

(** X4: the extraction timer fires at most once and not after the cleanup:
    in every run from the mount, no timer callback runs after an earlier
    one or after the unmount. *)
Theorem timer_fires_once env net (evs : list Event) (m : Mounted) :
  run env net mount evs = Some m ->
  forall before e after,
    evs = before ++ e :: after -> e = TimerFires \/ e = Unmount ->
    ~ In TimerFires after.
Proof.
  intros Hr before e after -> He.
  rewrite run_app in Hr. destruct (run env net mount before) as [m1|]; [|discriminate].
  simpl in Hr. destruct (step env net m1 e) as [m2|] eqn:Es; [|discriminate].
  pose proof (step_disarmed env net _ _ _ Es) as Hd.
  assert (Ht : timer m2 = None) by (destruct He as [-> | ->]; exact Hd).
  exact (proj1 (run_disarmed env net _ _ _ Ht Hr)).
Qed.

Lemma timer_fires_once_witness :
  ~ In TimerFires [Elapse 5000; EffectRuns demoProps].
Proof.
  apply (timer_fires_once None offline
           [Elapse 10000; TimerFires; Elapse 5000; EffectRuns demoProps] _ eq_refl
           [Elapse 10000] TimerFires [Elapse 5000; EffectRuns demoProps] eq_refl).
  now left.
Defined.

Lemma afterBody_afterBegin env net p w data :
  successBody (net (searchUrl env p)) = Some data ->
  afterBody data (afterBegin env p w) = afterFetch env net p w.
Proof. intros H. unfold afterFetch. now rewrite H. Qed.



(** ** What a card shows of the extracted text *)

Lemma standardize_none_iff (s : string) :
  standardizeTextDisplay (TStr s) = "none"
  <-> s = "" \/ mentionsNoText s \/ (String.length s < 5)%nat.
Proof.
  unfold standardizeTextDisplay. rewrite mentionsNoText_existsb.
  destruct (String.eqb_spec s "") as [->|Hne]; [tauto|].
  destruct (existsb _ noTextPhrases); [tauto|].
  destruct (Nat.ltb_spec (String.length s) 5) as [Hlt|Hge]; [tauto|].
  split.
  - intros ->. simpl in Hge. lia.
  - intros [H | [H | H]]; [contradiction | discriminate | lia].
Qed.

Lemma standardize_text_iff (s : string) :
  standardizeTextDisplay (TStr s) = s
  <-> s = "none" \/ (~ mentionsNoText s /\ (5 <= String.length s)%nat).
Proof.
  destruct (String.eqb_spec s "none") as [->|Hn]; [split; [now left | reflexivity]|].
  split.
  - intros H. right.
    assert (Hno : standardizeTextDisplay (TStr s) <> "none") by congruence.
    rewrite standardize_none_iff in Hno. split; [tauto | lia].
  - intros [->|[Hm Hl]]; [reflexivity|].
    destruct (standardize_string s) as [E|E]; [|exact E].
    apply standardize_none_iff in E. destruct E as [-> | [E | E]];
      [simpl in Hl; lia | contradiction | lia].
Qed.

(** X5: what the text panel of a card shows.  The text itself is shown
    only for a text of at least 5 code units that contains none of the
    phrases and is not the word "extracting"; the indicator is shown only
    before the timeout, for a missing text or for the word "extracting". *)
Theorem text_panel_cases (timeout : bool) (text : OptText) :
  let shown := renderExtractedText timeout (standardizeTextDisplay text) in
  (forall s, shown = ExtractedText s
             <-> text = TStr s /\ (5 <= String.length s)%nat
                 /\ ~ mentionsNoText s /\ s <> "extracting")
  /\ (shown = ExtractingIndicator
      <-> timeout = false /\ (text = TUndefined \/ text = TStr "extracting")).
Proof.
  intros shown. subst shown. rewrite renderExtractedText_cases.
  destruct text as [| |t];
    [cbn [standardizeTextDisplay String.eqb Ascii.eqb Bool.eqb]
    |cbn [standardizeTextDisplay String.eqb Ascii.eqb Bool.eqb]|].
  - split; [intros s; split; [destruct timeout; discriminate | intros [H _]; discriminate H]|].
    destruct timeout; split; (discriminate || tauto || intros [H _]; discriminate H).
  - split; [intros s; split; [discriminate | intros [H _]; discriminate H]|].
    split; [discriminate | intros [_ [H|H]]; discriminate H].
  - destruct (standardize_string t) as [E|E]; rewrite E.
    + cbn [String.eqb Ascii.eqb Bool.eqb]. apply standardize_none_iff in E.
      split; [intros s; split; [discriminate|]|].
      * intros ([= ->] & Hl & Hm & _). destruct E as [-> | [E | E]];
          [simpl in Hl; lia | contradiction | lia].
      * split; [discriminate|]. intros [_ [H | [= ->]]]; [discriminate H|].
        destruct E as [E | [E | E]];
          [discriminate E | apply mentionsNoText_existsb in E; discriminate E
          | simpl in E; lia].
    + destruct (String.eqb_spec t "extracting") as [->|Hne].
      * split; [intros s; split; [destruct timeout; discriminate|]|].
        -- intros ([= <-] & _ & _ & H). now contradiction H.
        -- destruct timeout; split; (discriminate || tauto || intros [H _]; discriminate H).
      * apply standardize_text_iff in E.
        destruct (String.eqb_spec t "none") as [->|Hnn].
        -- split; [intros s; split; [discriminate|]|].
           ++ intros ([= <-] & Hl & _). simpl in Hl. lia.
           ++ split; [discriminate | intros [_ [H | H]]; discriminate H].
        -- destruct E as [->|[Hm Hl]]; [contradiction|].
           split; [intros s; split|].
           ++ intros [= <-]. tauto.
           ++ now intros ([= <-] & _).
           ++ split; [discriminate|].
              intros [_ [H | H]]; [discriminate H | injection H as ->; contradiction].
Qed.

(** X6: the classifier looks at a text only through its length and its
    lowercase form: two texts of the same length that differ only in the
    case of their letters are both "none" or both shown. *)
Theorem classification_ignores_case (s1 s2 : string) :
  JsString.toLowerCase s1 = JsString.toLowerCase s2 ->
  String.length s1 = String.length s2 ->
  (standardizeTextDisplay (TStr s1) = "none"
   <-> standardizeTextDisplay (TStr s2) = "none").
Proof.
  intros Hlower Hlen. rewrite !standardize_none_iff. unfold mentionsNoText.
  rewrite Hlower, Hlen.
  assert (Hempty : s1 = "" <-> s2 = "").
  { destruct s1, s2; simpl in Hlen; split; (reflexivity || discriminate). }
  now rewrite Hempty.
Qed.

Lemma classification_ignores_case_witness :
  standardizeTextDisplay (TStr "Unable To Extract the writing") = "none".
Proof.
  apply (classification_ignores_case "Unable To Extract the writing"
           "UNABLE TO EXTRACT THE WRITING" eq_refl eq_refl).
  reflexivity.
Defined.

Lemma render_after_timeout (status : string) :
  renderExtractedText true status <> ExtractingIndicator.
Proof.
  rewrite renderExtractedText_cases. repeat case_match; discriminate.
Qed.

Lemma Forall_imap_intro {A B} (P : B -> Prop) (f : nat -> A -> B) (l : list A) :
  (forall i x, P (f i x)) -> Forall P (imap f l).
Proof.
  revert f. induction l as [|x l IH]; intros f H; simpl; constructor.
  - apply H.
  - apply IH. intros i y. apply H.
Qed.

(** X7: the panels of a card.  There is one front panel, one back panel
    when the result has additional images, and one panel for every
    additional text but the first; after the timeout no panel of any card
    shows the extracting indicator. *)
Theorem cardTextPanels_shape (timeout : bool) (r : SearchResult) :
  length (cardTextPanels timeout r)
  = (1 + (match additional_images r with Some (_ :: _) => 1 | _ => 0 end)
       + (match additional_image_text r with
          | Some texts => if (2 <=? length texts)%nat then length texts - 1 else 0
          | None => 0
          end))%nat
  /\ (exists front, cardTextPanels timeout r !! 0%nat = Some ("Front:", front))
  /\ Forall (fun labelled => snd labelled <> ExtractingIndicator) (cardTextPanels true r).
Proof.
  unfold cardTextPanels. split; [|split].
  - rewrite !length_app. cbn [length].
    destruct (additional_images r) as [[|? ?]|];
      destruct (additional_image_text r) as [[|? [|? ?]]|];
      cbn [length]; rewrite ?length_imap; cbn [length Nat.leb]; lia.
  - eexists. reflexivity.
  - repeat apply Forall_app_2.
    + constructor; [apply render_after_timeout | constructor].
    + destruct (additional_images r) as [[|? ?]|]; repeat constructor.
      apply render_after_timeout.
    + destruct (additional_image_text r) as [[|? [|? ?]]|]; try constructor.
      * apply render_after_timeout.
      * apply Forall_imap_intro. intros i x. apply render_after_timeout.
Qed.

(** ** The suggestion request, whatever its outcome *)

Lemma fetchSuggestions_sent env net (w : World SearchForm.State) :
  let q := SearchForm.query (comp w) in
  (2 <= String.length q)%nat ->
  SearchForm.fetchSuggestions env net w =
  (Normal tt,
   mkWorld (SearchForm.mkState q
              (match successBody (net (SearchForm.suggestUrl env q)) with
               | Some data => Js.or (field data "suggestions") (VArr [])
               | None => Js.strings (SearchForm.mockSuggestions q)
               end)
              (SearchForm.showSuggestions (comp w)) false)
           (requests w ++ [SearchForm.suggestUrl env q]) (pushed w)).
Proof.
  intros q Hlen. subst q.
  destruct (successBody (net (SearchForm.suggestUrl env (SearchForm.query (comp w)))))
    as [data|] eqn:Hs.
  - apply successBody_Some in Hs as (r & Ho & Hok & Hb & Hn & Hu).
    apply Nat.ltb_ge in Hlen. form_unfold. simpl. rewrite Hlen. simpl.
    rewrite Ho. simpl. rewrite Hok, Hb. simpl. unfold field.
    destruct data; try congruence; reflexivity.
  - now apply fetchSuggestions_failed.
Qed.

(** X8: [fetchSuggestions] never ends by throwing, never navigates and
    leaves the query and the open/closed state of the list alone.  For a
    query of at least two code units it sends one request, ends with the
    spinner off, and leaves [data.suggestions || []] when the answer is OK
    and readable, the five local suggestions in every other case (an OK
    answer whose body cannot be read included); for a shorter query it
    sends nothing and only empties the list. *)
Theorem fetchSuggestions_outcome env net (w : World SearchForm.State) :
  let q := SearchForm.query (comp w) in
  let url := SearchForm.suggestUrl env q in
  let w' := snd (SearchForm.fetchSuggestions env net w) in
  fst (SearchForm.fetchSuggestions env net w) = Normal tt
  /\ pushed w' = pushed w
  /\ SearchForm.query (comp w') = q
  /\ SearchForm.showSuggestions (comp w') = SearchForm.showSuggestions (comp w)
  /\ ((String.length q < 2)%nat ->
      requests w' = requests w
      /\ SearchForm.isLoading (comp w') = SearchForm.isLoading (comp w)
      /\ SearchForm.suggestions (comp w') = VArr [])
  /\ ((2 <= String.length q)%nat ->
      requests w' = requests w ++ [url]
      /\ SearchForm.isLoading (comp w') = false
      /\ (forall data, successBody (net url) = Some data ->
          SearchForm.suggestions (comp w') = Js.or (field data "suggestions") (VArr []))
      /\ (successBody (net url) = None ->
          SearchForm.suggestions (comp w')
          = Js.strings (SearchForm.mockSuggestions q))).
Proof.
  intros q url w'. subst q url w'.
  destruct (Nat.ltb_spec (String.length (SearchForm.query (comp w))) 2) as [Hlt|Hge].
  - assert (E : SearchForm.fetchSuggestions env net w =
                (Normal tt,
                 mkWorld (SearchForm.mkState (SearchForm.query (comp w)) (VArr [])
                            (SearchForm.showSuggestions (comp w))
                            (SearchForm.isLoading (comp w)))
                         (requests w) (pushed w))).
    { apply Nat.ltb_lt in Hlt. form_unfold. simpl. now rewrite Hlt. }
    rewrite E. cbn. repeat split; try reflexivity; intros; lia.
  - rewrite fetchSuggestions_sent by assumption. cbn.
    repeat split; try reflexivity; try (intros; lia).
    + intros data ->. reflexivity.
    + intros ->. reflexivity.
Qed.

Lemma fetchSuggestions_outcome_witness :
  SearchForm.suggestions
    (comp (snd (SearchForm.fetchSuggestions None garbledNet typedParis)))
  = Js.strings (SearchForm.mockSuggestions "paris").
Proof.
  destruct (fetchSuggestions_outcome None garbledNet typedParis)
    as (_ & _ & _ & _ & _ & H).
  destruct (H ltac:(simpl; lia)) as (_ & _ & _ & Hnone).
  exact (Hnone eq_refl).
Defined.

(** ** The search form in use *)

Lemma handleSubmit_run (w : World SearchForm.State) :
  SearchForm.handleSubmit w =
  (Normal tt,
   if JsString.truthy (JsString.trim (SearchForm.query (comp w))) then
     mkWorld (SearchForm.mkState (SearchForm.query (comp w))
                (SearchForm.suggestions (comp w)) false
                (SearchForm.isLoading (comp w)))
             (requests w)
             (pushed w ++ ["/search?query=" +:+
                           Url.encodeURIComponent (JsString.trim (SearchForm.query (comp w)))])
   else w).
Proof.
  form_unfold. simpl.
  destruct (JsString.truthy (JsString.trim (SearchForm.query (comp w)))); reflexivity.
Qed.

Lemma fetchSuggestions_logs env net (w : World SearchForm.State) :
  let w' := snd (SearchForm.fetchSuggestions env net w) in
  requests w' = requests w ++ sentBy env (comp w) DebounceFires
  /\ pushed w' = pushed w
  /\ SearchForm.query (comp w') = SearchForm.query (comp w)
  /\ SearchForm.showSuggestions (comp w') = SearchForm.showSuggestions (comp w).
Proof.
  intros w'. subst w'. cbn [sentBy].
  destruct (Nat.leb_spec 2 (String.length (SearchForm.query (comp w)))) as [Hge|Hlt].
  - rewrite fetchSuggestions_sent by assumption. cbn. repeat split.
  - apply Nat.ltb_lt in Hlt. form_unfold. simpl. rewrite Hlt. cbn.
    rewrite app_nil_r. repeat split.
Qed.

Section FormFacts.
Variable env : option string.
Variable net : string -> FetchOutcome.

Lemma formStep_logs m e m' :
  formStep env net m e = Some m' ->
  requests (formWorld m') = requests (formWorld m) ++ sentBy env (comp (formWorld m)) e
  /\ pushed (formWorld m') = pushed (formWorld m) ++ pushedBy (comp (formWorld m)) e.
Proof.
  destruct e; cbn [formStep sentBy pushedBy].
  - destruct (0 <=? ms); [|discriminate]. intros [= <-]. cbn. now rewrite !app_nil_r.
  - intros [= <-]. cbn. now rewrite !app_nil_r.
  - intros [= <-]. cbn. now rewrite !app_nil_r.
  - destruct (debounce m) as [due|]; [|discriminate].
    destruct (due <=? formClock m); [|discriminate]. intros [= <-]. cbn [formWorld].
    destruct (fetchSuggestions_logs env net (formWorld m)) as (Hr & Hp & _).
    rewrite Hr, Hp. now rewrite app_nil_r.
  - intros [= <-]. cbn [formWorld]. rewrite handleSubmit_run. cbn [snd].
    destruct (JsString.truthy _); cbn; now rewrite !app_nil_r.
  - intros [= <-]. cbn. now rewrite !app_nil_r.
  - intros [= <-]. cbn. now rewrite !app_nil_r.
  - intros [= <-]. cbn. now rewrite !app_nil_r.
Qed.

Lemma formStep_clock m e m' :
  formStep env net m e = Some m' ->
  formClock m' = formClock m + elapsed [e] /\ 0 <= elapsed [e].
Proof.
  destruct e; cbn [formStep elapsed];
    try (intros [= <-]; cbn; lia).
  - destruct (Z.leb_spec 0 ms); [|discriminate]. intros [= <-]. cbn. lia.
  - destruct (debounce m) as [due|]; [|discriminate].
    destruct (due <=? formClock m); [|discriminate]. intros [= <-]. cbn. lia.
Qed.

Lemma elapsed_cons e evs : elapsed (e :: evs) = elapsed [e] + elapsed evs.
Proof. destruct e; cbn; lia. Qed.

Lemma elapsed_app a b : elapsed (a ++ b) = elapsed a + elapsed b.
Proof.
  induction a as [|e a IH]; [reflexivity|].
  cbn [app]. rewrite (elapsed_cons e (a ++ b)), (elapsed_cons e a), IH. lia.
Qed.

Lemma formRun_clock evs : forall m m',
  formRun env net m evs = Some m' ->
  formClock m' = formClock m + elapsed evs /\ 0 <= elapsed evs.
Proof.
  induction evs as [|e evs IH]; intros m m' Hr; simpl in Hr.
  - injection Hr as <-. cbn. lia.
  - destruct (formStep env net m e) as [m1|] eqn:Es; [|discriminate].
    destruct (formStep_clock _ _ _ Es) as [Hc He].
    destruct (IH _ _ Hr) as [Hc' He']. rewrite (elapsed_cons e evs). lia.
Qed.

(** A pending timer is never due before [limit], once that holds and the
    clock has reached [limit - 300]. *)
Lemma formStep_due (limit : Z) m e m' :
  formStep env net m e = Some m' ->
  limit <= formClock m + debounceDelay ->
  (forall due, debounce m = Some due -> limit <= due) ->
  forall due, debounce m' = Some due -> limit <= due.
Proof.
  intros Hs Hl Hd due.
  destruct e; cbn [formStep] in Hs.
  - destruct (0 <=? ms); [|discriminate]. injection Hs as <-. apply Hd.
  - injection Hs as <-. cbn [debounce]. unfold rearm.
    destruct (String.eqb _ value); [apply Hd | intros [= <-]; exact Hl].
  - injection Hs as <-. apply Hd.
  - destruct (debounce m) as [d|]; [|discriminate].
    destruct (d <=? formClock m); [|discriminate]. injection Hs as <-. discriminate.
  - injection Hs as <-. apply Hd.
  - injection Hs as <-. cbn [debounce]. unfold rearm.
    destruct (String.eqb _ s); [apply Hd | intros [= <-]; exact Hl].
  - injection Hs as <-. apply Hd.
  - injection Hs as <-. discriminate.
Qed.

Lemma formRun_due (limit : Z) evs : forall m m',
  formRun env net m evs = Some m' ->
  limit <= formClock m + debounceDelay ->
  (forall due, debounce m = Some due -> limit <= due) ->
  forall due, debounce m' = Some due -> limit <= due.
Proof.
  induction evs as [|e evs IH]; intros m m' Hr Hl Hd; simpl in Hr.
  - now injection Hr as <-.
  - destruct (formStep env net m e) as [m1|] eqn:Es; [|discriminate].
    apply (IH _ _ Hr).
    + destruct (formStep_clock _ _ _ Es). lia.
    + now apply (formStep_due limit _ _ _ Es).
Qed.

Lemma formRun_app (a b : list FormEvent) : forall m,
  formRun env net m (a ++ b) =
  match formRun env net m a with
  | Some m1 => formRun env net m1 b
  | None => None
  end.
Proof.
  induction a as [|e a IH]; intros m; simpl; [reflexivity|].
  destruct (formStep env net m e); [apply IH | reflexivity].
Qed.

End FormFacts.

(** X9: the suggestion request is debounced.  Whatever happens in between
    (more typing, focus, clicks, submits), a timer callback that runs after
    the query was changed by typing comes at least 300 ms after that
    change. *)
Theorem suggestions_debounced env net (m0 m : FormMounted) (value : string)
    (between : list FormEvent) :
  SearchForm.query (comp (formWorld m0)) <> value ->
  formRun env net m0 (Typed value :: between ++ [DebounceFires]) = Some m ->
  300 <= elapsed between.
Proof.
  intros Hne Hr. cbn [formRun formStep] in Hr.
  apply String.eqb_neq in Hne. unfold rearm in Hr. rewrite Hne in Hr.
  set (m1 := mkFormMounted _ _ _) in Hr.
  rewrite formRun_app in Hr.
  destruct (formRun env net m1 between) as [m2|] eqn:Hb; [|discriminate].
  destruct (formRun_clock env net _ _ _ Hb) as [Hc _].
  pose proof (formRun_due env net (formClock m0 + debounceDelay) _ _ _ Hb) as Hd.
  cbn [formRun formStep] in Hr.
  destruct (debounce m2) as [due|] eqn:Ed; [|discriminate].
  destruct (Z.leb_spec due (formClock m2)); [|discriminate].
  assert (formClock m0 + debounceDelay <= due).
  { apply Hd; [subst m1; cbn; lia | subst m1; cbn; intros d [= <-]; lia | reflexivity]. }
  subst m1. cbn in Hc. unfold debounceDelay in *. lia.
Qed.

Lemma suggestions_debounced_witness :
  300 <= elapsed [FormElapse 100; Typed "par"; FormElapse 300].
Proof.
  apply (suggestions_debounced None offline (mountForm "") _ "pa"
           [FormElapse 100; Typed "par"; FormElapse 300]
           ltac:(discriminate) eq_refl).
Defined.

Section FormLogFacts.
Variable env : option string.
Variable net : string -> FetchOutcome.

Lemma sentBy_suggest s e : Forall (isSuggestRequest env) (sentBy env s e).
Proof.
  destruct e; cbn [sentBy]; try constructor.
  destruct (Nat.leb_spec 2 (String.length (SearchForm.query s))); repeat constructor.
  now exists (SearchForm.query s).
Qed.

Lemma searchNavigation_intro v :
  isSearchNavigation ("/search?query=" +:+ Url.encodeURIComponent v).
Proof.
  exists v. split; [reflexivity|]. split; [apply queryPairs_single|].
  apply formDecode_encodeURIComponent.
Qed.

Lemma pushedBy_search s e : Forall isSearchNavigation (pushedBy s e).
Proof.
  destruct e; cbn [pushedBy]; try constructor.
  - destruct (JsString.truthy _); repeat constructor. apply searchNavigation_intro.
  - apply searchNavigation_intro.
  - constructor.
Qed.

Lemma formRun_logs evs : forall m m',
  formRun env net m evs = Some m' ->
  Forall (isSuggestRequest env) (requests (formWorld m)) ->
  Forall isSearchNavigation (pushed (formWorld m)) ->
  Forall (isSuggestRequest env) (requests (formWorld m'))
  /\ Forall isSearchNavigation (pushed (formWorld m'))
  /\ (length (requests (formWorld m'))
      <= length (requests (formWorld m))
         + length (List.filter firesDebounce evs))%nat
  /\ (length (pushed (formWorld m'))
      <= length (pushed (formWorld m)) + length (List.filter navigates evs))%nat.
Proof.
  induction evs as [|e evs IH]; intros m m' Hr Hq Hp; simpl in Hr.
  - injection Hr as <-. cbn. repeat split; (assumption || lia).
  - destruct (formStep env net m e) as [m1|] eqn:Es; [|discriminate].
    destruct (formStep_logs env net _ _ _ Es) as [Er Ep].
    destruct (IH _ _ Hr) as (H1 & H2 & H3 & H4).
    + rewrite Er. apply Forall_app_2; [assumption | apply sentBy_suggest].
    + rewrite Ep. apply Forall_app_2; [assumption | apply pushedBy_search].
    + split; [assumption|]. split; [assumption|].
      rewrite Er, length_app in H3. rewrite Ep, length_app in H4.
      assert (Hs : (length (sentBy env (comp (formWorld m)) e)
                    <= if firesDebounce e then 1 else 0)%nat).
      { destruct e; cbn [sentBy length]; try lia.
        destruct (_ <=? _)%nat; cbn; lia. }
      assert (Hn : (length (pushedBy (comp (formWorld m)) e)
                    <= if navigates e then 1 else 0)%nat).
      { destruct e; cbn [pushedBy navigates length]; try lia.
        destruct (JsString.truthy _); cbn; lia. }
      cbn [List.filter].
      destruct e; cbn [navigates firesDebounce length] in *; lia.
Qed.

End FormLogFacts.

(** X10: what the search form sends and where it goes.  In every run from
    the mount, each request in the log is a suggestion request for a query
    of at least two code units, and there is at most one for each timer
    callback; each navigation is to the search page with the single
    parameter [query], and there is at most one for each submit or click on
    a suggestion.  Typing, focus and clicks outside send nothing and go
    nowhere. *)
Theorem form_requests_and_navigations env net (initialQuery : string)
    (evs : list FormEvent) (m : FormMounted) :
  formRun env net (mountForm initialQuery) evs = Some m ->
  Forall (isSuggestRequest env) (requests (formWorld m))
  /\ Forall isSearchNavigation (pushed (formWorld m))
  /\ (length (requests (formWorld m)) <= length (List.filter firesDebounce evs))%nat
  /\ (length (pushed (formWorld m)) <= length (List.filter navigates evs))%nat.
Proof.
  intros Hr.
  destruct (formRun_logs env net evs _ _ Hr) as (H1 & H2 & H3 & H4);
    [constructor | constructor |].
  repeat split; assumption.
Qed.

Lemma form_requests_and_navigations_witness :
  Forall isSearchNavigation ["/search?query=par"].
Proof.
  exact (proj1 (proj2 (form_requests_and_navigations None offline ""
           [Typed "p"; FormElapse 300; DebounceFires; Typed "pa"; FormElapse 50;
            Typed "par"; Submitted] _ eq_refl))).
Defined.

Section FormListFacts.
Variable env : option string.
Variable net : string -> FetchOutcome.

Lemma formStep_closed m e m' :
  formStep env net m e = Some m' ->
  opensList e = false ->
  SearchForm.showSuggestions (comp (formWorld m)) = false
  \/ closesList (comp (formWorld m)) e = true ->
  SearchForm.showSuggestions (comp (formWorld m')) = false.
Proof.
  intros Hs Ho Hc. destruct e; cbn [formStep opensList closesList] in *;
    try discriminate Ho.
  - destruct (0 <=? ms); [|discriminate]. injection Hs as <-.
    destruct Hc as [Hc|Hc]; [exact Hc | discriminate Hc].
  - destruct (debounce m) as [due|]; [|discriminate].
    destruct (due <=? formClock m); [|discriminate]. injection Hs as <-. cbn [formWorld].
    destruct (fetchSuggestions_logs env net (formWorld m)) as (_ & _ & _ & Hshow).
    rewrite Hshow. destruct Hc as [Hc|Hc]; [exact Hc | discriminate Hc].
  - injection Hs as <-. cbn [formWorld]. rewrite handleSubmit_run. cbn [snd].
    destruct (JsString.truthy _); [reflexivity|].
    destruct Hc as [Hc|Hc]; [exact Hc | discriminate Hc].
  - injection Hs as <-. reflexivity.
  - injection Hs as <-. reflexivity.
  - injection Hs as <-. destruct Hc as [Hc|Hc]; [exact Hc | discriminate Hc].
Qed.

Lemma formRun_closed evs : forall m m',
  formRun env net m evs = Some m' ->
  forallb (fun e => negb (opensList e)) evs = true ->
  SearchForm.showSuggestions (comp (formWorld m)) = false ->
  SearchForm.showSuggestions (comp (formWorld m')) = false.
Proof.
  induction evs as [|e evs IH]; intros m m' Hr Hall Hc; simpl in Hr.
  - now injection Hr as <-.
  - destruct (formStep env net m e) as [m1|] eqn:Es; [|discriminate].
    cbn [forallb] in Hall. apply andb_true_iff in Hall as [He Hall].
    apply negb_true_iff in He.
    apply (IH _ _ Hr Hall). apply (formStep_closed _ _ _ Es He). now left.
Qed.

End FormListFacts.

(** X11: the suggestion list stays closed until the input is used again.
    After a click outside, a click on a suggestion or the submit of a query
    that is not blank, the dropdown is not shown, and nothing but typing in
    the input or focusing it shows it again: not the arrival of
    suggestions, not the passing of time. *)
Theorem list_closed_until_input env net (m0 m1 m : FormMounted) (e : FormEvent)
    (after : list FormEvent) :
  formStep env net m0 e = Some m1 ->
  closesList (comp (formWorld m0)) e = true ->
  formRun env net m1 after = Some m ->
  forallb (fun e' => negb (opensList e')) after = true ->
  dropdown (comp (formWorld m)) = None.
Proof.
  intros Hs Hc Hr Hall.
  assert (Ho : opensList e = false) by (destruct e; (reflexivity || discriminate Hc)).
  pose proof (formStep_closed env net _ _ _ Hs Ho (or_intror Hc)) as H1.
  pose proof (formRun_closed env net _ _ _ Hr Hall H1) as H2.
  unfold dropdown. now rewrite H2.
Qed.

Lemma list_closed_until_input_witness :
  exists m1 m,
    formStep None offline
      (mkFormMounted 0 (Some 300) typedParis) (SuggestionClicked "paris 1950s postcards")
    = Some m1
    /\ formRun None offline m1 [FormElapse 300; DebounceFires] = Some m
    /\ SearchForm.suggestions (comp (formWorld m))
       = Js.strings (SearchForm.mockSuggestions "paris 1950s postcards")
    /\ dropdown (comp (formWorld m)) = None.
Proof.
  eexists. eexists. split; [reflexivity|]. split; [reflexivity|].
  split; [reflexivity|].
  apply (list_closed_until_input None offline
           (mkFormMounted 0 (Some 300) typedParis) _ _
           (SuggestionClicked "paris 1950s postcards")
           [FormElapse 300; DebounceFires] eq_refl eq_refl eq_refl eq_refl).
Defined.

(** ** Submitting twice *)

Section TrimMoreFacts.
Import JsString.

Lemma trimEnd_idempotent (s : string) : trimEnd (trimEnd s) = trimEnd s.
Proof.
  induction s as [|c s IH]; [reflexivity|]. cbn [trimEnd].
  destruct (trimEnd s) as [|a t] eqn:E.
  - destruct (isWhiteSpace c) eqn:Ec; [reflexivity|]. cbn. now rewrite Ec.
  - cbn [trimEnd] in *. now rewrite IH.
Qed.

Lemma trimStart_fixed (s : string) :
  (forall c rest, s = String c rest -> isWhiteSpace c = false) -> trimStart s = s.
Proof.
  destruct s as [|c s]; [reflexivity|]. intros H. cbn.
  now rewrite (H c s eq_refl).
Qed.

Lemma trim_idempotent (s : string) : trim (trim s) = trim s.
Proof.
  unfold trim at 1. rewrite trimStart_fixed by apply trim_ends.
  unfold trim. apply trimEnd_idempotent.
Qed.

Lemma append_inj_l (p a b : string) : p +:+ a = p +:+ b -> a = b.
Proof.
  induction p as [|c p IH]; simpl; [trivial|]. intros [= H]. now apply IH.
Qed.

Lemma encodeURIComponent_inj (a b : string) :
  Url.encodeURIComponent a = Url.encodeURIComponent b -> a = b.
Proof.
  intros H. pose proof (decode_encodeURIComponent a) as Ha.
  rewrite H, decode_encodeURIComponent in Ha. now injection Ha.
Qed.

End TrimMoreFacts.

(** X12: two submits go to the same place exactly when the queries are the
    same once trimmed; in particular a query and its trimmed form go to
    the same place. *)
Theorem handleSubmit_same_target (w1 w2 : World SearchForm.State) :
  let q1 := SearchForm.query (comp w1) in
  let q2 := SearchForm.query (comp w2) in
  pushed w1 = pushed w2 ->
  JsString.trim q1 <> "" -> JsString.trim q2 <> "" ->
  (pushed (snd (SearchForm.handleSubmit w1)) = pushed (snd (SearchForm.handleSubmit w2))
   <-> JsString.trim q1 = JsString.trim q2)
  /\ JsString.trim (JsString.trim q1) = JsString.trim q1.
Proof.
  intros q1 q2 Hp H1 H2. subst q1 q2. split; [|apply trim_idempotent].
  rewrite !handleSubmit_run. apply truthy_true in H1, H2. rewrite H1, H2.
  cbn [snd pushed]. rewrite Hp. split.
  - intros H. apply app_inv_head in H. injection H as H.
    apply encodeURIComponent_inj;
      first [exact H | now apply (append_inj_l "/search?query=")].
  - now intros ->.
Qed.

Lemma handleSubmit_same_target_witness :
  pushed (snd (SearchForm.handleSubmit typedPadded))
  = pushed (snd (SearchForm.handleSubmit
                   (mkWorld (SearchForm.mkState "New York 1950s" (VArr []) false false)
                      [] []))).
Proof.
  apply (handleSubmit_same_target typedPadded
           (mkWorld (SearchForm.mkState "New York 1950s" (VArr []) false false) [] [])
           eq_refl ltac:(discriminate) ltac:(discriminate)).
  reflexivity.
Defined.

(** ** The filter panel *)

Lemma queryPairs_search (qs : string) :
  Url.pathOf ("/search?" +:+ qs) = "/search"
  /\ Url.queryPairs ("/search?" +:+ qs) = parseSearch qs.
Proof. split; reflexivity. Qed.

Lemma lookupPair_app name (a b : list (string * string)) :
  lookupPair name (a ++ b)
  = match lookupPair name a with Some v => Some v | None => lookupPair name b end.
Proof.
  induction a as [|[k v] a IH]; [reflexivity|]. cbn [app lookupPair].
  destruct (String.eqb k name); [reflexivity | exact IH].
Qed.

Lemma filterParams_lookups (p : FilterPanel.Props) (s : FilterPanel.State) :
  let ps := FilterPanel.filterParams p s in
  NoDup (map fst ps)
  /\ lookupPair "page" ps = None
  /\ lookupPair "query" ps = Some (FilterPanel.query p)
  /\ lookupPair "year_min" ps = fieldValue (FilterPanel.yearMinValue s)
  /\ lookupPair "year_max" ps = fieldValue (FilterPanel.yearMaxValue s)
  /\ lookupPair "location" ps = fieldValue (FilterPanel.locationValue s)
  /\ lookupPair "price_min" ps = fieldValue (FilterPanel.priceMinValue s)
  /\ lookupPair "price_max" ps = fieldValue (FilterPanel.priceMaxValue s)
  /\ lookupPair "sort_by" ps = fieldValue (FilterPanel.sortByValue s).
Proof.
  intros ps. subst ps.
  unfold FilterPanel.filterParams, appendIf, URLSearchParams.append,
    URLSearchParams.empty, fieldValue.
  destruct s as [ymin ymax loc pmin pmax sort]. cbn.
  destruct (JsString.truthy ymin), (JsString.truthy ymax), (JsString.truthy loc),
    (JsString.truthy pmin), (JsString.truthy pmax), (JsString.truthy sort);
    (split; [apply (bool_decide_unpack _); vm_compute; reflexivity
            | repeat split; reflexivity]).
Qed.

(** X13: Apply navigates once, to the search page, with parameters that
    read back as: the query of the props, each filter field that is not
    empty, and the sort order if it is not empty; never a page number.  It
    sends nothing and changes no field. *)
Theorem applyFilters_url (p : FilterPanel.Props) (w : World FilterPanel.State) :
  let s := comp w in
  let ps := FilterPanel.filterParams p s in
  let url := "/search?" +:+ URLSearchParams.toString ps in
  FilterPanel.applyFilters p w
  = (Normal tt, mkWorld s (requests w) (pushed w ++ [url]))
  /\ Url.pathOf url = "/search"
  /\ decodePairs formDecode (Url.queryPairs url) = Some ps
  /\ NoDup (map fst ps)
  /\ lookupPair "page" ps = None
  /\ lookupPair "query" ps = Some (FilterPanel.query p)
  /\ lookupPair "year_min" ps = fieldValue (FilterPanel.yearMinValue s)
  /\ lookupPair "year_max" ps = fieldValue (FilterPanel.yearMaxValue s)
  /\ lookupPair "location" ps = fieldValue (FilterPanel.locationValue s)
  /\ lookupPair "price_min" ps = fieldValue (FilterPanel.priceMinValue s)
  /\ lookupPair "price_max" ps = fieldValue (FilterPanel.priceMaxValue s)
  /\ lookupPair "sort_by" ps = fieldValue (FilterPanel.sortByValue s).
Proof.
  intros s ps url. subst s ps url.
  split; [reflexivity|]. split; [reflexivity|].
  split; [rewrite (proj2 (queryPairs_search _)); apply URLSearchParams_read_back|].
  apply filterParams_lookups.
Qed.

(** X14: choosing a sort order stores it and navigates once, with the
    filter fields as they are and [sort_by] set to the chosen value even
    when that value is empty; for a value that is not empty this is the
    navigation Apply makes once the value is stored. *)
Theorem handleSortChange_url (p : FilterPanel.Props) (value : string)
    (w : World FilterPanel.State) :
  let s := comp w in
  let s' := FilterPanel.mkState (FilterPanel.yearMinValue s) (FilterPanel.yearMaxValue s)
              (FilterPanel.locationValue s) (FilterPanel.priceMinValue s)
              (FilterPanel.priceMaxValue s) value in
  let ps := sortParams p s value in
  let url := "/search?" +:+ URLSearchParams.toString ps in
  handleSortChange p value w
  = (Normal tt, mkWorld s' (requests w) (pushed w ++ [url]))
  /\ decodePairs formDecode (Url.queryPairs url) = Some ps
  /\ lookupPair "sort_by" ps = Some value
  /\ lookupPair "page" ps = None
  /\ lookupPair "query" ps = Some (FilterPanel.query p)
  /\ lookupPair "year_min" ps = fieldValue (FilterPanel.yearMinValue s)
  /\ lookupPair "year_max" ps = fieldValue (FilterPanel.yearMaxValue s)
  /\ lookupPair "location" ps = fieldValue (FilterPanel.locationValue s)
  /\ lookupPair "price_min" ps = fieldValue (FilterPanel.priceMinValue s)
  /\ lookupPair "price_max" ps = fieldValue (FilterPanel.priceMaxValue s)
  /\ (value <> "" ->
      snd (handleSortChange p value w)
      = snd (FilterPanel.applyFilters p (snd (FilterPanel.setSortByValue value w)))).
Proof.
  intros s s' ps url. subst s s' ps url.
  split; [reflexivity|].
  split; [rewrite (proj2 (queryPairs_search _)); apply URLSearchParams_read_back|].
  unfold handleSortChange, FilterPanel.applyFilters, FilterPanel.setSortByValue,
    sortParams, FilterPanel.filterParams, appendIf, URLSearchParams.append,
    URLSearchParams.empty, fieldValue.
  eff_unfold. destruct (comp w) as [ymin ymax loc pmin pmax sort]. cbn.
  destruct (JsString.truthy ymin), (JsString.truthy ymax), (JsString.truthy loc),
    (JsString.truthy pmin), (JsString.truthy pmax);
    (repeat split; try reflexivity);
    intros Hv; apply truthy_true in Hv; now rewrite Hv.
Qed.

Lemma handleSortChange_url_witness :
  pushed (snd (handleSortChange parisPanel "newest" typedFilters))
  = ["/search?query=paris&year_min=1900&year_max=1950&location=New+York&sort_by=newest"].
Proof.
  destruct (handleSortChange_url parisPanel "newest" typedFilters)
    as (_ & _ & _ & _ & _ & _ & _ & _ & _ & _ & H).
  rewrite (H ltac:(discriminate)). reflexivity.
Defined.

(** X15: a panel that was not touched asks for what the page asked for.
    The parameters Apply builds from the initial fields of a panel are the
    parameters of the search request of the same props, without the page
    number: a filter of 0 is kept, an empty location is not. *)
Theorem untouched_panel_keeps_filters (p : SearchResultsProps) :
  FilterPanel.filterParams (filterPropsOf p) (FilterPanel.initialState (filterPropsOf p))
  = List.filter (fun kv => negb (String.eqb (fst kv) "page")) (searchParamsOf p).
Proof.
  unfold FilterPanel.filterParams, FilterPanel.initialState, FilterPanel.numberField,
    searchParamsOf, filterPropsOf, appendIf, URLSearchParams.append,
    URLSearchParams.empty, sortByOf.
  destruct p as [q pg ymin ymax loc pmin pmax sb]. cbn -[JsNumber.toString].
  destruct ymin as [a|], ymax as [b|], loc as [l|], pmin as [c|], pmax as [d|];
    cbn -[JsNumber.toString]; rewrite ?toString_truthy;
    cbn -[JsNumber.toString];
    try (destruct (JsString.truthy l) eqn:El; cbn -[JsNumber.toString]; rewrite ?El);
    (destruct sb as [sv|]; cbn -[JsNumber.toString];
     [destruct (JsString.truthy sv)|]; reflexivity).
Qed.

(** X16: Reset then Apply.  After a reset no filter is listed as active,
    and Apply navigates with the query and the sort order "relevance"
    only; a second reset changes nothing more. *)
Theorem reset_then_apply (p : FilterPanel.Props) (w : World FilterPanel.State) :
  let w1 := snd (FilterPanel.resetFilters p w) in
  FilterPanel.activeFilterChips (comp w1) = []
  /\ FilterPanel.filterParams p (comp w1)
     = [("query", FilterPanel.query p); ("sort_by", "relevance")]
  /\ pushed (snd (FilterPanel.applyFilters p w1))
     = pushed w ++ [FilterPanel.resetUrl p;
                    "/search?query=" +:+ Url.formEncode (FilterPanel.query p)
                    +:+ "&sort_by=relevance"]
  /\ comp (snd (FilterPanel.resetFilters p w1)) = comp w1.
Proof.
  intros w1. subst w1. repeat split.
  cbn. rewrite <- app_assoc. reflexivity.
Qed.

(** ** From a navigation to the page it shows *)

Lemma lookupPair_absent name (ps : list (string * string)) :
  name ∉ map fst ps -> lookupPair name ps = None.
Proof.
  induction ps as [|[k v] ps IH]; [reflexivity|]. cbn [map fst lookupPair].
  intros Hn. apply not_elem_of_cons in Hn as [Hne Hn].
  destruct (String.eqb_spec k name); [congruence | now apply IH].
Qed.

Lemma stringParam_fold (ps : list (string * string)) :
  forall (m : gmap string ParamValue) name,
    NoDup (map fst ps) ->
    (forall k, k ∈ map fst ps -> m !! k = None) ->
    stringParam (fold_left addParam ps m) name
    = match lookupPair name ps with
      | Some v => Some v
      | None => stringParam m name
      end.
Proof.
  induction ps as [|[k v] ps IH]; intros m name Hnd Hfresh; [reflexivity|].
  cbn [map fst] in Hnd, Hfresh. apply NoDup_cons in Hnd as [Hk Hnd].
  cbn [fold_left lookupPair]. unfold addParam at 2. cbn [fst snd].
  rewrite (Hfresh k) by apply list_elem_of_here.
  rewrite IH; [|assumption|].
  - destruct (String.eqb_spec k name) as [->|Hne].
    + rewrite lookupPair_absent by assumption.
      unfold stringParam. now rewrite lookup_insert_eq.
    + destruct (lookupPair name ps); [reflexivity|].
      unfold stringParam. now rewrite lookup_insert_ne.
  - intros k' Hin. rewrite lookup_insert_ne; [|intros ->; contradiction].
    apply Hfresh. now apply list_elem_of_further.
Qed.

(** With names that occur once, the page reads each parameter as the
    value of its pair. *)
Lemma stringParam_paramsOfPairs (ps : list (string * string)) name :
  NoDup (map fst ps) ->
  stringParam (paramsOfPairs ps) name = lookupPair name ps.
Proof.
  intros Hnd. unfold paramsOfPairs. rewrite stringParam_fold; [|assumption|].
  - destruct (lookupPair name ps); [reflexivity|].
    unfold stringParam. now rewrite lookup_empty.
  - intros k _. apply lookup_empty.
Qed.

Lemma searchParamsOfUrl_single (v : string) :
  searchParamsOfUrl ("/search?query=" +:+ Url.encodeURIComponent v)
  = Some (paramsOfPairs [("query", v)]).
Proof.
  unfold searchParamsOfUrl. rewrite (proj2 (queryPairs_single v)).
  cbn [decodePairs]. rewrite formDecode_encodeURIComponent. reflexivity.
Qed.

Lemma pageProps_single parseInt parseFloat (v : string) :
  pageProps parseInt parseFloat (paramsOfPairs [("query", v)]) = plainProps v.
Proof.
  unfold pageProps.
  rewrite !stringParam_paramsOfPairs
    by (apply (bool_decide_unpack _); vm_compute; reflexivity).
  reflexivity.
Qed.

Lemma SearchPage_single parseInt parseFloat (v : string) :
  SearchPage parseInt parseFloat (paramsOfPairs [("query", v)])
  = if JsString.truthy v
    then ResultsLayout v (filterPropsOf (plainProps v)) (plainProps v)
    else PromptScreen v.
Proof. unfold SearchPage. now rewrite pageProps_single. Qed.

(** X17: where Reset, a submit and a click on a suggestion lead.  Each
    navigates to a URL that the page reads as: the query (of the panel's
    props, the trimmed query of the form, the suggestion), page 1, no
    filter, sort order "relevance"; after a submit the page is the result
    layout for the trimmed query. *)
Theorem navigation_lands_on_plain_search parseInt parseFloat :
  (forall p w, exists params,
      pushed (snd (FilterPanel.resetFilters p w)) = pushed w ++ [FilterPanel.resetUrl p]
      /\ searchParamsOfUrl (FilterPanel.resetUrl p) = Some params
      /\ pageProps parseInt parseFloat params = plainProps (FilterPanel.query p))
  /\ (forall w : World SearchForm.State,
      let q := JsString.trim (SearchForm.query (comp w)) in
      q <> "" ->
      exists url params,
        pushed (snd (SearchForm.handleSubmit w)) = pushed w ++ [url]
        /\ searchParamsOfUrl url = Some params
        /\ SearchPage parseInt parseFloat params
           = ResultsLayout q (filterPropsOf (plainProps q)) (plainProps q))
  /\ (forall suggestion (w : World SearchForm.State), exists url params,
        pushed (snd (SearchForm.handleSuggestionClick suggestion w)) = pushed w ++ [url]
        /\ searchParamsOfUrl url = Some params
        /\ pageProps parseInt parseFloat params = plainProps suggestion).
Proof.
  split; [|split].
  - intros p w. eexists. split; [reflexivity|].
    split; [apply searchParamsOfUrl_single | apply pageProps_single].
  - intros w q Hq. subst q. eexists. eexists. rewrite handleSubmit_run.
    apply truthy_true in Hq as Ht. rewrite Ht. cbn [snd pushed].
    split; [reflexivity|]. split; [apply searchParamsOfUrl_single|].
    now rewrite SearchPage_single, Ht.
  - intros suggestion w. eexists. eexists. split; [reflexivity|].
    split; [apply searchParamsOfUrl_single | apply pageProps_single].
Qed.

Lemma navigation_lands_on_plain_search_witness :
  exists url params,
    pushed (snd (SearchForm.handleSubmit typedPadded)) = [url]
    /\ searchParamsOfUrl url = Some params
    /\ SearchPage parseDigits parseDigits params
       = ResultsLayout "New York 1950s" (filterPropsOf (plainProps "New York 1950s"))
           (plainProps "New York 1950s").
Proof.
  exact (proj1 (proj2 (navigation_lands_on_plain_search parseDigits parseDigits))
           typedPadded ltac:(discriminate)).
Defined.

(** X18: where Apply leads.  The page reads the URL Apply navigates to as:
    the query of the panel's props, page 1, each filter field that is not
    empty (parsed with [parseInt] for the years and [parseFloat] for the
    prices), and the sort order of the panel, or "relevance" when that is
    empty. *)
Theorem applyFilters_lands parseInt parseFloat (p : FilterPanel.Props)
    (w : World FilterPanel.State) :
  let s := comp w in
  exists url params,
    pushed (snd (FilterPanel.applyFilters p w)) = pushed w ++ [url]
    /\ searchParamsOfUrl url = Some params
    /\ pageProps parseInt parseFloat params
       = {| query := FilterPanel.query p;
            page := Num 1;
            yearMin := parseInt <$> fieldValue (FilterPanel.yearMinValue s);
            yearMax := parseInt <$> fieldValue (FilterPanel.yearMaxValue s);
            location := fieldValue (FilterPanel.locationValue s);
            priceMin := parseFloat <$> fieldValue (FilterPanel.priceMinValue s);
            priceMax := parseFloat <$> fieldValue (FilterPanel.priceMaxValue s);
            sortBy := Some (default "relevance" (fieldValue (FilterPanel.sortByValue s))) |}.
Proof.
  intros s. subst s. eexists. eexists. split; [reflexivity|].
  unfold searchParamsOfUrl.
  rewrite (proj2 (queryPairs_search _)), URLSearchParams_read_back.
  split; [reflexivity|].
  destruct (filterParams_lookups p (comp w))
    as (Hnd & Hpage & Hq & H1 & H2 & H3 & H4 & H5 & H6).
  unfold pageProps. rewrite !stringParam_paramsOfPairs by assumption.
  now rewrite Hpage, Hq, H1, H2, H3, H4, H5, H6.
Qed.

(** ** Where the page links lead *)

Section LinkFacts.
Import JsString.

Lemma encode_unreserved (s : string) :
  allUnits Url.isUnreserved s = true -> Url.encodeURIComponent s = s.
Proof.
  induction s as [|c s IH]; [reflexivity|]. cbn [allUnits Url.encodeURIComponent].
  rewrite andb_true_iff. intros [Hc Hs]. unfold Url.encodeUnit. rewrite Hc, (IH Hs).
  reflexivity.
Qed.

Lemma joinPairs_cons k v (rest : list (string * string)) :
  joinPairs ((k, v) :: rest) = k +:+ "=" +:+ v +:+ ampPairs rest.
Proof.
  revert k v. induction rest as [|[k' v'] rest IH]; intros k v.
  - cbn. now rewrite append_empty_r.
  - change (joinPairs ((k, v) :: (k', v') :: rest))
      with (k +:+ "=" +:+ v +:+ "&" +:+ joinPairs ((k', v') :: rest)).
    rewrite IH. reflexivity.
Qed.

Lemma ampPairs_app (a b : list (string * string)) :
  ampPairs (a ++ b) = ampPairs a +:+ ampPairs b.
Proof.
  induction a as [|[k v] a IH]; [reflexivity|]. cbn [app ampPairs].
  rewrite IH. cbn. f_equal. rewrite append_assoc. cbn. now rewrite append_assoc.
Qed.

Lemma numberParam_amp name (v : option number) :
  numberParam name v = ampPairs (map encodeValue (numberPair name v)).
Proof.
  unfold numberParam, numberPair, keepNumber, truthyOptNumber.
  destruct v as [n|]; [|reflexivity]. destruct (JsNumber.truthy n); [|reflexivity].
  cbn [map ampPairs encodeValue fst snd].
  rewrite encode_unreserved by apply toString_unreserved.
  now rewrite append_empty_r.
Qed.

(** A page link is its parameters, values encoded, joined. *)
Lemma pageHref_join (p : SearchResultsProps) (target : number) :
  allUnits Url.isUnreserved (sortByOf p) = true ->
  pageHref p target = "/search?" +:+ joinPairs (map encodeValue (linkPairs p target)).
Proof.
  intros Hsort. unfold pageHref, linkPairs.
  cbn [app map]. unfold encodeValue at 1 2. cbn [fst snd]. rewrite joinPairs_cons.
  cbn [ampPairs]. rewrite !map_app, !ampPairs_app, <- !numberParam_amp.
  rewrite (encode_unreserved (JsNumber.toString target)) by apply toString_unreserved.
  assert (Hloc : match location p with
                 | Some l => if truthy l then "&location=" +:+ Url.encodeURIComponent l else ""
                 | None => ""
                 end = ampPairs (map encodeValue (textPair "location" (location p)))).
  { unfold textPair, keepText, truthyOptString. destruct (location p) as [l|]; [|reflexivity].
    destruct (truthy l); [|reflexivity]. cbn. now rewrite append_empty_r. }
  assert (Hs : (if truthy (sortByOf p) then "&sort_by=" +:+ sortByOf p else "")
               = ampPairs (map encodeValue (textPair "sort_by" (Some (sortByOf p))))).
  { unfold textPair, keepText, truthyOptString. destruct (truthy (sortByOf p)); [|reflexivity].
    cbn. now rewrite append_empty_r, encode_unreserved. }
  rewrite Hloc, Hs. cbn. rewrite ?append_assoc. reflexivity.
Qed.

Lemma encodeValue_plain (ps : list (string * string)) :
  Forall (fun kv => isPlain (fst kv) = true) ps -> plainPairs (map encodeValue ps).
Proof.
  induction 1 as [|[k v] ps Hk Hps IH]; constructor; [|exact IH].
  split; [exact Hk|]. apply encoded_plain, encodeURIComponent_encoded.
Qed.

Lemma decodePairs_encodeValue (ps : list (string * string)) :
  Forall (fun kv => allUnits Url.isUnreserved (fst kv) = true) ps ->
  decodePairs formDecode (map encodeValue ps) = Some ps.
Proof.
  induction 1 as [|[k v] ps Hk Hps IH]; [reflexivity|].
  cbn [map decodePairs encodeValue fst snd] in *.
  now rewrite formDecode_unreserved, formDecode_encodeURIComponent, IH.
Qed.

Lemma linkPairs_names (p : SearchResultsProps) (target : number) :
  Forall (fun kv => allUnits Url.isUnreserved (fst kv) = true) (linkPairs p target)
  /\ NoDup (map fst (linkPairs p target)).
Proof.
  unfold linkPairs, numberPair, textPair.
  destruct (keepNumber (yearMin p)), (keepNumber (yearMax p)), (keepText (location p)),
    (keepNumber (priceMin p)), (keepNumber (priceMax p)), (keepText (Some (sortByOf p)));
    (split; [repeat constructor | apply (bool_decide_unpack _); vm_compute; reflexivity]).
Qed.

Lemma linkPairs_lookups (p : SearchResultsProps) (target : number) :
  let ps := linkPairs p target in
  lookupPair "query" ps = Some (query p)
  /\ lookupPair "page" ps = Some (JsNumber.toString target)
  /\ lookupPair "year_min" ps = JsNumber.toString <$> keepNumber (yearMin p)
  /\ lookupPair "year_max" ps = JsNumber.toString <$> keepNumber (yearMax p)
  /\ lookupPair "location" ps = keepText (location p)
  /\ lookupPair "price_min" ps = JsNumber.toString <$> keepNumber (priceMin p)
  /\ lookupPair "price_max" ps = JsNumber.toString <$> keepNumber (priceMax p)
  /\ lookupPair "sort_by" ps = keepText (Some (sortByOf p)).
Proof.
  intros ps. subst ps. unfold linkPairs, numberPair, textPair.
  destruct (keepNumber (yearMin p)), (keepNumber (yearMax p)), (keepText (location p)),
    (keepNumber (priceMin p)), (keepNumber (priceMax p)), (keepText (Some (sortByOf p)));
    repeat split; reflexivity.
Qed.

(** A page link reads back as its parameters. *)
Lemma searchParamsOfUrl_link (p : SearchResultsProps) (target : number) :
  allUnits Url.isUnreserved (sortByOf p) = true ->
  searchParamsOfUrl (pageHref p target) = Some (paramsOfPairs (linkPairs p target)).
Proof.
  intros Hsort. unfold searchParamsOfUrl.
  destruct (linkPairs_names p target) as [Hnames _].
  rewrite pageHref_join, (proj2 (queryPairs_search _)) by assumption.
  rewrite parseSearch_joinPairs.
  - now rewrite decodePairs_encodeValue.
  - apply encodeValue_plain. eapply Forall_impl; [exact Hnames|].
    intros kv. apply unreserved_plain.
Qed.

End LinkFacts.

(** X19: where the Previous and Next links lead.  For a page number and
    numeric filters that are safe integers (written in digits, without an
    exponent), a sort order made of unreserved characters and not empty,
    and parsers that read back the numbers the link writes, the page reads
    the link for page [target] as: the same query, page [target], the same
    sort order, the location if it is not empty, and each numeric filter
    that is not 0. *)
Theorem page_link_lands parseInt parseFloat (p : SearchResultsProps) (target : number) :
  isSafeInteger target = true ->
  isSafeOpt (keepNumber (yearMin p)) = true ->
  isSafeOpt (keepNumber (yearMax p)) = true ->
  isSafeOpt (keepNumber (priceMin p)) = true ->
  isSafeOpt (keepNumber (priceMax p)) = true ->
  JsString.allUnits Url.isUnreserved (sortByOf p) = true ->
  sortByOf p <> "" ->
  parseInt (JsNumber.toString target) = target ->
  (forall y, keepNumber (yearMin p) = Some y -> parseInt (JsNumber.toString y) = y) ->
  (forall y, keepNumber (yearMax p) = Some y -> parseInt (JsNumber.toString y) = y) ->
  (forall x, keepNumber (priceMin p) = Some x -> parseFloat (JsNumber.toString x) = x) ->
  (forall x, keepNumber (priceMax p) = Some x -> parseFloat (JsNumber.toString x) = x) ->
  exists params,
    searchParamsOfUrl (pageHref p target) = Some params
    /\ pageProps parseInt parseFloat params
       = {| query := query p;
            page := target;
            yearMin := keepNumber (yearMin p);
            yearMax := keepNumber (yearMax p);
            location := keepText (location p);
            priceMin := keepNumber (priceMin p);
            priceMax := keepNumber (priceMax p);
            sortBy := Some (sortByOf p) |}.
Proof.
  intros _ _ _ _ _ Hsort Hne Ht H1 H2 H3 H4. eexists.
  split; [now apply searchParamsOfUrl_link|].
  destruct (linkPairs_names p target) as [_ Hnd].
  destruct (linkPairs_lookups p target) as (Lq & Lp & L1 & L2 & L3 & L4 & L5 & L6).
  unfold pageProps. rewrite !stringParam_paramsOfPairs by assumption.
  rewrite Lq, Lp, L1, L2, L3, L4, L5, L6. cbn [default].
  rewrite Ht.
  assert (Hk : keepText (Some (sortByOf p)) = Some (sortByOf p)).
  { unfold keepText, truthyOptString. now rewrite (proj2 (truthy_true _) Hne). }
  rewrite Hk. cbn [default].
  f_equal.
  - destruct (keepNumber (yearMin p)) as [y|]; [|reflexivity]. cbn. now rewrite H1.
  - destruct (keepNumber (yearMax p)) as [y|]; [|reflexivity]. cbn. now rewrite H2.
  - destruct (keepNumber (priceMin p)) as [x|]; [|reflexivity]. cbn. now rewrite H3.
  - destruct (keepNumber (priceMax p)) as [x|]; [|reflexivity]. cbn. now rewrite H4.
Qed.

Lemma page_link_lands_witness :
  exists params,
    searchParamsOfUrl (pageHref filteredProps (Num 3)) = Some params
    /\ pageProps parseDigits parseDigits params
       = {| query := "new york"; page := Num 3; yearMin := Some (Num 1900);
            yearMax := Some (Num 1950); location := Some "Coney Island";
            priceMin := Some (Num 5); priceMax := None; sortBy := Some "price_asc" |}.
Proof.
  apply (page_link_lands parseDigits parseDigits filteredProps (Num 3)
           eq_refl eq_refl eq_refl eq_refl eq_refl
           eq_refl ltac:(discriminate) eq_refl);
    cbn; intros n [= <-] || intros n [=]; reflexivity.
Defined.


(** X20: the pagination of a rendered page of results, for a page number
    that is a safe integer and a state of the declared types.  There is
    none when the total is not positive; otherwise it shows the page
    number, a Previous link exactly when the page number is above 1, to
    the page before, and a Next link exactly when the list has at least 20
    results, to the page after; the two links differ in the page number
    only. *)
Theorem pagination_of_results_page {Card} (card : JsValue -> option Card) toNumber
    p s b z t rs :
  page p = Num z -> isSafeInteger (page p) = true ->
  total s = VNum t -> results s = VArr rs ->
  renderScreen card toNumber p s = Some (ResultsScreen b) ->
  pageNav b
  = (if JsNumber.gtb t (Num 0) then
       Some {| previousLink :=
                 if 1 <? z then Some (pageHref p (Num (z - 1))) else None;
               currentPage := Num z;
               nextLink :=
                 if (20 <=? length rs)%nat
                 then Some (pageHref p (Num (z + 1))) else None |}
     else None)
  /\ (exists before after, forall target,
        pageHref p target = before +:+ JsNumber.toString target +:+ after).
Proof.
  intros Hz _ Ht Hr Hb. split.
  - unfold renderScreen in Hb.
    destruct (loading s); [discriminate|].
    destruct (truthyOptString (error s)); [discriminate|].
    destruct (childText (total s)); [|discriminate].
    destruct (noteOf _ _); [|discriminate].
    destruct (gridOf _ _ _); [|discriminate].
    rewrite Hr in Hb. cbn [lengthOf] in Hb. injection Hb as <-.
    cbn [pageNav]. unfold navOf. rewrite Ht, Hz.
    cbn [numberOf JsNumber.gtb JsNumber.geb JsNumber.sub JsNumber.add JsNumber.ofNat].
    destruct (JsNumber.gtb t (Num 0)); [|reflexivity].
    destruct (Nat.leb_spec 20 (length rs)); destruct (Z.leb_spec 20 (Z.of_nat (length rs)));
      (reflexivity || lia).
  - eexists. eexists. intros target. unfold pageHref.
    rewrite <- (append_assoc "/search?query=" (Url.encodeURIComponent (query p))).
    rewrite <- (append_assoc _ "&page=").
    reflexivity.
Qed.

Lemma pagination_of_results_page_witness :
  exists b nav,
    renderScreen (typedCard false) digitsToNumber filteredProps typedFullPage
    = Some (ResultsScreen b)
    /\ pageNav b = Some nav
    /\ previousLink nav
       = Some "/search?query=new%20york&page=1&year_min=1900&year_max=1950&location=Coney%20Island&price_min=5&sort_by=price_asc"
    /\ nextLink nav
       = Some "/search?query=new%20york&page=3&year_min=1900&year_max=1950&location=Coney%20Island&price_min=5&sort_by=price_asc".
Proof.
  eexists. eexists. split; [vm_compute; reflexivity|].
  match goal with
  | |- pageNav ?b = _ /\ _ =>
      destruct (pagination_of_results_page (typedCard false) digitsToNumber
                  filteredProps typedFullPage b 2 (Num 40) (replicate 20 sampleResult)
                  eq_refl eq_refl eq_refl eq_refl ltac:(vm_compute; reflexivity))
        as [Hnav _]
  end.
  split; [exact Hnav|]. split; vm_compute; reflexivity.
Defined.

(** ** A page of results *)



(** ** Repeated parameters *)

Lemma stringParam_single (params : gmap string ParamValue) name :
  stringParam (filter (fun kv => isSingle (snd kv) = true) params) name
  = stringParam params name.
Proof.
  unfold stringParam. rewrite map_lookup_filter.
  destruct (params !! name) as [[s|l]|]; reflexivity.
Qed.

(** X22: the page ignores a parameter that occurs more than once: it shows
    what it would show if every such parameter were absent.  A repeated
    [query] gives the prompt screen. *)
Theorem SearchPage_ignores_repeated parseInt parseFloat (params : gmap string ParamValue) :
  SearchPage parseInt parseFloat params
  = SearchPage parseInt parseFloat (filter (fun kv => isSingle (snd kv) = true) params)
  /\ (forall values, params !! "query" = Some (PArray values) ->
      SearchPage parseInt parseFloat params = PromptScreen "").
Proof.
  split.
  - unfold SearchPage, pageProps. now rewrite !stringParam_single.
  - intros values H. unfold SearchPage, pageProps, stringParam. cbn [query].
    now rewrite H.
Qed.

Lemma SearchPage_ignores_repeated_witness :
  SearchPage parseDigits parseDigits
    (paramsOfPairs [("query", "paris"); ("query", "rome"); ("page", "2")])
  = PromptScreen "".
Proof.
  apply (proj2 (SearchPage_ignores_repeated parseDigits parseDigits _) ["paris"; "rome"]).
  reflexivity.
Defined.
